(** * mysocial-token: the volume bot and the supply-release bot

    A shallow embedding of
      - [scripts/volume_bot/multi_wallet_manager.py] (the wallet pool registry),
      - [scripts/volume_bot/trader.py] (approval, pool check, emergency
        USDC -> ETH conversion and the swap itself),
      - [scripts/supply_release_bot/bot.py] (the capped mint-and-sell run),
    together with the properties of these programs.

    Python integers are [Z]; Python floats are IEEE-754 binary64 values,
    written with the Standard Library's [spec_float] and its correctly
    rounded operations; exceptions are values of [Exn]; every call that
    leaves the process (JSON-RPC, contract reads, signing, the clock) is a
    typed request answered by the environment. *)

From Stdlib Require Import ZArith List Bool String Ascii Lia Arith.
From Stdlib Require Import SpecFloat DecimalString.
From Equations Require Import Equations.
Import ListNotations.

Set Implicit Arguments.
Local Open Scope string_scope.
Local Open Scope list_scope.
Local Open Scope Z_scope.

(* ===================================================================== *)
(** * Python values                                                       *)
(* ===================================================================== *)

Module Py.

(** An exception: its class name and [str(e)]. *)
Record Exn := mkExn { exn_type : string; exn_msg : string }.

Definition ValueError (msg : string) : Exn := mkExn "ValueError" msg.
Definition OverflowError (msg : string) : Exn := mkExn "OverflowError" msg.
Definition ZeroDivisionError (msg : string) : Exn := mkExn "ZeroDivisionError" msg.
Definition RecursionError : Exn :=
  mkExn "RecursionError" "maximum recursion depth exceeded".

(** [needle in hay] on Python strings. *)
Fixpoint contains (needle hay : string) : bool :=
  if String.prefix needle hay then true
  else match hay with
       | EmptyString => false
       | String _ rest => contains needle rest
       end.

(** [s.lower()] on ASCII text. *)
Definition lower_ascii (c : ascii) : ascii :=
  let n := nat_of_ascii c in
  if (Nat.leb 65 n && Nat.leb n 90)%bool then ascii_of_nat (n + 32) else c.

Fixpoint lower (s : string) : string :=
  match s with
  | EmptyString => EmptyString
  | String c rest => String (lower_ascii c) (lower rest)
  end.

(** [str(n)] for an integer. *)
Definition str_of_Z (n : Z) : string := NilZero.string_of_int (Z.to_int n).

(** ** Slices: [l[:n]] and [l[n:]] with Python's treatment of negative and
    out-of-range bounds. *)
Definition slice_index {A} (l : list A) (n : Z) : nat :=
  let len := Z.of_nat (List.length l) in
  let i := if n <? 0 then n + len else n in
  Z.to_nat (Z.min len (Z.max 0 i)).

Definition slice_to {A} (l : list A) (n : Z) : list A := firstn (slice_index l n) l.
Definition slice_from {A} (l : list A) (n : Z) : list A := skipn (slice_index l n) l.

(** ** binary64 floats *)
Definition prec : Z := 53.
Definition emax : Z := 1024.
Definition float := spec_float.

Definition fmul : float -> float -> float := SFmul prec emax.
Definition fadd : float -> float -> float := SFadd prec emax.
Definition fsub : float -> float -> float := SFsub prec emax.
Definition fleb : float -> float -> bool := SFleb.
Definition fltb : float -> float -> bool := SFltb.

(** [float(n)]: round to nearest, ties to even; an integer beyond the
    binary64 range raises [OverflowError]. *)
Definition float_of_int (n : Z) : Exn + float :=
  match binary_normalize prec emax n 0 false with
  | S754_infinity _ | S754_nan =>
      inl (OverflowError "int too large to convert to float")
  | f => inr f
  end.

(** [x / y] on floats: a zero divisor raises. *)
Definition fdiv (x y : float) : Exn + float :=
  match y with
  | S754_zero _ => inl (ZeroDivisionError "float division by zero")
  | _ => inr (SFdiv prec emax x y)
  end.

(** [int(f)]: truncation toward zero. *)
Definition int_of_float (f : float) : Exn + Z :=
  match f with
  | S754_zero _ => inr 0
  | S754_infinity _ => inl (OverflowError "cannot convert float infinity to integer")
  | S754_nan => inl (ValueError "cannot convert float NaN to integer")
  | S754_finite s m e =>
      let a := if 0 <=? e then Z.shiftl (Zpos m) e else Z.shiftr (Zpos m) (- e) in
      inr (if s then - a else a)
  end.

(** The float literals of the source, as mantissa and exponent. *)
Definition f0_1 : float := S754_finite false 7205759403792794 (-56).
Definition f0_2 : float := S754_finite false 7205759403792794 (-55).
Definition f0_8 : float := S754_finite false 7205759403792794 (-53).
Definition f1_2 : float := S754_finite false 5404319552844595 (-52).
Definition f1_4 : float := S754_finite false 6305039478318694 (-52).

(** [int(n * c)] for an integer [n] and a float literal [c]: the integer is
    converted first, the product is rounded once, the result truncated. *)
Definition int_mul_float (n : Z) (c : float) : Exn + Z :=
  match float_of_int n with
  | inl e => inl e
  | inr x => int_of_float (fmul x c)
  end.

(** [int(c * n)], the same product with the operands swapped. *)
Definition float_mul_int (c : float) (n : Z) : Exn + Z :=
  match float_of_int n with
  | inl e => inl e
  | inr x => int_of_float (fmul c x)
  end.

(** A JSON / Python number: [int] or [float]. *)
Inductive num := PInt (z : Z) | PFloat (f : float).

(** [a + b] on numbers; a mixed sum converts the integer first. *)
Definition num_add (a b : num) : Exn + num :=
  match a, b with
  | PInt x, PInt y => inr (PInt (x + y))
  | PInt x, PFloat g =>
      match float_of_int x with inl e => inl e | inr f => inr (PFloat (fadd f g)) end
  | PFloat f, PInt y =>
      match float_of_int y with inl e => inl e | inr g => inr (PFloat (fadd f g)) end
  | PFloat f, PFloat g => inr (PFloat (fadd f g))
  end.

End Py.

(* ===================================================================== *)
(** * multi_wallet_manager.py                                             *)
(* ===================================================================== *)

Module Wallets.
Import Py.

(** A [Wallet] holds its key; its address is derived from the key. *)
Record Wallet := { private_key : string }.

(** A JSON number object such as [{'trades': 0, 'volume': 0}]. *)
Definition Stats := list (string * num).

Fixpoint dict_get (k : string) (default : num) (d : Stats) : num :=
  match d with
  | [] => default
  | (k', v) :: rest => if String.eqb k' k then v else dict_get k default rest
  end.

Fixpoint dict_set (k : string) (v : num) (d : Stats) : Stats :=
  match d with
  | [] => [(k, v)]
  | (k', v') :: rest =>
      if String.eqb k' k then (k', v) :: rest else (k', v') :: dict_set k v rest
  end.

Definition dict_has (k : string) (d : Stats) : bool :=
  existsb (fun kv => String.eqb (fst kv) k) d.

(** One entry of the wallets file; [wd_stats = None] is an entry without a
    ['stats'] key. *)
Record WalletData := {
  wd_address : string;
  wd_private_key : string;
  wd_active : bool;
  wd_stats : option Stats }.

Definition set_active (wd : WalletData) (b : bool) : WalletData :=
  {| wd_address := wd_address wd; wd_private_key := wd_private_key wd;
     wd_active := b; wd_stats := wd_stats wd |}.

Definition set_stats (wd : WalletData) (st : Stats) : WalletData :=
  {| wd_address := wd_address wd; wd_private_key := wd_private_key wd;
     wd_active := wd_active wd; wd_stats := Some st |}.

(** The storage file: absent, unreadable as JSON, or a list of entries. *)
Inductive File := FileMissing | FileCorrupt | FileData (entries : list WalletData).

(** [MultiWalletManager]: the in-memory list [self.wallets], the storage
    file, and the number of accounts drawn from the random source so far. *)
Record Manager := { wallets : list Wallet; file : File; drawn : nat }.

Section Manager.

(** [Account.from_key(k).address]. *)
Variable address_of_key : string -> string.
(** The private key of the [n]-th account made by [Account.create()]. *)
Variable entropy : nat -> string.

Definition get_address (w : Wallet) : string := address_of_key (private_key w).

Definition get_all_wallets (m : Manager) : list Wallet := wallets m.

(** [x in l] on a list of strings. *)
Definition str_in (x : string) (l : list string) : bool := existsb (String.eqb x) l.

Definition _save_wallets (wallets_data : list WalletData) (m : Manager) : Manager :=
  {| wallets := wallets m; file := FileData wallets_data; drawn := drawn m |}.

Definition get_wallet_data (m : Manager) : list WalletData :=
  let wallets_data := match file m with FileData d => d | _ => [] end in
  let current_addresses := map get_address (wallets m) in
  map (fun wd => set_active wd (str_in (wd_address wd) current_addresses)) wallets_data.

Definition create_wallet (m : Manager) : Wallet * Manager :=
  let key := entropy (drawn m) in
  let wallet := {| private_key := key |} in
  let m1 := {| wallets := wallets m ++ [wallet]; file := file m; drawn := S (drawn m) |} in
  let wallets_data := get_wallet_data m1 in
  let entry := {| wd_address := address_of_key key; wd_private_key := key;
                  wd_active := true;
                  wd_stats := Some [("trades", PInt 0); ("volume", PInt 0)] |} in
  (wallet, _save_wallets (wallets_data ++ [entry]) m1).

(** The [while len(self.wallets) < count] loop; each round adds one wallet,
    so [count - len(self.wallets)] decreases. *)
Equations ensure_loop (count : Z) (m : Manager) : Manager
  by wf (Z.to_nat (count - Z.of_nat (List.length (wallets m)))) lt :=
  ensure_loop count m with Z_lt_dec (Z.of_nat (List.length (wallets m))) count := {
    | left _ => ensure_loop count (snd (create_wallet m))
    | right _ => m }.
Next Obligation.
  rewrite length_app. simpl. lia.
Qed.

Definition ensure_wallets (count : Z) (m : Manager) : list Wallet * Manager :=
  let m' := ensure_loop count m in
  (slice_to (wallets m') count, m').

(** The stats update of one entry: [trades + 1] and [volume + amount]. *)
Definition bump_stats (trade_amount_usd : num) (wd : WalletData) : Exn + WalletData :=
  let stats := match wd_stats wd with
               | Some st => st
               | None => [("trades", PInt 0); ("volume", PInt 0)]
               end in
  match num_add (dict_get "trades" (PInt 0) stats) (PInt 1) with
  | inl e => inl e
  | inr t =>
      let stats := dict_set "trades" t stats in
      match num_add (dict_get "volume" (PInt 0) stats) trade_amount_usd with
      | inl e => inl e
      | inr v => inr (set_stats wd (dict_set "volume" v stats))
      end
  end.

(** The [for ... break] loop: the first entry whose lower-cased address
    matches is updated, the others are left as they are. *)
Fixpoint update_first (address : string) (trade_amount_usd : num)
    (wallets_data : list WalletData) : Exn + list WalletData :=
  match wallets_data with
  | [] => inr []
  | wd :: rest =>
      if String.eqb (lower (wd_address wd)) (lower address) then
        match bump_stats trade_amount_usd wd with
        | inl e => inl e
        | inr wd' => inr (wd' :: rest)
        end
      else
        match update_first address trade_amount_usd rest with
        | inl e => inl e
        | inr rest' => inr (wd :: rest')
        end
  end.

Definition update_wallet_stats (address : string) (trade_amount_usd : num)
    (m : Manager) : Exn + Manager :=
  match update_first address trade_amount_usd (get_wallet_data m) with
  | inl e => inl e
  | inr wallets_data => inr (_save_wallets wallets_data m)
  end.

Definition deactivate_wallets (count : Z) (m : Manager) : list string * Manager :=
  let '(deactivated, kept) :=
    if count >=? Z.of_nat (List.length (wallets m)) then
      (map get_address (wallets m), [])
    else
      (map get_address (slice_from (wallets m) (- count)),
       slice_to (wallets m) (- count)) in
  let m1 := {| wallets := kept; file := file m; drawn := drawn m |} in
  let wallets_data :=
    map (fun wd => if str_in (wd_address wd) deactivated then set_active wd false else wd)
        (get_wallet_data m1) in
  (deactivated, _save_wallets wallets_data m1).

End Manager.

(** A concrete registry for examples: the address of a key is the key
    prefixed by [addr:], the [n]-th random key is [key] followed by [n]
    marks. *)
Definition demo_address (k : string) : string := String.append "addr:" k.
Fixpoint demo_key (n : nat) : string :=
  match n with O => "key" | S n' => String.append (demo_key n') "'" end.
Definition empty_manager : Manager := {| wallets := []; file := FileMissing; drawn := 0 |}.

(** The pool of two wallets made by [ensure_wallets 2] on an empty
    registry. *)
Definition two_wallets : Manager :=
  snd (ensure_wallets demo_address demo_key 2 empty_manager).

(** A registry of one wallet, as [create_wallet] writes it. *)
Definition one_wallet : Manager :=
  snd (ensure_wallets demo_address demo_key 1 empty_manager).

End Wallets.

(* ===================================================================== *)
(** * The chain gateway: requests, answers and traces                     *)
(* ===================================================================== *)

Module Chain.
Import Py.

(** An address is the 160-bit value of its hex string;
    [Web3.to_checksum_address] and [.lower()] change the letter case of
    the string only, and [int(a, 16)] is the value itself. *)
Definition Address := Z.
Definition TxHash := Z.

(** What [w3.to_hex(tx_hash)] returns, or the literal ["0x0"] that
    [approve_token] returns when no transaction was needed.  A hash is 32
    bytes, so its hex string is never ["0x0"]. *)
Inductive HexStr := Hex0x0 | HexOf (h : TxHash).

Record Receipt := { status : Z; gasUsed : Z; blockNumber : Z }.

(** The contract functions the bots encode. *)
Inductive ContractCall :=
| Approve (token spender : Address) (amount : Z)
| ExactInputSingle (tokenIn tokenOut : Address) (fee : Z) (recipient : Address)
    (amountIn amountOutMinimum sqrtPriceLimitX96 : Z)
| ExactInputSingleDeadline (tokenIn tokenOut : Address) (fee : Z) (recipient : Address)
    (deadline amountIn amountOutMinimum sqrtPriceLimitX96 : Z)
| Withdraw (weth : Address) (wad : Z)
| Mint (token to : Address) (amount : Z).

(** The dictionary handed to [build_transaction]. *)
Record TxParams := {
  tx_from : Address; tx_nonce : Z; tx_gas : Z; tx_gasPrice : Z;
  tx_value : option Z; tx_chainId : option Z }.

(** A built transaction; only its ['data'] field is read back. *)
Record Tx := { tx_data : string; tx_fields : TxParams }.

(** The argument of [w3.eth.call]. *)
Record CallMsg := {
  cm_from : Address; cm_to : Address; cm_data : string;
  cm_gas : Z; cm_gasPrice : Z; cm_value : Z }.

(** Every request that leaves the process, indexed by its answer type;
    [save_state] is the write of the supply-release bot's state file. *)
Inductive Call : Type -> Type :=
| eth_gas_price : Call Z
| eth_get_transaction_count (a : Address) : Call Z
| eth_get_balance (a : Address) : Call Z
| eth_send_raw_transaction (raw : string) : Call TxHash
| eth_wait_for_transaction_receipt (h : TxHash) (timeout : Z) : Call Receipt
| eth_call (msg : CallMsg) (block : Z) : Call string
| balanceOf (token owner : Address) : Call Z
| decimals (token : Address) : Call N
| allowance (token owner spender : Address) : Call Z
| symbol (token : Address) : Call string
| totalSupply (token : Address) : Call Z
| getPool (tokenA tokenB : Address) (fee : Z) : Call Address
| build_transaction (fn : ContractCall) (params : TxParams) : Call Tx
| sign_transaction (tx : Tx) : Call string
| time_time : Call Z
| pool_price : Call float
| save_state (released : Z) : Call unit.

Inductive Level := INFO | WARNING | ERROR.

(** Entries of the recursive methods, with their arguments. *)
Inductive Entry :=
| enter_approve_token (token spender : Address) (amount : Z) (retry_after_eth_swap : bool)
| enter_swap_usdc_for_eth (retry_count : Z)
| enter_swap_tokens_for_tokens (token_in token_out : Address) (amount_in : Z)
    (retry_after_eth_swap : bool).

(** What a run leaves behind, in order: requests with their answers, log
    lines (the message template, placeholders unfilled), sleeps, and method
    entries. *)
Inductive Event :=
| EvRpc (X : Type) (c : Call X) (r : Exn + X)
| EvLog (lvl : Level) (text : string)
| EvSleep (secs : Z)
| EvEnter (f : Entry).

Arguments EvRpc {X} c r.

Definition Trace := list Event.

Section Gateway.

(** The environment: a state and its answer to each request. *)
Variable W : Type.
Variable respond : forall X, Call X -> W -> (Exn + X) * W.

(** A computation returns or raises, moves the environment, and emits
    events. *)
Definition M (A : Type) : Type := W -> (Exn + A) * W * Trace.

Definition ret {A} (a : A) : M A := fun w => (inr a, w, []).
Definition raise {A} (e : Exn) : M A := fun w => (inl e, w, []).

Definition bind {A B} (m : M A) (f : A -> M B) : M B :=
  fun w =>
    match m w with
    | (inl e, w1, t1) => (inl e, w1, t1)
    | (inr a, w1, t1) =>
        match f a w1 with (r, w2, t2) => (r, w2, t1 ++ t2) end
    end.

(** [try: m  except Exception as e: h e]. *)
Definition try_ {A} (m : M A) (h : Exn -> M A) : M A :=
  fun w =>
    match m w with
    | (inl e, w1, t1) =>
        match h e w1 with (r, w2, t2) => (r, w2, t1 ++ t2) end
    | (inr a, w1, t1) => (inr a, w1, t1)
    end.

Definition emit (ev : Event) : M unit := fun w => (inr tt, w, [ev]).
Definition log (lvl : Level) (text : string) : M unit := emit (EvLog lvl text).
Definition sleep (secs : Z) : M unit := emit (EvSleep secs).
Definition enter (f : Entry) : M unit := emit (EvEnter f).

Definition rpc {X} (c : Call X) : M X :=
  fun w => match respond c w with (r, w') => (r, w', [EvRpc c r]) end.

(** A pure step that may raise. *)
Definition lift {A} (r : Exn + A) : M A :=
  match r with inl e => raise e | inr a => ret a end.

Definition result_of {A} (x : (Exn + A) * W * Trace) : Exn + A := fst (fst x).
Definition trace_of {A} (x : (Exn + A) * W * Trace) : Trace := snd x.

End Gateway.

Arguments ret {W A} a.
Arguments raise {W A} e.
Arguments emit {W} ev.
Arguments log {W} lvl text.
Arguments sleep {W} secs.
Arguments enter {W} f.
Arguments lift {W A} r.
Arguments result_of {W A} x.
Arguments trace_of {W A} x.

End Chain.

Declare Scope py_scope.
Delimit Scope py_scope with py.
Notation "x <- m ;; k" := (Chain.bind m (fun x => k))
  (at level 61, m at next level, right associativity) : py_scope.
Notation "' pat <- m ;; k" := (Chain.bind m (fun x => match x with pat => k end))
  (at level 61, pat pattern, m at next level, right associativity) : py_scope.
Notation "m ;; k" := (Chain.bind m (fun _ => k))
  (at level 61, right associativity) : py_scope.

(* ===================================================================== *)
(** * trader.py                                                           *)
(* ===================================================================== *)

Module Trader.
Import Py Chain.
Local Open Scope py_scope.

(** [TOKEN_SYMBOLS], keyed by address. *)
Definition MYSO_ADDRESS : Address := 0xfdd6013bf2757018d8c087244f03e5a521b2d3b7.
Definition USDC_ADDRESS : Address := 0x833589fcd6edb6e08f4c7c32d4f71b54bda02913.
Definition WETH_ADDRESS : Address := 0x4200000000000000000000000000000000000006.
Definition ZERO_ADDRESS : Address := 0.

Definition TOKEN_SYMBOLS (a : Address) : option string :=
  if a =? MYSO_ADDRESS then Some "MYSO"
  else if a =? USDC_ADDRESS then Some "USDC"
  else if a =? WETH_ADDRESS then Some "WETH"
  else None.

(** The text [str(e)] is searched for. *)
Definition INSUFFICIENT_FUNDS : string := "insufficient funds for gas * price + value".

Definition insufficient_funds (e : Exn) : bool := contains INSUFFICIENT_FUNDS (exn_msg e).

(** [Web3.to_wei(100, 'gwei')]. *)
Definition max_gas_price : Z := 100 * 10 ^ 9.

(** [2**256 - 1], the default amount of [approve_token]. *)
Definition MAX_UINT256 : Z := 2 ^ 256 - 1.

Definition hex_digit (n : Z) : string :=
  String.substring (Z.to_nat (n mod 16)) 1 "0123456789abcdef".

Definition hex4 (n : Z) : string :=
  String.append (hex_digit (n / 4096))
    (String.append (hex_digit (n / 256))
       (String.append (hex_digit (n / 16)) (hex_digit n))).

(** [f"{token_address[:6]}...{token_address[-4:]}"]: the first four and the
    last four hex digits of the address (printed here in lower case). *)
Definition short_address (a : Address) : string :=
  String.append "0x"
    (String.append (hex4 (a / 2 ^ 144)) (String.append "..." (hex4 a))).

(** [pool_key], passed along and never read by the swap. *)
Record PoolKey := { fee : Z; tickSpacing : Z; hooks : Address }.

(** The part of [self] the methods read. *)
Record Trader := { wallet_address : Address; router_address : Address }.

Section Methods.

Variable W : Type.
Variable respond : forall X, Call X -> W -> (Exn + X) * W.
Variable self : Trader.

Abbreviation M := (Chain.M W).
Abbreviation rpc := (Chain.rpc respond).

Definition get_token_balance (token_address : Address) : M (Z * N) :=
  balance <- rpc (balanceOf token_address (wallet_address self)) ;;
  dec <- rpc (decimals token_address) ;;
  ret (balance, dec).

Definition get_token_allowance (token_address spender : Address) : M Z :=
  rpc (allowance token_address (wallet_address self) spender).

Definition get_token_symbol (token_address : Address) : M string :=
  match TOKEN_SYMBOLS token_address with
  | Some s => ret s
  | None =>
      try_ (rpc (symbol token_address))
           (fun _ => ret (short_address token_address))
  end.

Definition get_gas_price : M Z :=
  try_ (current_gas_price <- rpc eth_gas_price ;;
        ret (Z.min current_gas_price max_gas_price))
       (fun _ =>
          log WARNING "Error getting gas price: {str(e)}. Using default." ;;
          ret max_gas_price).

Definition check_pool_exists (token_a token_b : Address) (fee : Z) : M bool :=
  try_ (let fee := 3000 in
        let '(token_a, token_b) :=
          if token_a >? token_b then (token_b, token_a) else (token_a, token_b) in
        pool_address <- rpc (getPool token_a token_b fee) ;;
        let pool_exists := negb (pool_address =? ZERO_ADDRESS) in
        (if pool_exists
         then log INFO "Found pool at {pool_address} for {token_a}-{token_b} with fee {fee}"
         else log WARNING "No pool found for {token_a}-{token_b} with fee {fee}") ;;
        ret pool_exists)
       (fun _ =>
          log ERROR "Error checking pool existence: {e}" ;;
          ret false).

(** The unwrap step of [swap_usdc_for_eth], entered once the WETH balance
    is positive (lines 636-685). *)
Definition unwrap_weth (weth_balance gas_price eth_balance_before : Z)
    (tx_hash : TxHash) : M (option HexStr) :=
  nonce <- rpc (eth_get_transaction_count (wallet_address self)) ;;
  unwrap_tx <- rpc (build_transaction (Withdraw WETH_ADDRESS weth_balance)
                 {| tx_from := wallet_address self; tx_nonce := nonce;
                    tx_gas := 100000; tx_gasPrice := gas_price;
                    tx_value := None; tx_chainId := Some 8453 |}) ;;
  signed_unwrap_tx <- rpc (sign_transaction unwrap_tx) ;;
  unwrap_tx_hash <- rpc (eth_send_raw_transaction signed_unwrap_tx) ;;
  log INFO "Unwrapping WETH to ETH: {self.w3.to_hex(unwrap_tx_hash)}" ;;
  try_ (unwrap_receipt <- rpc (eth_wait_for_transaction_receipt unwrap_tx_hash 60) ;;
        if status unwrap_receipt =? 1 then
          eth_balance_after <- rpc (eth_get_balance (wallet_address self)) ;;
          if eth_balance_after >? eth_balance_before then
            log INFO "Successfully unwrapped WETH to {self.w3.from_wei(eth_gained, 'ether')} ETH" ;;
            ret (Some (HexOf unwrap_tx_hash))
          else
            log WARNING "Unwrap succeeded but ETH balance didn't increase" ;;
            ret (Some (HexOf unwrap_tx_hash))
        else
          log ERROR "Failed to unwrap WETH to ETH" ;;
          ret None)
       (fun _ =>
          log ERROR "Error unwrapping WETH: {e}" ;;
          ret (Some (HexOf tx_hash))).

(** The body of the outer [try] of [swap_usdc_for_eth] (lines 447-695). *)
Definition swap_usdc_for_eth_attempt : M (option HexStr) :=
  let usdc_address := USDC_ADDRESS in
  '(usdc_balance, usdc_decimals) <- get_token_balance usdc_address ;;
  if usdc_balance <=? 0 then
    log WARNING "No USDC available to swap for ETH" ;;
    ret None
  else
  a <- lift (float_mul_int f0_1 (10 ^ Z.of_N usdc_decimals)) ;;
  b <- lift (int_mul_float usdc_balance f0_2) ;;
  let swap_amount := Z.min a b in
  if swap_amount <=? 0 then
    log WARNING "Calculated swap amount is too small" ;;
    ret None
  else
  log INFO "Attempting to swap {swap_amount / (10**usdc_decimals):.4f} USDC for native ETH to cover gas" ;;
  eth_balance_before <- rpc (eth_get_balance (wallet_address self)) ;;
  allowance <- get_token_allowance usdc_address (router_address self) ;;
  (if allowance <? swap_amount then
     g <- rpc eth_gas_price ;;
     gas_price <- lift (int_mul_float g f0_8) ;;
     nonce <- rpc (eth_get_transaction_count (wallet_address self)) ;;
     tx <- rpc (build_transaction
                  (Approve usdc_address (router_address self) (swap_amount * 2))
                  {| tx_from := wallet_address self; tx_nonce := nonce;
                     tx_gas := 100000; tx_gasPrice := gas_price;
                     tx_value := None; tx_chainId := None |}) ;;
     signed_tx <- rpc (sign_transaction tx) ;;
     tx_hash <- rpc (eth_send_raw_transaction signed_tx) ;;
     try_ (_ <- rpc (eth_wait_for_transaction_receipt tx_hash 30) ;; ret tt)
          (fun _ => log WARNING "Approval transaction may not have confirmed: {e}")
   else ret tt) ;;
  g <- rpc eth_gas_price ;;
  gas_price <- lift (int_mul_float g f0_8) ;;
  let amount_out_min := 1 in
  nonce <- rpc (eth_get_transaction_count (wallet_address self)) ;;
  let weth_address := WETH_ADDRESS in
  now <- rpc time_time ;;
  let deadline := now + 60 in
  tx <- rpc (build_transaction
               (ExactInputSingleDeadline usdc_address weth_address 3000
                  (wallet_address self) deadline swap_amount amount_out_min 0)
               {| tx_from := wallet_address self; tx_nonce := nonce;
                  tx_gas := 300000; tx_gasPrice := gas_price;
                  tx_value := Some 0; tx_chainId := Some 8453 |}) ;;
  signed_tx <- rpc (sign_transaction tx) ;;
  tx_hash <- rpc (eth_send_raw_transaction signed_tx) ;;
  log INFO "USDC to WETH swap transaction sent: {self.w3.to_hex(tx_hash)}" ;;
  try_ (receipt <- rpc (eth_wait_for_transaction_receipt tx_hash 60) ;;
        if status receipt =? 1 then
          log INFO "USDC to WETH swap succeeded, now unwrapping WETH to ETH" ;;
          weth_balance <- rpc (balanceOf weth_address (wallet_address self)) ;;
          if weth_balance >? 0 then
            unwrap_weth weth_balance gas_price eth_balance_before tx_hash
          else
            log WARNING "No WETH received from swap" ;;
            ret (Some (HexOf tx_hash))
        else
          log ERROR "USDC to WETH swap failed. Status: {receipt.status}" ;;
          ret None)
       (fun _ =>
          log WARNING "Error waiting for USDC to WETH swap: {e}" ;;
          ret None).

(** [depth] bounds the nesting of calls, as the interpreter's recursion
    limit does. *)
Fixpoint swap_usdc_for_eth (depth : nat) (retry_count : Z) : M (option HexStr) :=
  match depth with
  | O => raise RecursionError
  | S depth' =>
      enter (enter_swap_usdc_for_eth retry_count) ;;
      if retry_count >=? 2 then
        log ERROR "Failed to swap USDC for ETH after multiple attempts" ;;
        ret None
      else
        try_ swap_usdc_for_eth_attempt
             (fun _ =>
                log ERROR "Error in USDC to ETH swap: {e}" ;;
                swap_usdc_for_eth depth' (retry_count + 1))
  end.

(** The [except] clause around the approval submission (lines 324-354);
    [retry] is the call [self.approve_token(token_address, spender, amount,
    True)] and [recover] the call [self.swap_usdc_for_eth()]. *)
Definition approve_on_send_error (recover : M (option HexStr)) (retry : M HexStr)
    (token_address : Address) (retry_after_eth_swap : bool) (e : Exn) : M HexStr :=
  if (insufficient_funds e && negb retry_after_eth_swap)%bool then
    log WARNING "Insufficient ETH for approval gas: {error_str}" ;;
    let usdc_address := USDC_ADDRESS in
    if token_address =? usdc_address then
      log ERROR "Cannot swap USDC for ETH because we don't have ETH to approve USDC" ;;
      raise (ValueError "Need ETH to fund initial transaction. Please fund wallet with some ETH first.")
    else
      '(usdc_balance, _) <- get_token_balance usdc_address ;;
      if usdc_balance >? 0 then
        log INFO "Attempting to swap some USDC for ETH to cover approval gas fees" ;;
        eth_swap_tx <- recover ;;
        match eth_swap_tx with
        | Some _ =>
            log INFO "Successfully swapped USDC for ETH. Now retrying token approval" ;;
            sleep 3 ;;
            retry
        | None => raise e
        end
      else
        log ERROR "Not enough USDC to swap for ETH" ;;
        raise e
  else raise e.

Fixpoint approve_token (depth : nat) (token_address spender : Address) (amount : Z)
    (retry_after_eth_swap : bool) : M HexStr :=
  match depth with
  | O => raise RecursionError
  | S depth' =>
      enter (enter_approve_token token_address spender amount retry_after_eth_swap) ;;
      allowance <- get_token_allowance token_address spender ;;
      if allowance >=? amount then
        _ <- get_token_symbol token_address ;;
        log INFO "Token {symbol} already approved for {spender}, allowance: {allowance}" ;;
        ret Hex0x0
      else
        _ <- get_token_symbol token_address ;;
        log INFO "Approving {symbol} for {spender}" ;;
        nonce <- rpc (eth_get_transaction_count (wallet_address self)) ;;
        g <- rpc eth_gas_price ;;
        gas_price <- lift (int_mul_float g f1_2) ;;
        tx <- rpc (build_transaction (Approve token_address spender amount)
                     {| tx_from := wallet_address self; tx_nonce := nonce;
                        tx_gas := 100000; tx_gasPrice := gas_price;
                        tx_value := None; tx_chainId := None |}) ;;
        signed_tx <- rpc (sign_transaction tx) ;;
        try_ (tx_hash <- rpc (eth_send_raw_transaction signed_tx) ;;
              try_ (log INFO "Waiting for approval transaction to be mined..." ;;
                    receipt <- rpc (eth_wait_for_transaction_receipt tx_hash 60) ;;
                    if status receipt =? 1
                    then log INFO "Approval transaction confirmed: {self.w3.to_hex(tx_hash)}"
                    else log ERROR "Approval transaction failed: {self.w3.to_hex(tx_hash)}")
                   (fun _ => log WARNING "Error waiting for approval: {e}") ;;
              ret (HexOf tx_hash))
             (approve_on_send_error
                (swap_usdc_for_eth depth' 0)
                (approve_token depth' token_address spender amount true)
                token_address retry_after_eth_swap)
  end.

(** Lines 716-752: symbols, pool check, allowance and approval. The
    symbols are returned for the slippage rule. *)
Definition swap_prepare (depth : nat) (token_in token_out : Address) (amount_in : Z)
    : M (string * string) :=
  log INFO "Preparing swap: {token_in} -> {token_out} for {amount_in}" ;;
  token_in_symbol <- get_token_symbol token_in ;;
  token_out_symbol <- get_token_symbol token_out ;;
  log INFO "Swapping {token_in_symbol} for {token_out_symbol}" ;;
  let fee := 3000 in
  pool_exists <- check_pool_exists token_in token_out fee ;;
  if negb pool_exists then
    raise (ValueError
             (String.append "No liquidity pool found for "
                (String.append token_in_symbol (String.append "-" token_out_symbol))))
  else
  allowance <- get_token_allowance token_in (router_address self) ;;
  log INFO "Current allowance: {allowance}, Required: {amount_in}" ;;
  (if allowance <? amount_in then
     log INFO "Approving {token_in_symbol} for router usage" ;;
     approve_tx <- approve_token depth token_in (router_address self) MAX_UINT256 false ;;
     match approve_tx with
     | Hex0x0 => ret tt
     | HexOf _ =>
         log INFO "Approval transaction: {approve_tx}" ;;
         sleep 5 ;;
         new_allowance <- get_token_allowance token_in (router_address self) ;;
         log INFO "New allowance after approval: {new_allowance}" ;;
         if new_allowance <? amount_in then
           raise (ValueError
                    (String.append "Approval failed - allowance "
                       (String.append (str_of_Z new_allowance)
                          (String.append " still below required " (str_of_Z amount_in)))))
         else ret tt
     end
   else log INFO "{token_in_symbol} already approved for router") ;;
  ret (token_in_symbol, token_out_symbol).

(** Lines 754-765: the minimum-output rule. *)
Definition min_amount_out (token_in_symbol token_out_symbol : string) (amount_in : Z)
    : M Z :=
  if (String.eqb token_in_symbol "MYSO" && String.eqb token_out_symbol "USDC")%bool then
    let amount_out_min := 1000 in
    log INFO "Using fixed minAmountOut: {amount_out_min} (0.001 USDC min output for MYSO sell)" ;;
    ret amount_out_min
  else
    amount_out_min <- lift (int_mul_float amount_in f0_2) ;;
    log INFO "Using minAmountOut: {amount_out_min} (80% slippage)" ;;
    ret amount_out_min.

(** Lines 768-801: nonce, gas price, the built and the signed transaction. *)
Definition swap_build (token_in token_out : Address) (amount_in amount_out_min : Z)
    : M (Tx * Z * string) :=
  let fee := 3000 in
  nonce <- rpc (eth_get_transaction_count (wallet_address self)) ;;
  log INFO "Using nonce: {nonce}" ;;
  g <- rpc eth_gas_price ;;
  gas_price <- lift (int_mul_float g f1_4) ;;
  log INFO "Using gas price: {gas_price} wei" ;;
  tx <- rpc (build_transaction
               (ExactInputSingle token_in token_out fee (wallet_address self)
                  amount_in amount_out_min 0)
               {| tx_from := wallet_address self; tx_nonce := nonce;
                  tx_gas := 500000; tx_gasPrice := gas_price;
                  tx_value := Some 0; tx_chainId := Some 8453 |}) ;;
  log INFO "Transaction input data: {tx['data'][:66]}..." ;;
  signed_tx <- rpc (sign_transaction tx) ;;
  ret (tx, gas_price, signed_tx).

(** Lines 804-833: the body of the inner [try]. *)
Definition swap_submit (tx : Tx) (gas_price : Z) (signed_tx : string) : M HexStr :=
  tx_hash <- rpc (eth_send_raw_transaction signed_tx) ;;
  log INFO "Transaction sent: {self.w3.to_hex(tx_hash)}" ;;
  log INFO "Waiting for transaction confirmation..." ;;
  receipt <- rpc (eth_wait_for_transaction_receipt tx_hash 180) ;;
  if status receipt =? 1 then
    log INFO "Transaction successful! Gas used: {receipt.gasUsed}" ;;
    ret (HexOf tx_hash)
  else
    log ERROR "Transaction failed on-chain. Status: {receipt.status}" ;;
    log ERROR "Transaction hash: {self.w3.to_hex(tx_hash)}" ;;
    try_ (_ <- rpc (eth_call {| cm_from := wallet_address self;
                               cm_to := router_address self;
                               cm_data := tx_data tx;
                               cm_gas := 500000;
                               cm_gasPrice := gas_price;
                               cm_value := 0 |} (blockNumber receipt)) ;;
          ret tt)
         (fun _ => log ERROR "Revert reason: {str(e)}") ;;
    ret (HexOf tx_hash).

(** Lines 834-858: the [except] clause of the inner [try]; [retry] is the
    call [self.swap_tokens_for_tokens(token_in, token_out, amount_in,
    pool_key, True)] and [recover] the call [self.swap_usdc_for_eth()]. *)
Definition swap_on_submit_error (recover : M (option HexStr)) (retry : M HexStr)
    (retry_after_eth_swap : bool) (e : Exn) : M HexStr :=
  if (insufficient_funds e && negb retry_after_eth_swap)%bool then
    log WARNING "Insufficient ETH for gas: {error_str}" ;;
    let usdc_address := USDC_ADDRESS in
    '(usdc_balance, _) <- get_token_balance usdc_address ;;
    if usdc_balance >? 0 then
      log INFO "Attempting to swap some USDC for ETH to cover gas fees" ;;
      eth_swap_tx <- recover ;;
      match eth_swap_tx with
      | Some _ =>
          log INFO "Successfully swapped USDC for ETH. Now retrying original transaction" ;;
          sleep 3 ;;
          retry
      | None => raise e
      end
    else
      log ERROR "Not enough USDC to swap for ETH" ;;
      raise e
  else raise e.

Fixpoint swap_tokens_for_tokens (depth : nat) (token_in token_out : Address)
    (amount_in : Z) (pool_key : PoolKey) (retry_after_eth_swap : bool) : M HexStr :=
  match depth with
  | O => raise RecursionError
  | S depth' =>
      enter (enter_swap_tokens_for_tokens token_in token_out amount_in
               retry_after_eth_swap) ;;
      '(token_in_symbol, token_out_symbol) <-
         swap_prepare depth' token_in token_out amount_in ;;
      amount_out_min <- min_amount_out token_in_symbol token_out_symbol amount_in ;;
      try_ ('(tx, gas_price, signed_tx) <-
              swap_build token_in token_out amount_in amount_out_min ;;
            try_ (swap_submit tx gas_price signed_tx)
                 (swap_on_submit_error
                    (swap_usdc_for_eth depth' 0)
                    (swap_tokens_for_tokens depth' token_in token_out amount_in
                       pool_key true)
                    retry_after_eth_swap))
           (fun e =>
              log ERROR "Error executing swap: {str(e)}" ;;
              log ERROR "Detailed traceback:" ;;
              raise e)
  end.

End Methods.
End Trader.

(* ===================================================================== *)
(** * supply_release_bot/bot.py                                           *)
(* ===================================================================== *)

Module SupplyRelease.
Import Py Chain.
Local Open Scope py_scope.

(** The configuration keys the run reads, typed as in [DEFAULT_CONFIG]:
    [target_price] a float, [threshold_percent] and [release_cap]
    integers. *)
Record Config := {
  token_address : Address;
  usdc_address : Address;
  target_price : float;
  threshold_percent : Z;
  release_cap : Z }.

(** [self.state], the persisted [{"released": n}]. *)
Record State := { released : Z }.

(** [a / b] on integers: the correctly rounded quotient. *)
Definition rounded_quotient (s : bool) (p q : positive) : Exn + float :=
  match SFdiv prec emax (S754_finite s p 0) (S754_finite false q 0) with
  | S754_infinity _ | S754_nan =>
      inl (OverflowError "integer division result too large for a float")
  | f => inr f
  end.

Definition int_truediv (a b : Z) : Exn + float :=
  match a, b with
  | _, Z0 => inl (ZeroDivisionError "division by zero")
  | Z0, Zpos _ => inr (S754_zero false)
  | Z0, Zneg _ => inr (S754_zero true)
  | Zpos p, Zpos q => rounded_quotient false p q
  | Zpos p, Zneg q => rounded_quotient true p q
  | Zneg p, Zpos q => rounded_quotient true p q
  | Zneg p, Zneg q => rounded_quotient false p q
  end.

Definition fzero : float := S754_zero false.
Definition fone : float := S754_finite false 4503599627370496 (-52).

(** [target_price * (1 + threshold_percent / 100)]. *)
Definition threshold_price (cfg : Config) : Exn + float :=
  match int_truediv (threshold_percent cfg) 100 with
  | inl e => inl e
  | inr q => inr (fmul (target_price cfg) (fadd fone q))
  end.

(** The recursion limit the interpreter starts with. *)
Definition recursion_limit : nat := 1000.

Section Bot.

Variable W : Type.
Variable respond : forall X, Call X -> W -> (Exn + X) * W.
Variable cfg : Config.
Variable trader : Trader.Trader.

Abbreviation M := (Chain.M W).
Abbreviation rpc := (Chain.rpc respond).

(** [get_price] reads [slot0], [token0], [token1] and both [decimals] and
    converts with a floating-point power; its outcome, a float or an
    exception, is taken from the environment as one answer. *)
Definition get_price : M float := rpc pool_price.

Definition calculate_mint_amount (st : State) (price : float) : M Z :=
  let target := target_price cfg in
  deviation <- lift (fdiv (fsub price target) target) ;;
  if fleb deviation fzero then ret 0
  else
    total_supply <- rpc (totalSupply (token_address cfg)) ;;
    x <- lift (float_of_int total_supply) ;;
    amount <- lift (int_of_float (fmul (fmul x deviation) f0_1)) ;;
    let remaining := release_cap cfg - released st in
    ret (Z.min amount remaining).

(** [_save_state]: the state is written to its file; opening the file
    or writing it can raise. *)
Definition _save_state (st : State) : M unit := rpc (save_state (released st)).

(** Lines 109-122 of [mint_and_sell]: the mint is built, signed and
    submitted, its receipt awaited, and the amount sold.  [token_decimals]
    is returned for the log line. *)
Definition mint_then_sell (amount : Z) : M N :=
  token_decimals <- rpc (decimals (token_address cfg)) ;;
  nonce <- rpc (eth_get_transaction_count (Trader.wallet_address trader)) ;;
  gas_price <- rpc eth_gas_price ;;
  tx <- rpc (build_transaction
               (Mint (token_address cfg) (Trader.wallet_address trader) amount)
               {| tx_from := Trader.wallet_address trader; tx_nonce := nonce;
                  tx_gas := 200000; tx_gasPrice := gas_price;
                  tx_value := None; tx_chainId := None |}) ;;
  signed <- rpc (sign_transaction tx) ;;
  tx_hash <- rpc (eth_send_raw_transaction signed) ;;
  _ <- rpc (eth_wait_for_transaction_receipt tx_hash 120) ;;
  let pool_key := {| Trader.fee := 3000; Trader.tickSpacing := 60;
                     Trader.hooks := Trader.ZERO_ADDRESS |} in
  _ <- Trader.swap_tokens_for_tokens respond trader recursion_limit
         (token_address cfg) (usdc_address cfg) amount pool_key false ;;
  ret token_decimals.

(** [mint_and_sell].  Line 123 advances [self.state]; what lines 124 and
    125 raise after it (the write of the file, the division of the log
    line) leaves the counter advanced in memory.  The state left in memory
    is therefore returned together with that exception, if any; an
    exception raised before line 123 propagates, and the state is then
    the one the call started with. *)
Definition mint_and_sell (st : State) (amount : Z) : M (State * option Exn) :=
  if amount <=? 0 then ret (st, None)
  else
    token_decimals <- mint_then_sell amount ;;
    let st' := {| released := released st + amount |} in
    try_ (_save_state st' ;;
          _ <- lift (int_truediv amount (10 ^ Z.of_N token_decimals)) ;;
          log INFO "Minted and sold {amount / (10**token_decimals)} tokens" ;;
          ret (st', None))
         (fun e => ret (st', Some e)).

(** [run] swallows every exception; the state it leaves in memory is
    returned. *)
Definition run (st : State) : M State :=
  try_ (price <- get_price ;;
        log INFO "Current price: {price} USDC" ;;
        limit <- lift (threshold_price cfg) ;;
        if fleb price limit then
          log INFO "Price within threshold - nothing to do" ;;
          ret st
        else if released st >=? release_cap cfg then
          log INFO "Release cap reached" ;;
          ret st
        else
          amount <- calculate_mint_amount st price ;;
          if amount >? 0 then
            '(st', raised) <- mint_and_sell st amount ;;
            match raised with
            | Some _ =>
                log ERROR "Error in supply release bot: {e}" ;;
                ret st'
            | None => ret st'
            end
          else
            log INFO "Calculated mint amount is zero" ;;
            ret st)
       (fun _ =>
          log ERROR "Error in supply release bot: {e}" ;;
          ret st).

End Bot.
End SupplyRelease.

(* ===================================================================== *)
(** * A scripted environment for concrete runs                            *)
(* ===================================================================== *)

Module Sim.
Import Py Chain.

(** Fixed answers to the reads, and scripts for the submissions and the
    receipts: the [n]-th submission raises the [n]-th entry of [sends] if
    it is [Some e], and succeeds otherwise; the [n]-th receipt carries the
    [n]-th entry of [statuses], and status 1 once the script is used up. *)
Record World := {
  gas_price : Z;
  allowances : list Z;
  usdc_balance : Z;
  weth_balance : Z;
  pool : Exn + Address;
  sends : list (option Exn);
  statuses : list Z;
  probe : Exn + string;
  next_hash : Z;
  total_supply : Z;
  price : Exn + float }.

Definition set_sends (w : World) (l : list (option Exn)) (h : Z) : World :=
  {| gas_price := gas_price w; allowances := allowances w;
     usdc_balance := usdc_balance w; weth_balance := weth_balance w;
     pool := pool w; sends := l; statuses := statuses w; probe := probe w;
     next_hash := h; total_supply := total_supply w; price := price w |}.

Definition set_statuses (w : World) (l : list Z) : World :=
  {| gas_price := gas_price w; allowances := allowances w;
     usdc_balance := usdc_balance w; weth_balance := weth_balance w;
     pool := pool w; sends := sends w; statuses := l; probe := probe w;
     next_hash := next_hash w; total_supply := total_supply w; price := price w |}.

Definition set_allowances (w : World) (l : list Z) : World :=
  {| gas_price := gas_price w; allowances := l;
     usdc_balance := usdc_balance w; weth_balance := weth_balance w;
     pool := pool w; sends := sends w; statuses := statuses w; probe := probe w;
     next_hash := next_hash w; total_supply := total_supply w; price := price w |}.

Definition respond (X : Type) (c : Call X) : World -> (Exn + X) * World :=
  match c in Call X return World -> (Exn + X) * World with
  | eth_gas_price => fun w => (inr (gas_price w), w)
  | eth_get_transaction_count _ => fun w => (inr (next_hash w), w)
  | eth_get_balance _ => fun w => (inr 0, w)
  | eth_send_raw_transaction _ => fun w =>
      match sends w with
      | Some e :: rest => (inl e, set_sends w rest (next_hash w))
      | None :: rest => (inr (next_hash w), set_sends w rest (next_hash w + 1))
      | [] => (inr (next_hash w), set_sends w [] (next_hash w + 1))
      end
  | eth_wait_for_transaction_receipt _ _ => fun w =>
      match statuses w with
      | st :: rest =>
          (inr {| status := st; gasUsed := 21000; blockNumber := 100 |},
           set_statuses w rest)
      | [] => (inr {| status := 1; gasUsed := 21000; blockNumber := 100 |}, w)
      end
  | eth_call _ _ => fun w => (probe w, w)
  | balanceOf token _ => fun w =>
      (inr (if token =? Trader.USDC_ADDRESS then usdc_balance w else weth_balance w), w)
  | decimals token => fun w =>
      (inr (if token =? Trader.USDC_ADDRESS then 6%N else 18%N), w)
  | allowance _ _ _ => fun w =>
      match allowances w with
      | a :: rest => (inr a, set_allowances w rest)
      | [] => (inr Trader.MAX_UINT256, w)
      end
  | symbol _ => fun w => (inr "TKN", w)
  | totalSupply _ => fun w => (inr (total_supply w), w)
  | getPool _ _ _ => fun w => (pool w, w)
  | build_transaction _ params => fun w =>
      (inr {| tx_data := "0x04e45aaf"; tx_fields := params |}, w)
  | sign_transaction _ => fun w => (inr "0xf86b", w)
  | time_time => fun w => (inr 1700000000, w)
  | pool_price => fun w => (price w, w)
  | save_state _ => fun w => (inr tt, w)
  end.

(** A funded wallet on a live pool: every read succeeds, allowances are
    unlimited, every transaction is mined with status 1. *)
Definition calm : World :=
  {| gas_price := 1000000000; allowances := []; usdc_balance := 5000000;
     weth_balance := 40000000000000; pool := inr 0xd0b53D9277642d899DF5C87A3966A349A798F224;
     sends := []; statuses := []; probe := inr "0x";
     next_hash := 1; total_supply := 1000000000;
     price := inr (S754_finite false 4503599627370496 (-52)) |}.

Definition no_gas : Exn :=
  mkExn "ValueError"
    "{'code': -32000, 'message': 'insufficient funds for gas * price + value: have 0 want 700000000000000'}".

Definition me : Trader.Trader :=
  {| Trader.wallet_address := 0x0a9A62e77326953E5e17948a1A7374dB6eCBB229;
     Trader.router_address := 0x2626664c2603336E57B271c5C0b26F421741e481 |}.

Definition pk : Trader.PoolKey :=
  {| Trader.fee := 3000; Trader.tickSpacing := 60; Trader.hooks := 0 |}.

Definition swap (w : World) (token_in token_out : Address) (amount_in : Z) (retry : bool) :=
  Trader.swap_tokens_for_tokens respond me 10 token_in token_out amount_in pk retry w.

End Sim.


(* ===================================================================== *)
(** * Monitors: what is observed of a run                                 *)
(* ===================================================================== *)

Module Watch.
Import Py Chain.

Section Runs.

Variable W : Type.

(** A monitor reads a trace event by event, from a start state. *)
Definition observe {S} (step : S -> Event -> S) (s : S) (t : Trace) : S :=
  fold_left step t s.

(** [wp step m s Q]: in every environment, the outcome of [m] and the
    state the monitor reaches from [s] over what [m] emits satisfy [Q]. *)
Definition wp {S A} (step : S -> Event -> S) (m : M W A) (s : S)
    (Q : Exn + A -> S -> Prop) : Prop :=
  forall w, Q (result_of (m w)) (observe step s (trace_of (m w))).

(** [emits P m]: every event [m] emits satisfies [P]. *)
Definition emits (P : Event -> bool) {A} (m : M W A) : Prop :=
  forall w, forallb P (trace_of (m w)) = true.

End Runs.

(** ** Sets of events *)

(** The two log lines of the swap's own recovery path. *)
Definition SWAP_RECOVERY_LOG : string :=
  "Attempting to swap some USDC for ETH to cover gas fees".
Definition SWAP_RETRY_LOG : string :=
  "Successfully swapped USDC for ETH. Now retrying original transaction".

(** The log line that announces the recovery of [approve_token]. *)
Definition APPROVE_RECOVERY_LOG : string :=
  "Attempting to swap some USDC for ETH to cover approval gas fees".

(** Events that [approve_token], [swap_usdc_for_eth] and the read helpers
    can emit: no factory query, no read-only replay, no receipt wait with
    the swap's timeout of 180, no swap or mint transaction, none of the two
    log lines above, no entry of [swap_tokens_for_tokens]. *)
Definition aside (ev : Event) : bool :=
  match ev with
  | EvRpc c _ =>
      match c with
      | balanceOf _ _ | decimals _ | eth_get_balance _ | allowance _ _ _
      | symbol _ | eth_gas_price | eth_get_transaction_count _
      | sign_transaction _ | eth_send_raw_transaction _ | time_time => true
      | eth_wait_for_transaction_receipt _ timeout => negb (timeout =? 180)
      | build_transaction fn _ =>
          match fn with
          | Approve _ _ _ | ExactInputSingleDeadline _ _ _ _ _ _ _ _
          | Withdraw _ _ => true
          | _ => false
          end
      | _ => false
      end
  | EvLog _ text =>
      negb (String.eqb text SWAP_RECOVERY_LOG || String.eqb text SWAP_RETRY_LOG)
  | EvSleep _ => true
  | EvEnter (enter_swap_tokens_for_tokens _ _ _ _) => false
  | EvEnter _ => true
  end.

(** Events that [swap_usdc_for_eth] and the read helpers can emit: those
    of [aside] but the entries of [approve_token] and the log line of its
    recovery. *)
Definition inner (ev : Event) : bool :=
  aside ev &&
  match ev with
  | EvLog _ text => negb (String.eqb text APPROVE_RECOVERY_LOG)
  | EvEnter (enter_approve_token _ _ _ _) => false
  | _ => true
  end.

(** The events of the lines before the swap is built: those of [aside]
    and the factory query. *)
Definition prelude (ev : Event) : bool :=
  aside ev ||
  match ev with
  | EvRpc c _ => match c with getPool _ _ _ => true | _ => false end
  | _ => false
  end.

(** Neither a gas-price read, nor a built transaction, nor a method
    entry. *)
Definition quiet (ev : Event) : bool :=
  match ev with
  | EvRpc c _ =>
      match c with
      | eth_gas_price | build_transaction _ _ => false
      | _ => true
      end
  | EvEnter _ => false
  | _ => true
  end.

(** Everything but the building of a mint transaction. *)
Definition no_mint (ev : Event) : bool :=
  match ev with
  | EvRpc c _ =>
      match c with
      | build_transaction (Mint _ _ _) _ => false
      | _ => true
      end
  | _ => true
  end.

(** ** The pool check *)

(** A factory query answered by an exception. *)
Definition pool_query_failed (ev : Event) : bool :=
  match ev with
  | EvRpc c r =>
      match c, r with
      | getPool _ _ _, inl _ => true
      | _, _ => false
      end
  | _ => false
  end.

(** Has a factory query failed so far? *)
Definition saw_failure (s : bool) (ev : Event) : bool :=
  if pool_query_failed ev then true else s.

(** The failure [swap_tokens_for_tokens] raises for a missing pool. *)
Definition no_liquidity_pool {A} (r : Exn + A) : Prop :=
  exists token_in_symbol token_out_symbol,
    r = inl (ValueError
               (String.append "No liquidity pool found for "
                  (String.append token_in_symbol
                     (String.append "-" token_out_symbol)))).

(** The prelude either passes with no failed query, or fails; when a query
    failed it fails with the missing-pool error. *)
Definition prepare_post (r : Exn + (string * string)) (s : bool) : Prop :=
  (s = true -> no_liquidity_pool r) /\ (forall v, r = inr v -> s = false).

(** The swap fails with the missing-pool error when a query failed. *)
Definition swap_post (r : Exn + HexStr) (s : bool) : Prop :=
  s = true -> no_liquidity_pool r.

(** ** On-chain reverts *)

(** The hash of the swap transaction whose receipt (awaited with the
    swap's timeout, 180) came back with a status other than 1, and the
    number of read-only replays made since. *)
Record Seen := { reverted : option TxHash; probes : nat }.

Definition see (s : Seen) (ev : Event) : Seen :=
  match ev with
  | EvRpc c r =>
      match c in Call X return Exn + X -> Seen with
      | eth_wait_for_transaction_receipt h timeout => fun r =>
          match r with
          | inr receipt =>
              if ((timeout =? 180) && negb (status receipt =? 1))%bool
              then {| reverted := Some h; probes := 0 |}
              else s
          | inl _ => s
          end
      | eth_call _ _ => fun _ =>
          {| reverted := reverted s; probes := S (probes s) |}
      | _ => fun _ => s
      end r
  | _ => s
  end.

Definition nothing_seen : Seen := {| reverted := None; probes := 0 |}.

(** After a revert, the hash is returned and exactly one replay was
    made. *)
Definition revert_post (r : Exn + HexStr) (s : Seen) : Prop :=
  forall h, reverted s = Some h -> r = inr (HexOf h) /\ probes s = 1%nat.

(** A read-only replay that raised. *)
Definition probe_failed (ev : Event) : bool :=
  match ev with
  | EvRpc c r =>
      match c, r with
      | eth_call _ _, inl _ => true
      | _, _ => false
      end
  | _ => false
  end.

(** ** Gas-shortfall recovery *)

(** Counts over a trace: the conversions started from the swap's own
    [except] clause (each is announced by [SWAP_RECOVERY_LOG]), the entries
    of [swap_tokens_for_tokens] with the retry flag set, and its entries
    with the flag clear. *)
Record Tally := { conversions : nat; retries : nat; firsts : nat }.

Definition tally (s : Tally) (ev : Event) : Tally :=
  match ev with
  | EvLog _ text =>
      if String.eqb text SWAP_RECOVERY_LOG
      then {| conversions := S (conversions s); retries := retries s; firsts := firsts s |}
      else s
  | EvEnter (enter_swap_tokens_for_tokens _ _ _ retry) =>
      if retry
      then {| conversions := conversions s; retries := S (retries s); firsts := firsts s |}
      else {| conversions := conversions s; retries := retries s; firsts := S (firsts s) |}
  | _ => s
  end.

Definition zero : Tally := {| conversions := 0; retries := 0; firsts := 0 |}.

(** The same counts for [approve_token]: the conversions started from its
    [except] clause (each is announced by [APPROVE_RECOVERY_LOG]), its
    entries with the retry flag set, and its entries with the flag clear. *)
Definition approvals (s : Tally) (ev : Event) : Tally :=
  match ev with
  | EvLog _ text =>
      if String.eqb text APPROVE_RECOVERY_LOG
      then {| conversions := S (conversions s); retries := retries s; firsts := firsts s |}
      else s
  | EvEnter (enter_approve_token _ _ _ retry) =>
      if retry
      then {| conversions := conversions s; retries := S (retries s); firsts := firsts s |}
      else {| conversions := conversions s; retries := retries s; firsts := S (firsts s) |}
  | _ => s
  end.

(** The retried attempt: no conversion, no entry with a clear flag, at
    most one entry with the flag set. *)
Definition retry_post (s0 : Tally) (r : Exn + HexStr) (s : Tally) : Prop :=
  conversions s = conversions s0 /\ firsts s = firsts s0 /\
  (retries s <= S (retries s0))%nat.


(** A start of [swap_usdc_for_eth] from outside (retry count 0), whoever
    asked for it. *)
Definition conversion_started (ev : Event) : bool :=
  match ev with
  | EvEnter (enter_swap_usdc_for_eth 0) => true
  | _ => false
  end.

(** The number of conversions started so far, whoever asked. *)
Definition starts (n : nat) (ev : Event) : nat :=
  if conversion_started ev then S n else n.

(** Everything but the start of a conversion. *)
Definition no_start (ev : Event) : bool := negb (conversion_started ev).

(** A submission refused for want of gas money. *)
Definition submission_lacked_gas (ev : Event) : bool :=
  match ev with
  | EvRpc c r =>
      match c in Call X return Exn + X -> bool with
      | eth_send_raw_transaction _ => fun r =>
          match r with inl e => Trader.insufficient_funds e | inr _ => false end
      | _ => fun _ => false
      end r
  | _ => false
  end.

(** ** Gas prices *)

(** The answer of the latest gas-price read, whether the run is inside the
    emergency conversion (the last method entered is [swap_usdc_for_eth]),
    and whether every transaction built so far carried the price the
    policy gives. *)
Record Gas := { live : option Z; converting : bool; ok : bool }.

(** The caller's multiplier: 1.4 for the swap, 0.8 for the three
    transactions of the emergency conversion, 1.2 for an approval made by
    [approve_token]. *)
Definition multiplier (converting : bool) (fn : ContractCall) : option float :=
  match fn with
  | Approve _ _ _ => Some (if converting then f0_8 else f1_2)
  | ExactInputSingle _ _ _ _ _ _ _ => Some f1_4
  | ExactInputSingleDeadline _ _ _ _ _ _ _ _ => Some f0_8
  | Withdraw _ _ => Some f0_8
  | Mint _ _ _ => None
  end.

(** [gas_price] is [int(live * multiplier)], the live price as read. *)
Definition priced (live : option Z) (m : option float) (gas_price : Z) : bool :=
  match live, m with
  | Some g, Some c =>
      match int_mul_float g c with
      | inr v => v =? gas_price
      | inl _ => false
      end
  | _, _ => false
  end.

Definition gas (s : Gas) (ev : Event) : Gas :=
  match ev with
  | EvRpc c r =>
      match c in Call X return Exn + X -> Gas with
      | eth_gas_price => fun r =>
          match r with
          | inr g => {| live := Some g; converting := converting s; ok := ok s |}
          | inl _ => s
          end
      | build_transaction fn params => fun _ =>
          {| live := live s; converting := converting s;
             ok := ok s && priced (live s) (multiplier (converting s) fn)
                             (tx_gasPrice params) |}
      | _ => fun _ => s
      end r
  | EvEnter (enter_swap_usdc_for_eth _) =>
      {| live := live s; converting := true; ok := ok s |}
  | EvEnter _ => {| live := live s; converting := false; ok := ok s |}
  | _ => s
  end.

Definition unpriced : Gas := {| live := None; converting := false; ok := true |}.

(** The gas prices of the transactions built, in order. *)
Definition built_gas_prices (s : list Z) (ev : Event) : list Z :=
  match ev with
  | EvRpc c _ =>
      match c with
      | build_transaction _ params => s ++ [tx_gasPrice params]
      | _ => s
      end
  | _ => s
  end.

(** The price the specification words: the live price clamped to the
    ceiling, then the multiplier. *)
Definition clamped_gas_price (live : Z) (c : float) : Exn + Z :=
  int_mul_float (Z.min live Trader.max_gas_price) c.

(** ** Minimum outputs *)

(** The input amount and the minimum output of each swap transaction
    built, in order. *)
Definition floors (s : list (Z * Z)) (ev : Event) : list (Z * Z) :=
  match ev with
  | EvRpc c _ =>
      match c with
      | build_transaction (ExactInputSingle _ _ _ _ amountIn amountOutMinimum _) _ =>
          s ++ [(amountIn, amountOutMinimum)]
      | _ => s
      end
  | _ => s
  end.

(** Everything but the building of a swap transaction. *)
Definition no_swap_built (ev : Event) : bool :=
  match ev with
  | EvRpc c _ =>
      match c with
      | build_transaction (ExactInputSingle _ _ _ _ _ _ _) _ => false
      | _ => true
      end
  | _ => true
  end.

(** The rule the code follows: 1000 for the symbols MYSO -> USDC,
    [int(amount_in * 0.2)] for any other pair. *)
Definition floor_rule (token_in_symbol token_out_symbol : string) (amount_in m : Z)
    : Prop :=
  if (String.eqb token_in_symbol "MYSO" && String.eqb token_out_symbol "USDC")%bool
  then m = 1000
  else int_mul_float amount_in f0_2 = inr m.

Definition all_by_rule (token_in_symbol token_out_symbol : string) (amount_in : Z)
    (s : list (Z * Z)) : Prop :=
  Forall (fun am => fst am = amount_in /\
                    floor_rule token_in_symbol token_out_symbol amount_in (snd am)) s.

(** The same rule as a test. *)
Definition follows_rule (token_in_symbol token_out_symbol : string) (amount_in m : Z)
    : bool :=
  if (String.eqb token_in_symbol "MYSO" && String.eqb token_out_symbol "USDC")%bool
  then m =? 1000
  else match int_mul_float amount_in f0_2 with
       | inr amount_out_min => m =? amount_out_min
       | inl _ => false
       end.

(** The symbol [get_token_symbol] makes of an answer of the token's
    contract: the answer, or the shortened address when the call fails. *)
Definition symbol_read (token : Address) (r : Exn + string) : string :=
  match r with
  | inr s => s
  | inl _ => Trader.short_address token
  end.

(** The symbols a swap of [token_in] for [token_out] works with, as known
    since its latest entry: those of [TOKEN_SYMBOLS], or else the first
    symbol read for the input token and the first read after it for the
    output token; and whether every swap transaction built so far carried
    [amount_in] and the floor the rule gives for these symbols. *)
Record Rule := { in_symbol : option string; out_symbol : option string; lawful : bool }.

Definition rule (token_in token_out : Address) (amount_in : Z) (s : Rule) (ev : Event)
    : Rule :=
  match ev with
  | EvEnter (enter_swap_tokens_for_tokens _ _ _ _) =>
      {| in_symbol := Trader.TOKEN_SYMBOLS token_in;
         out_symbol := Trader.TOKEN_SYMBOLS token_out;
         lawful := lawful s |}
  | EvRpc c r =>
      match c in Call X return Exn + X -> Rule with
      | symbol token => fun r =>
          match in_symbol s, out_symbol s with
          | None, _ =>
              if token =? token_in
              then {| in_symbol := Some (symbol_read token r);
                      out_symbol := out_symbol s; lawful := lawful s |}
              else s
          | Some _, None =>
              if token =? token_out
              then {| in_symbol := in_symbol s;
                      out_symbol := Some (symbol_read token r); lawful := lawful s |}
              else s
          | Some _, Some _ => s
          end
      | build_transaction (ExactInputSingle _ _ _ _ amountIn amountOutMinimum _) _ =>
          fun _ =>
          {| in_symbol := in_symbol s; out_symbol := out_symbol s;
             lawful :=
               lawful s &&
               match in_symbol s, out_symbol s with
               | Some token_in_symbol, Some token_out_symbol =>
                   (amountIn =? amount_in) &&
                   follows_rule token_in_symbol token_out_symbol amount_in
                     amountOutMinimum
               | _, _ => false
               end |}
      | _ => fun _ => s
      end r
  | _ => s
  end.

Definition no_symbols : Rule :=
  {| in_symbol := None; out_symbol := None; lawful := true |}.

(** The floor the specification words for the other directions:
    [0.2 * amountIn], that is, a fifth of the input. *)
Definition a_fifth_of (amount_in m : Z) : Prop := 5 * m = amount_in.

(** ** Mints *)

(** The amounts of the mint transactions built, in order. *)
Definition minted (s : list Z) (ev : Event) : list Z :=
  match ev with
  | EvRpc c _ =>
      match c with
      | build_transaction (Mint _ _ amount) _ => s ++ [amount]
      | _ => s
      end
  | _ => s
  end.

(** The amounts of the mint transactions built and the counters of the
    writes of the state file attempted, each in order. *)
Record Books := { mints : list Z; writes : list Z }.

Definition books (s : Books) (ev : Event) : Books :=
  match ev with
  | EvRpc c _ =>
      match c with
      | build_transaction (Mint _ _ amount) _ =>
          {| mints := mints s ++ [amount]; writes := writes s |}
      | save_state n => {| mints := mints s; writes := writes s ++ [n] |}
      | _ => s
      end
  | _ => s
  end.

Definition unbooked : Books := {| mints := []; writes := [] |}.

(** Everything but the building of a mint transaction and a write of the
    state file. *)
Definition no_booking (ev : Event) : bool :=
  match ev with
  | EvRpc c _ =>
      match c with
      | build_transaction (Mint _ _ _) _ => false
      | save_state _ => false
      | _ => true
      end
  | _ => true
  end.

(** What [calculate_mint_amount] returns is 0 or capped by what is left
    under the cap; it builds no transaction and writes nothing. *)
Definition amount_post (cfg : SupplyRelease.Config) (st : SupplyRelease.State)
    (s0 : Books) (r : Exn + Z) (s : Books) : Prop :=
  s = s0 /\
  forall v, r = inr v ->
    v = 0 \/
    exists amount,
      v = Z.min amount (SupplyRelease.release_cap cfg - SupplyRelease.released st).

(** [mint_and_sell] builds at most one mint transaction, of [amount].
    When it returns, nothing was done for an amount that is not positive;
    otherwise the counter has grown by [amount] and one write of the new
    counter was attempted.  When it raises, no write was attempted. *)
Definition sell_post (st : SupplyRelease.State) (amount : Z)
    (r : Exn + SupplyRelease.State * option Exn) (s : Books) : Prop :=
  match r with
  | inr (st', raised) =>
      (st' = st /\ raised = None /\ s = unbooked /\ amount <= 0) \/
      (SupplyRelease.released st' = SupplyRelease.released st + amount /\
       mints s = [amount] /\
       writes s = [SupplyRelease.released st + amount] /\ 0 < amount)
  | inl _ => (mints s = [] \/ mints s = [amount]) /\ writes s = [] /\ 0 < amount
  end.

(** [run] returns; the counter stays under the cap.  Either no write of
    the state file was attempted and the state is the one the run started
    with, or one mint transaction was built, the counter has grown by its
    amount, and the one write attempted was of the new counter. *)
Definition run_post (cfg : SupplyRelease.Config) (st : SupplyRelease.State)
    (r : Exn + SupplyRelease.State) (s : Books) : Prop :=
  exists st',
    r = inr st' /\
    SupplyRelease.released st' <= SupplyRelease.release_cap cfg /\
    ((st' = st /\ writes s = []) \/
     exists amount,
       mints s = [amount] /\
       writes s = [SupplyRelease.released st + amount] /\
       SupplyRelease.released st' = SupplyRelease.released st + amount) /\
    (mints s = [] \/ exists amount, mints s = [amount]) /\
    (forall amount,
        In amount (mints s) ->
        0 < amount <= SupplyRelease.release_cap cfg - SupplyRelease.released st) /\
    (SupplyRelease.release_cap cfg <= SupplyRelease.released st ->
     s = unbooked /\ st' = st).

End Watch.

(* ===================================================================== *)
(** * Scenarios                                                           *)
(* ===================================================================== *)

Module Scenario.
Import Py Chain.


(** USDC at hand; the swap submission is refused for want of gas, the two
    transactions of the conversion go through, and the retried swap
    submission is refused again. *)
Definition short_twice : Sim.World :=
  Sim.set_sends Sim.calm [Some Sim.no_gas; None; None; Some Sim.no_gas] 1.


(** The allowance reads low, the approval is refused for want of gas, the
    conversion goes through, the retried approval goes through and the
    allowance then reads high; the swap submission is refused for want of
    gas, a second conversion goes through, and the retried swap (whose
    allowance reads high) is mined. *)
Definition short_of_gas_throughout : Sim.World :=
  Sim.set_allowances
    (Sim.set_sends Sim.calm
       [Some Sim.no_gas; None; None; None; Some Sim.no_gas; None; None; None] 1)
    [0; 0; Trader.MAX_UINT256; 0; Trader.MAX_UINT256].

(** As above, but in the retried swap the allowance reads low again and
    the approval is refused for want of gas once more: a third conversion
    goes through, then the retried approval and the retried swap. *)
Definition short_of_gas_at_every_step : Sim.World :=
  Sim.set_allowances
    (Sim.set_sends Sim.calm
       [Some Sim.no_gas; None; None; None; Some Sim.no_gas; None; None;
        Some Sim.no_gas; None; None; None; None] 1)
    [0; 0; Trader.MAX_UINT256; 0; Trader.MAX_UINT256; Trader.MAX_UINT256;
     0; 0; Trader.MAX_UINT256; 0; Trader.MAX_UINT256].

(** A live gas price of 200 gwei, twice the ceiling. *)
Definition pricey : Sim.World :=
  {| Sim.gas_price := 200 * 10 ^ 9; Sim.allowances := [];
     Sim.usdc_balance := 5000000; Sim.weth_balance := 0;
     Sim.pool := Sim.pool Sim.calm; Sim.sends := []; Sim.statuses := [];
     Sim.probe := inr "0x"; Sim.next_hash := 1; Sim.total_supply := 1000000000;
     Sim.price := Sim.price Sim.calm |}.

Definition execution_reverted : Exn :=
  mkExn "ContractLogicError" "execution reverted: Too little received".

(** The swap is mined with status 0, and the replay raises. *)
Definition reverting : Sim.World :=
  {| Sim.gas_price := 1000000000; Sim.allowances := [];
     Sim.usdc_balance := 5000000; Sim.weth_balance := 0;
     Sim.pool := Sim.pool Sim.calm; Sim.sends := []; Sim.statuses := [0];
     Sim.probe := inl execution_reverted; Sim.next_hash := 77;
     Sim.total_supply := 1000000000; Sim.price := Sim.price Sim.calm |}.

Definition too_many_requests : Exn :=
  mkExn "HTTPError" "429 Client Error: Too Many Requests for url: https://mainnet.base.org".

(** The factory query is refused by the endpoint. *)
Definition pool_query_down : Sim.World :=
  {| Sim.gas_price := 1000000000; Sim.allowances := [];
     Sim.usdc_balance := 5000000; Sim.weth_balance := 0;
     Sim.pool := inl too_many_requests; Sim.sends := []; Sim.statuses := [];
     Sim.probe := inr "0x"; Sim.next_hash := 1; Sim.total_supply := 1000000000;
     Sim.price := Sim.price Sim.calm |}.

(** A release configuration with 1000 units left under the cap, and a
    price of 1.0 against a target of 0.1. *)
Definition release_cfg : SupplyRelease.Config :=
  {| SupplyRelease.token_address := Trader.MYSO_ADDRESS;
     SupplyRelease.usdc_address := Trader.USDC_ADDRESS;
     SupplyRelease.target_price := f0_1;
     SupplyRelease.threshold_percent := 5;
     SupplyRelease.release_cap := 1000000 |}.

Definition nearly_released : SupplyRelease.State :=
  {| SupplyRelease.released := 999000 |}.

End Scenario.

(* ===================================================================== *)
(** * wallet.py and the loading of the registry                           *)
(* ===================================================================== *)

Module Storage.
Import Py Wallets.

Section Loading.

Variable address_of_key : string -> string.
Variable entropy : nat -> string.
(** The exception [Account.from_key] raises for a key it refuses. *)
Variable from_key_error : string -> option Exn.

(** [Wallet(private_key=k)], the form of the constructor the bots use (no
    keystore file): a missing or empty key falls through to the final
    [else]; a key without the [0x] prefix gets it. *)
Definition Wallet_init (private_key : option string) : Exn + Wallet :=
  match private_key with
  | Some k =>
      if String.eqb k "" then
        inl (ValueError "Either private_key or (keyfile_path and password) must be provided")
      else
        let k := if String.prefix "0x" k then k else String.append "0x" k in
        match from_key_error k with
        | Some e => inl e
        | None => inr {| private_key := k |}
        end
  | None =>
      inl (ValueError "Either private_key or (keyfile_path and password) must be provided")
  end.

(** The loop of [_load_wallets]: one wallet for each entry that is active,
    in the order of the file. *)
Fixpoint load_active (wallets_data : list WalletData) : Exn + list Wallet :=
  match wallets_data with
  | [] => inr []
  | wallet_data :: rest =>
      if wd_active wallet_data then
        match Wallet_init (Some (wd_private_key wallet_data)) with
        | inl e => inl e
        | inr wallet =>
            match load_active rest with
            | inl e => inl e
            | inr ws => inr (wallet :: ws)
            end
        end
      else load_active rest
  end.

(** [_load_wallets]: a missing file is created empty; an unreadable one
    gives an empty pool and is left as it is. *)
Definition _load_wallets (m : Manager) : Exn + Manager :=
  match file m with
  | FileMissing => inr (_save_wallets [] m)
  | FileCorrupt => inr {| wallets := []; file := FileCorrupt; drawn := drawn m |}
  | FileData wallets_data =>
      match load_active wallets_data with
      | inl e => inl e
      | inr ws => inr {| wallets := ws; file := file m; drawn := drawn m |}
      end
  end.

(** [MultiWalletManager(path)] on the storage file [f]. *)
Definition MultiWalletManager_init (f : File) (drawn : nat) : Exn + Manager :=
  _load_wallets {| wallets := []; file := f; drawn := drawn |}.

(** The managers a program gets by constructing one where no file exists
    and then calling the methods, restarts included. *)
Inductive reachable : Manager -> Prop :=
| reachable_new drawn m :
    MultiWalletManager_init FileMissing drawn = inr m -> reachable m
| reachable_create m :
    reachable m -> reachable (snd (create_wallet address_of_key entropy m))
| reachable_ensure count m :
    reachable m -> reachable (snd (ensure_wallets address_of_key entropy count m))
| reachable_deactivate count m :
    reachable m -> reachable (snd (deactivate_wallets address_of_key count m))
| reachable_update address amount m m' :
    reachable m ->
    update_wallet_stats address_of_key address amount m = inr m' -> reachable m'
| reachable_restart m m' :
    reachable m -> MultiWalletManager_init (file m) (drawn m) = inr m' -> reachable m'.

(** The file lists the keys drawn so far under distinct addresses, and the
    pool is its active entries, in order. *)
Definition consistent (m : Manager) : Prop :=
  exists d,
    file m = FileData d /\
    Forall (fun wd => exists i, (i < drawn m)%nat /\
                                wd_private_key wd = entropy i /\
                                wd_address wd = address_of_key (entropy i)) d /\
    NoDup (map wd_address d) /\
    wallets m = map (fun wd => {| private_key := wd_private_key wd |})
                    (filter wd_active d).

End Loading.

(** An entry as [get_wallet_data] lists it: its ['active'] flag is set to
    whether its address is that of a wallet of the pool, the rest is as
    read. *)
Definition as_listed (address_of_key : string -> string) (m : Manager)
    (wd : WalletData) : WalletData :=
  set_active wd
    (str_in (wd_address wd) (map (get_address address_of_key) (wallets m))).

(** What identifies an entry of the file: its address and its key. *)
Definition identity (wd : WalletData) : string * string :=
  (wd_address wd, wd_private_key wd).

Definition entries (f : File) : list WalletData :=
  match f with FileData d => d | _ => [] end.

(** The stats [update_wallet_stats] starts from: those of the entry, or
    zeros when the entry has no ['stats'] key. *)
Definition stats_before (wd : WalletData) : Stats :=
  match wd_stats wd with
  | Some st => st
  | None => [("trades", PInt 0); ("volume", PInt 0)]
  end.

(** No entry of the list has the address, compared in lower case. *)
Definition absent (address : string) (wallets_data : list WalletData) : Prop :=
  forallb (fun wd => negb (String.eqb (lower (wd_address wd)) (lower address)))
          wallets_data = true.

(** [d'] lists the entries of [d] under the same addresses and keys, none
    of them turned from inactive to active, and then possibly more. *)
Definition never_reactivates (d d' : list WalletData) : Prop :=
  exists kept added,
    d' = kept ++ added /\
    Forall2 (fun wd wd' => identity wd' = identity wd /\
                           (wd_active wd' = true -> wd_active wd = true)) d kept.

(** Keys as [create_new_wallet] writes them, for examples. *)
Definition hex_key (n : nat) : string := String.append "0x" (demo_key n).

End Storage.

(* ===================================================================== *)
(** * More monitors of the trader                                         *)
(* ===================================================================== *)

Module Safety.
Import Py Chain.

(** ** Sets of events *)

(** Everything but a method entry. *)
Definition no_entry (ev : Event) : bool :=
  match ev with
  | EvEnter _ => false
  | _ => true
  end.

(** Neither the building, nor the signing, nor the submission of a
    transaction. *)
Definition no_transaction (ev : Event) : bool :=
  match ev with
  | EvRpc c _ =>
      match c with
      | build_transaction _ _ | sign_transaction _ | eth_send_raw_transaction _ => false
      | _ => true
      end
  | _ => true
  end.

(** Neither a read of the transaction count nor the building of a
    transaction. *)
Definition reads_only (ev : Event) : bool :=
  match ev with
  | EvRpc c _ =>
      match c with
      | eth_get_transaction_count _ | build_transaction _ _ => false
      | _ => true
      end
  | _ => true
  end.

(** ** The emergency conversion *)

(** The number of calls of [swap_usdc_for_eth], retries included. *)
Definition conversion_calls (n : nat) (ev : Event) : nat :=
  match ev with
  | EvEnter (enter_swap_usdc_for_eth _) => S n
  | _ => n
  end.

(** What a conversion has read since it was entered (the USDC balance and
    decimals), the amount of the approval it built, and whether every
    transaction it built so far was as the amounts read prescribe. *)
Record Conversion := {
  usdc_read : option Z;
  decimals_read : option N;
  approved : option Z;
  sound : bool }.

(** [min(int(0.1 * 10**decimals), int(balance * 0.2))]. *)
Definition conversion_amount (balance : Z) (dec : N) : option Z :=
  match float_mul_int f0_1 (10 ^ Z.of_N dec), int_mul_float balance f0_2 with
  | inr a, inr b => Some (Z.min a b)
  | _, _ => None
  end.

Definition amount_as_read (s : Conversion) (amount_in : Z) : bool :=
  match usdc_read s, decimals_read s with
  | Some balance, Some dec =>
      match conversion_amount balance dec with
      | Some v => (v =? amount_in) && (0 <? amount_in)
      | None => false
      end
  | _, _ => false
  end.

Definition conversion (s : Conversion) (ev : Event) : Conversion :=
  match ev with
  | EvRpc c r =>
      match c in Call X return Exn + X -> Conversion with
      | balanceOf token _ => fun r =>
          match r with
          | inr b =>
              if token =? Trader.USDC_ADDRESS
              then {| usdc_read := Some b; decimals_read := decimals_read s;
                      approved := approved s; sound := sound s |}
              else s
          | inl _ => s
          end
      | decimals token => fun r =>
          match r with
          | inr d =>
              if token =? Trader.USDC_ADDRESS
              then {| usdc_read := usdc_read s; decimals_read := Some d;
                      approved := approved s; sound := sound s |}
              else s
          | inl _ => s
          end
      | build_transaction fn _ => fun _ =>
          match fn with
          | Approve token _ amount =>
              {| usdc_read := usdc_read s; decimals_read := decimals_read s;
                 approved := Some amount;
                 sound := sound s && (token =? Trader.USDC_ADDRESS) |}
          | ExactInputSingleDeadline tokenIn tokenOut fee _ _ amountIn
              amountOutMinimum sqrtPriceLimitX96 =>
              {| usdc_read := usdc_read s; decimals_read := decimals_read s;
                 approved := approved s;
                 sound :=
                   sound s && (tokenIn =? Trader.USDC_ADDRESS)
                   && (tokenOut =? Trader.WETH_ADDRESS) && (fee =? 3000)
                   && (amountOutMinimum =? 1) && (sqrtPriceLimitX96 =? 0)
                   && amount_as_read s amountIn
                   && match approved s with
                      | Some a => a =? amountIn * 2
                      | None => true
                      end |}
          | _ => s
          end
      | _ => fun _ => s
      end r
  | EvEnter (enter_swap_usdc_for_eth _) =>
      {| usdc_read := None; decimals_read := None; approved := None; sound := sound s |}
  | _ => s
  end.

Definition nothing_read : Conversion :=
  {| usdc_read := None; decimals_read := None; approved := None; sound := true |}.

(** ** The pool check before a swap *)

(** Whether the factory has answered with a pool since the swap was last
    entered, and whether every swap transaction built so far was built
    after such an answer. *)
Record Pool := { found : bool; guarded : bool }.

Definition pool_guard (s : Pool) (ev : Event) : Pool :=
  match ev with
  | EvRpc c r =>
      match c in Call X return Exn + X -> Pool with
      | getPool _ _ _ => fun r =>
          {| found := match r with
                      | inr pool_address => negb (pool_address =? Trader.ZERO_ADDRESS)
                      | inl _ => false
                      end;
             guarded := guarded s |}
      | build_transaction fn _ => fun _ =>
          match fn with
          | ExactInputSingle _ _ _ _ _ _ _ =>
              {| found := found s; guarded := guarded s && found s |}
          | _ => s
          end
      | _ => fun _ => s
      end r
  | EvEnter (enter_swap_tokens_for_tokens _ _ _ _) =>
      {| found := false; guarded := guarded s |}
  | _ => s
  end.

Definition unchecked : Pool := {| found := false; guarded := true |}.

(** ** Submissions *)

(** The hash the node answered to the latest submission it accepted. *)
Definition last_accepted (s : option TxHash) (ev : Event) : option TxHash :=
  match ev with
  | EvRpc c r =>
      match c in Call X return Exn + X -> option TxHash with
      | eth_send_raw_transaction _ => fun r =>
          match r with
          | inr h => Some h
          | inl _ => s
          end
      | _ => fun _ => s
      end r
  | _ => s
  end.

(** ** Who is paid and who may spend *)

(** The latest transaction count read, whether every transaction built so
    far named the wallet as sender and as recipient, the router as the
    only spender approved and WETH as the only contract withdrawn from,
    and whether each was built with the latest count as its nonce. *)
Record Built := { count_read : option Z; own : bool; fresh : bool }.

Definition to_self (self : Trader.Trader) (fn : ContractCall) (params : TxParams)
    : bool :=
  (tx_from params =? Trader.wallet_address self) &&
  match fn with
  | Approve _ spender _ => spender =? Trader.router_address self
  | ExactInputSingle _ _ _ recipient _ _ _ => recipient =? Trader.wallet_address self
  | ExactInputSingleDeadline _ _ _ recipient _ _ _ _ =>
      recipient =? Trader.wallet_address self
  | Withdraw weth _ => weth =? Trader.WETH_ADDRESS
  | Mint _ _ _ => false
  end.

Definition built (self : Trader.Trader) (s : Built) (ev : Event) : Built :=
  match ev with
  | EvRpc c r =>
      match c in Call X return Exn + X -> Built with
      | eth_get_transaction_count _ => fun r =>
          match r with
          | inr n => {| count_read := Some n; own := own s; fresh := fresh s |}
          | inl _ => s
          end
      | build_transaction fn params => fun _ =>
          {| count_read := count_read s;
             own := own s && to_self self fn params;
             fresh := fresh s && match count_read s with
                                 | Some n => n =? tx_nonce params
                                 | None => false
                                 end |}
      | _ => fun _ => s
      end r
  | _ => s
  end.

Definition nothing_built : Built := {| count_read := None; own := true; fresh := true |}.

(** Post-conditions of the blocks of the swap under [pool_guard]: the
    prelude builds no swap and returns only after a pool was found; the
    swap keeps the guard. *)
Definition checked_post (s0 : Pool) (r : Exn + (string * string)) (s : Pool) : Prop :=
  guarded s = guarded s0 /\ (forall v, r = inr v -> found s = true).

Definition guarded_post (s0 : Pool) (r : Exn + HexStr) (s : Pool) : Prop :=
  guarded s0 = true -> guarded s = true.

(** The hash returned is the latest one accepted. *)
Definition accepted_post (r : Exn + HexStr) (s : option TxHash) : Prop :=
  forall x, r = inr x -> exists h, x = HexOf h /\ s = Some h.

(** A monitor's flag, once true at the start, is true at the end. *)
Definition sound_post (s0 : Conversion) (s : Conversion) : Prop :=
  sound s0 = true -> sound s = true.

Definition built_post (s0 : Built) (s : Built) : Prop :=
  own s0 = true /\ fresh s0 = true -> own s = true /\ fresh s = true.

End Safety.

(* ===================================================================== *)
(** * Monitors of the supply-release run                                  *)
(* ===================================================================== *)

Module Ledger.
Import Py Chain.

(** The log line of the [except] clause of [run]. *)
Definition RELEASE_ERROR_LOG : string := "Error in supply release bot: {e}".

(** Everything but that line. *)
Definition no_release_error (ev : Event) : bool :=
  match ev with
  | EvLog _ text => negb (String.eqb text RELEASE_ERROR_LOG)
  | _ => true
  end.

(** Has the [except] clause of [run] been reached? *)
Definition release_failed (s : bool) (ev : Event) : bool :=
  match ev with
  | EvLog _ text => if String.eqb text RELEASE_ERROR_LOG then true else s
  | _ => s
  end.

(** Whether the [except] clause of [run] has been reached, the counter of
    the latest write of the state file attempted, and whether that write
    was refused. *)
Record Filed := { failed : bool; filed : option Z; refused : bool }.

Definition filing (s : Filed) (ev : Event) : Filed :=
  match ev with
  | EvLog _ text =>
      if String.eqb text RELEASE_ERROR_LOG
      then {| failed := true; filed := filed s; refused := refused s |}
      else s
  | EvRpc c r =>
      match c in Call X return Exn + X -> Filed with
      | save_state n => fun r =>
          {| failed := failed s; filed := Some n;
             refused := match r with inl _ => true | inr _ => false end |}
      | _ => fun _ => s
      end r
  | _ => s
  end.

Definition nothing_filed : Filed :=
  {| failed := false; filed := None; refused := false |}.

(** Neither the log line of [run]'s [except] clause nor a write of the
    state file. *)
Definition unfiled (ev : Event) : bool :=
  match ev with
  | EvLog _ text => negb (String.eqb text RELEASE_ERROR_LOG)
  | EvRpc c _ => match c with save_state _ => false | _ => true end
  | _ => true
  end.

(** The amount of the mint built so far, and whether every mint was of the
    configured token to the bot's own wallet and every swap built sold that
    token for USDC in exactly the amount minted before. *)
Record Sale := { minted_amount : option Z; matched : bool }.

Definition sale (cfg : SupplyRelease.Config) (trader : Trader.Trader) (s : Sale)
    (ev : Event) : Sale :=
  match ev with
  | EvRpc c _ =>
      match c with
      | build_transaction fn _ =>
          match fn with
          | Mint token to amount =>
              {| minted_amount := Some amount;
                 matched := matched s
                            && (token =? SupplyRelease.token_address cfg)
                            && (to =? Trader.wallet_address trader)
                            && match minted_amount s with
                               | None => true
                               | Some _ => false
                               end |}
          | ExactInputSingle tokenIn tokenOut _ _ amountIn _ _ =>
              {| minted_amount := minted_amount s;
                 matched := matched s
                            && (tokenIn =? SupplyRelease.token_address cfg)
                            && (tokenOut =? SupplyRelease.usdc_address cfg)
                            && match minted_amount s with
                               | Some amount => amount =? amountIn
                               | None => false
                               end |}
          | _ => s
          end
      | _ => s
      end
  | _ => s
  end.

Definition nothing_minted : Sale := {| minted_amount := None; matched := true |}.

(** The swap leaves the amount minted as it is and keeps the match. *)
Definition sale_post (s0 s : Sale) : Prop :=
  minted_amount s = minted_amount s0 /\ (matched s0 = true -> matched s = true).

(** The supply bot's world for examples: the price is 1.0 against a target
    of 0.1, and the factory knows no pool for the pair. *)
Definition no_pool : Sim.World :=
  {| Sim.gas_price := 1000000000; Sim.allowances := []; Sim.usdc_balance := 5000000;
     Sim.weth_balance := 0; Sim.pool := inr 0;
     Sim.sends := []; Sim.statuses := []; Sim.probe := inr "0x";
     Sim.next_hash := 1; Sim.total_supply := 1000000000;
     Sim.price := Sim.price Sim.calm |}.

(** The node of [Sim] on a machine whose disk is full. *)
Definition full_disk (X : Type) (c : Call X) : Sim.World -> (Exn + X) * Sim.World :=
  match c in Call X return Sim.World -> (Exn + X) * Sim.World with
  | save_state _ => fun w =>
      (inl (mkExn "OSError" "[Errno 28] No space left on device"), w)
  | c' => Sim.respond c'
  end.

(** A node that refuses the first two submissions. *)
Definition refusing : Sim.World :=
  Sim.set_sends Sim.calm
    [Some Scenario.too_many_requests; Some Scenario.too_many_requests] 1.

End Ledger.

(* ===================================================================== *)
(** * trader.py: the constructor                                          *)
(* ===================================================================== *)

Module Router.
Import Py Chain Trader.
Local Open Scope py_scope.

(** The address [_detect_router_version] compares with, SwapRouter02 on
    Base. *)
Definition SWAP_ROUTER_02 : Address := 0x2626664c2603336e57b271c5c0b26f421741e481.

(** [bytes.hex()]: two lower-case hex digits for each byte. *)
Definition hex_byte (b : Byte.byte) : string :=
  let n := Z.of_N (Byte.to_N b) in
  String.append (hex_digit (n / 16)) (hex_digit n).

Fixpoint hex (code : list Byte.byte) : string :=
  match code with
  | [] => ""
  | b :: rest => String.append (hex_byte b) (hex rest)
  end.

(** Does the letter [u] occur in the string? *)
Fixpoint has_u (s : string) : bool :=
  match s with
  | EmptyString => false
  | String c rest => (Ascii.eqb c "u" || has_u rest)%bool
  end.

Section Init.

Variable W : Type.

(** The node's answer to [self.w3.eth.get_code(address)]. *)
Variable get_code : Address -> W -> (Exn + list Byte.byte) * W.

(** A request that no monitor of this development looks at: it is
    answered, and leaves no event. *)
Definition unwatched {X} (answer : W -> (Exn + X) * W) : M W X :=
  fun w => match answer w with (r, w') => (r, w', []) end.

(** [HexBytes.hex()] writes a leading ["0x"] in the releases of hexbytes
    before 1.0 and none since. *)
Variable hex_prefix : bool.

Definition HexBytes_hex (code : list Byte.byte) : string :=
  if hex_prefix then String.append "0x" (hex code) else hex code.

Definition _detect_router_version (self : Trader) : M W Z :=
  try_ (if router_address self =? SWAP_ROUTER_02 then
          log INFO "Detected Uniswap V3 SwapRouter02 at {self.router_address}" ;;
          ret 3
        else
          code <- unwatched (get_code (router_address self)) ;;
          let code := HexBytes_hex code in
          if (contains "execute" code && contains "0x42712a67" code)%bool
          then ret 4
          else ret 3)
       (fun _ =>
          log WARNING "Error detecting router version: {e}. Defaulting to V3" ;;
          ret 3).

(** [Trader(w3, wallet, router_address, router_abi)]; [wallet_address] is
    the address of [wallet].  The contracts are built without a
    request. *)
Definition Trader_init (wallet_address router_address : Address) : M W Trader :=
  let self := {| Trader.wallet_address := wallet_address;
                 Trader.router_address := router_address |} in
  router_version <- _detect_router_version self ;;
  (if router_version =? 3
   then log INFO "Detected Uniswap V3 router at {self.router_address}"
   else log INFO "Using Uniswap V4/Universal router at {self.router_address}") ;;
  log INFO "Initialized trader with router address: {self.router_address}" ;;
  ret self.

End Init.

Arguments unwatched {W X} answer.

(** An address with no contract code. *)
Definition no_code {W} (a : Address) (w : W) : (Exn + list Byte.byte) * W := (inr [], w).

End Router.

(* ===================================================================== *)
(** * volume_generator.py                                                 *)
(* ===================================================================== *)

Module Volume.
Import Py Chain Trader.
Local Open Scope py_scope.

(** ** [retry_with_backoff] *)

(** [except (requests.exceptions.HTTPError, TimeExhausted)]: the two classes
    have no subclasses in their libraries, so the class name decides. *)
Definition retryable (e : Exn) : bool :=
  (String.eqb (exn_type e) "HTTPError" || String.eqb (exn_type e) "TimeExhausted")%bool.

(** [Exception(f"Failed after {max_retries} retries")]. *)
Definition exhausted (max_retries : Z) : Exn :=
  mkExn "Exception"
    (String.append "Failed after "
       (String.append (str_of_Z max_retries) " retries")).

Definition AttributeError (msg : string) : Exn := mkExn "AttributeError" msg.

(** The waits of [k] rounds that start at [b] and grow by the factor
    [f]. *)
Fixpoint backoffs (b f : Z) (k : nat) : list Z :=
  match k with
  | O => []
  | S k' => b :: backoffs (b * f) f k'
  end.

(** The seconds slept, in order. *)
Definition sleeps (s : list Z) (ev : Event) : list Z :=
  match ev with
  | EvSleep secs => s ++ [secs]
  | _ => s
  end.

(** Everything but a sleep. *)
Definition no_sleep (ev : Event) : bool :=
  match ev with
  | EvSleep _ => false
  | _ => true
  end.

Section Retry.

Variable W : Type.

(** What the handler reads of the exception object: [None] when it has no
    attribute [response], [Some None] when the attribute is [None], and
    the status code of the response otherwise. *)
Variable response_status : Exn -> option (option Z).

(** The body of the [except] clause up to the next round;
    [switch_rpc_endpoint] is the bound method of [args[0]] when it has
    one. *)
Definition on_retryable (current_backoff : Z) (switch_rpc_endpoint : option (M W unit))
    (e : Exn) : M W unit :=
  match response_status e with
  | Some None =>
      raise (AttributeError "'NoneType' object has no attribute 'status_code'")
  | Some (Some status_code) =>
      if status_code =? 429
      then log WARNING "Rate limited. Retrying in {current_backoff} seconds..."
      else log WARNING "Request failed: {str(e)}. Retrying in {current_backoff} seconds..."
  | None =>
      log WARNING "Request failed: {str(e)}. Retrying in {current_backoff} seconds..."
  end ;;
  sleep current_backoff ;;
  match switch_rpc_endpoint with
  | Some switch => switch
  | None => ret tt
  end.

(** The [while retries < max_retries] loop with [rounds] rounds left. *)
Fixpoint retry_loop {A} (rounds : nat) (max_retries current_backoff backoff_factor : Z)
    (switch_rpc_endpoint : option (M W unit)) (func : M W A) : M W A :=
  match rounds with
  | O => raise (exhausted max_retries)
  | S rounds' =>
      try_ func
           (fun e =>
              if retryable e then
                on_retryable current_backoff switch_rpc_endpoint e ;;
                retry_loop rounds' max_retries (current_backoff * backoff_factor)
                  backoff_factor switch_rpc_endpoint func
              else raise e)
  end.

(** The wrapper [retry_with_backoff(max_retries, initial_backoff,
    backoff_factor)(func)]. *)
Definition retry_with_backoff {A} (max_retries initial_backoff backoff_factor : Z)
    (switch_rpc_endpoint : option (M W unit)) (func : M W A) : M W A :=
  retry_loop (Z.to_nat max_retries) max_retries initial_backoff backoff_factor
    switch_rpc_endpoint func.

End Retry.

(** ** Trading *)

(** The entries of [self.config] the trades read. *)
Record Config := {
  token_address : Address;
  usdc_address : Address;
  eth_address : Address;
  router_address : Address }.

(** The literal [0.04]. *)
Definition f0_04 : float := S754_finite false 5764607523034235 (-57).

(** [random.choice(["buy", "sell"])]. *)
Inductive Operation := buy | sell.

(** The value of the hex string a swap returns. *)
Definition hash_value (tx_hash : HexStr) : TxHash :=
  match tx_hash with
  | HexOf h => h
  | Hex0x0 => 0
  end.

(** [w3.from_wei(number, 'ether')] accepts 0 to [2**256 - 1]. *)
Definition from_wei (number : Z) : Exn + unit :=
  if ((number <? 0) || (MAX_UINT256 <? number))%bool
  then inl (ValueError "value must be between 1 and 2**256 - 1")
  else inr tt.

Section Trading.

Variable W : Type.
Variable respond : forall X, Call X -> W -> (Exn + X) * W.

(** The node's answers to [get_code] and to [get_transaction], whose
    result is only printed. *)
Variable get_code : Address -> W -> (Exn + list Byte.byte) * W.
Variable get_transaction : TxHash -> W -> (Exn + unit) * W.
Variable hex_prefix : bool.

Variable response_status : Exn -> option (option Z).

(** [self.switch_rpc_endpoint()]. *)
Variable switch_rpc_endpoint : M W unit.

(** [Account.from_key(key).address], and the 160-bit value of an address
    string. *)
Variable address_of_key : string -> string.
Variable address_value : string -> Address.

Variable cfg : Config.

(** The frames left on the interpreter's stack for the swap. *)
Variable depth : nat.

Abbreviation rpc := (Chain.rpc respond).

Definition pool_key : PoolKey :=
  {| fee := 3000; tickSpacing := 60; hooks := ZERO_ADDRESS |}.

(** [Trader(w3=self.w3, wallet=wallet,
    router_address=self.config["router_address"], ...)]. *)
Definition Trader_for (wallet : Wallets.Wallet) : M W Trader.Trader :=
  Router.Trader_init get_code hex_prefix
    (address_value (Wallets.get_address address_of_key wallet))
    (router_address cfg).

(** *** [_check_wallet_balances] *)

(** The method under its decorator. *)
Definition _check_wallet_balances_wrapped (wallet : Wallets.Wallet) : M W unit :=
  try_ (let wallet_address := address_value (Wallets.get_address address_of_key wallet) in
        token_decimals <- rpc (decimals (token_address cfg)) ;;
        sleep 1 ;;
        usdc_decimals <- rpc (decimals (usdc_address cfg)) ;;
        sleep 1 ;;
        eth_decimals <- rpc (decimals (eth_address cfg)) ;;
        sleep 1 ;;
        token_balance <- rpc (balanceOf (token_address cfg) wallet_address) ;;
        sleep 1 ;;
        usdc_balance <- rpc (balanceOf (usdc_address cfg) wallet_address) ;;
        sleep 1 ;;
        eth_token_balance <- rpc (balanceOf (eth_address cfg) wallet_address) ;;
        sleep 1 ;;
        eth_balance <- rpc (eth_get_balance wallet_address) ;;
        _ <- lift (SupplyRelease.int_truediv token_balance (10 ^ Z.of_N token_decimals)) ;;
        _ <- lift (SupplyRelease.int_truediv usdc_balance (10 ^ Z.of_N usdc_decimals)) ;;
        _ <- lift (SupplyRelease.int_truediv eth_token_balance
                     (10 ^ Z.of_N eth_decimals)) ;;
        _ <- lift (from_wei eth_balance) ;;
        log INFO "Wallet balances: {token_balance_formatted} TOKEN, {usdc_balance_formatted} USDC, {eth_token_balance_formatted} WETH, {eth_balance_formatted} ETH")
       (fun e =>
          log WARNING "Error checking wallet balances: {str(e)}" ;;
          raise e).

(** [@retry_with_backoff(max_retries=3, initial_backoff=1,
    backoff_factor=2)]. *)
Definition _check_wallet_balances (wallet : Wallets.Wallet) : M W unit :=
  retry_with_backoff response_status 3 1 2 (Some switch_rpc_endpoint)
    (_check_wallet_balances_wrapped wallet).

(** *** [run_test_trade] *)

(** The method under its decorator; [choice] is what
    [random.choice(wallets)] picks, and the wallet file is passed through. *)
Definition run_test_trade_wrapped (choice : Wallets.Wallet) (m : Wallets.Manager)
    : M W Wallets.Manager :=
  try_ (log INFO "Executing test trade" ;;
        let wallets := Wallets.get_all_wallets m in
        match wallets with
        | [] => raise (ValueError "No active wallets available for trading")
        | _ :: _ =>
            let wallet := choice in
            log INFO "Selected wallet {wallet.get_address()} for trading" ;;
            _check_wallet_balances wallet ;;
            trader <- Trader_for wallet ;;
            sleep 1 ;;
            token_decimals <- rpc (decimals (token_address cfg)) ;;
            sleep 1 ;;
            usdc_decimals <- rpc (decimals (usdc_address cfg)) ;;
            log INFO "MYSO token decimals: {token_decimals}, USDC decimals: {usdc_decimals}" ;;
            test_amount <- lift (float_mul_int f0_04 (10 ^ Z.of_N usdc_decimals)) ;;
            sleep 1 ;;
            '(usdc_balance, _) <- get_token_balance respond trader (usdc_address cfg) ;;
            if usdc_balance <? test_amount then
              _ <- lift (SupplyRelease.int_truediv usdc_balance
                           (10 ^ Z.of_N usdc_decimals)) ;;
              log WARNING "Wallet has insufficient USDC. Have: {usdc_balance / (10 ** usdc_decimals)}, Need: 0.04" ;;
              log INFO "Please fund the wallet with USDC first." ;;
              ret m
            else
              try_ (sleep 2 ;;
                    _ <- lift (SupplyRelease.int_truediv test_amount
                                 (10 ^ Z.of_N usdc_decimals)) ;;
                    log INFO "Executing USDC -> MYSO token swap for {test_amount / (10**usdc_decimals)} USDC" ;;
                    tx_hash <- swap_tokens_for_tokens respond trader depth
                                 (usdc_address cfg) (token_address cfg) test_amount
                                 pool_key false ;;
                    log INFO "Test trade executed with tx hash: {tx_hash}" ;;
                    sleep 2 ;;
                    receipt <- rpc (eth_wait_for_transaction_receipt
                                      (hash_value tx_hash) 180) ;;
                    if status receipt =? 1 then
                      log INFO "Trade successful!" ;;
                      sleep 2 ;;
                      _check_wallet_balances wallet ;;
                      lift (Wallets.update_wallet_stats address_of_key
                              (Wallets.get_address address_of_key wallet)
                              (PFloat f0_04) m)
                    else
                      log ERROR "Trade transaction failed" ;;
                      Router.unwatched (get_transaction (hash_value tx_hash)) ;;
                      log INFO "Transaction details: {self.w3.eth.get_transaction(tx_hash)}" ;;
                      ret m)
                   (fun e =>
                      log ERROR "Error during swap execution: {str(e)}" ;;
                      raise e)
        end)
       (fun e =>
          log ERROR "Error executing test trade: {str(e)}" ;;
          raise e).

(** [@retry_with_backoff(max_retries=5, initial_backoff=1,
    backoff_factor=2)]. *)
Definition run_test_trade (choice : Wallets.Wallet) (m : Wallets.Manager)
    : M W Wallets.Manager :=
  retry_with_backoff response_status 5 1 2 (Some switch_rpc_endpoint)
    (run_test_trade_wrapped choice m).

(** *** [start_continuous_trading]: the trade of one round *)

(** Lines 472-576, after the wait: [wallet], [trade_size], [operation]
    and [myso_trade_size] are what the four draws give, [usdc_decimals]
    was read (or defaulted to 6) before the loop. *)
Definition trade (usdc_decimals : N) (wallet : Wallets.Wallet) (trade_size : float)
    (operation : Operation) (myso_trade_size : float) (m : Wallets.Manager)
    : M W Wallets.Manager :=
  log INFO "Selected wallet {wallet.get_address()} for trading" ;;
  trader <- Trader_for wallet ;;
  trade_amount <- lift (float_mul_int trade_size (10 ^ Z.of_N usdc_decimals)) ;;
  '(usdc_balance, _) <- get_token_balance respond trader (usdc_address cfg) ;;
  if usdc_balance <? trade_amount then
    _ <- lift (SupplyRelease.int_truediv usdc_balance (10 ^ Z.of_N usdc_decimals)) ;;
    log WARNING "Wallet has insufficient USDC. Have: {usdc_balance / (10 ** usdc_decimals)}, Need: {trade_size}" ;;
    log INFO "Automatically switching to MYSO sell operation" ;;
    '(token_balance, token_decimals) <-
       get_token_balance respond trader (token_address cfg) ;;
    token_amount <- lift (float_mul_int myso_trade_size (10 ^ Z.of_N token_decimals)) ;;
    if token_balance <? token_amount then
      _ <- lift (SupplyRelease.int_truediv token_balance (10 ^ Z.of_N token_decimals)) ;;
      log WARNING "Wallet also has insufficient MYSO tokens. Have: {token_balance / (10 ** token_decimals)}, Need: {myso_trade_size}" ;;
      log INFO "Skipping trade for this wallet" ;;
      ret m
    else
      log INFO "Executing MYSO -> USDC token swap for {myso_trade_size:.6f} MYSO" ;;
      tx_hash <- swap_tokens_for_tokens respond trader depth
                   (token_address cfg) (usdc_address cfg) token_amount pool_key false ;;
      log INFO "Trade executed with tx hash: {tx_hash}" ;;
      lift (Wallets.update_wallet_stats address_of_key
              (Wallets.get_address address_of_key wallet) (PFloat trade_size) m)
  else
    tx_hash <-
      match operation with
      | buy =>
          log INFO "Executing USDC -> MYSO token swap for {trade_size:.2f} USDC" ;;
          swap_tokens_for_tokens respond trader depth
            (usdc_address cfg) (token_address cfg) trade_amount pool_key false
      | sell =>
          '(token_balance, token_decimals) <-
             get_token_balance respond trader (token_address cfg) ;;
          token_amount <- lift (float_mul_int myso_trade_size
                                  (10 ^ Z.of_N token_decimals)) ;;
          if token_balance <? token_amount then
            _ <- lift (SupplyRelease.int_truediv token_balance
                         (10 ^ Z.of_N token_decimals)) ;;
            log WARNING "Wallet has insufficient MYSO tokens. Have: {token_balance / (10 ** token_decimals)}, Need: {myso_trade_size}" ;;
            log INFO "Falling back to buying MYSO instead" ;;
            swap_tokens_for_tokens respond trader depth
              (usdc_address cfg) (token_address cfg) trade_amount pool_key false
          else
            log INFO "Executing MYSO -> USDC token swap for {myso_trade_size:.6f} MYSO" ;;
            swap_tokens_for_tokens respond trader depth
              (token_address cfg) (usdc_address cfg) token_amount pool_key false
      end ;;
    log INFO "Trade executed with tx hash: {tx_hash}" ;;
    lift (Wallets.update_wallet_stats address_of_key
            (Wallets.get_address address_of_key wallet) (PFloat trade_size) m).

(** The same lines under the [try] of the loop body, lines 445-580: an
    exception is logged, a minute is slept, and the loop goes on. *)
Definition trade_or_wait (usdc_decimals : N) (wallet : Wallets.Wallet)
    (trade_size : float) (operation : Operation) (myso_trade_size : float)
    (m : Wallets.Manager) : M W Wallets.Manager :=
  try_ (trade usdc_decimals wallet trade_size operation myso_trade_size m)
       (fun e =>
          log ERROR "Error in continuous trading: {str(e)}" ;;
          sleep 60 ;;
          ret m).

End Trading.

(** ** What is observed of the trades *)

(** The line a round logs once its swap has returned. *)
Definition TRADE_EXECUTED_LOG : string := "Trade executed with tx hash: {tx_hash}".

(** Has this line been logged? *)
Definition executed (s : bool) (ev : Event) : bool :=
  match ev with
  | EvLog _ text => if String.eqb text TRADE_EXECUTED_LOG then true else s
  | _ => s
  end.

(** Everything but this line. *)
Definition unannounced (ev : Event) : bool :=
  match ev with
  | EvLog _ text => negb (String.eqb text TRADE_EXECUTED_LOG)
  | _ => true
  end.

(** A log line other than this one. *)
Definition chatter (ev : Event) : bool :=
  match ev with
  | EvLog _ text => negb (String.eqb text TRADE_EXECUTED_LOG)
  | _ => false
  end.

(** A round returns; it leaves the wallet file as it was unless a trade
    was announced, and then the file is the one [update_wallet_stats]
    gives for [volume], or the old one if that raised. *)
Definition booked_post (address_of_key : string -> string) (address : string)
    (volume : float) (m : Wallets.Manager) (r : Exn + Wallets.Manager) (s : bool)
    : Prop :=
  exists m',
    r = inr m' /\
    (s = false -> m' = m) /\
    (s = true ->
     match Wallets.update_wallet_stats address_of_key address (PFloat volume) m with
     | inr booked => m' = booked
     | inl _ => m' = m
     end).

(** The balances read for [owner] so far, newest first, and, once a swap
    has been entered, whether one of them covered its input. *)
Record Desk := { holdings : list (Address * Z); covered : option bool }.

Definition covers (token_in : Address) (amount_in : Z) (holding : Address * Z) : bool :=
  ((fst holding =? token_in) && (amount_in <=? snd holding))%bool.

Definition desk (owner : Address) (s : Desk) (ev : Event) : Desk :=
  match covered s with
  | Some _ => s
  | None =>
      match ev with
      | EvRpc c r =>
          match c in Call X return Exn + X -> Desk with
          | balanceOf token holder => fun r =>
              match r with
              | inr balance =>
                  if holder =? owner
                  then {| holdings := (token, balance) :: holdings s; covered := None |}
                  else s
              | inl _ => s
              end
          | _ => fun _ => s
          end r
      | EvEnter (enter_swap_tokens_for_tokens token_in _ amount_in _) =>
          {| holdings := holdings s;
             covered := Some (existsb (covers token_in amount_in) (holdings s)) |}
      | _ => s
      end
  end.

Definition opening : Desk := {| holdings := []; covered := None |}.

(** Everything but an entry of [swap_tokens_for_tokens] with the retry
    flag clear. *)
Definition no_first_entry (ev : Event) : bool :=
  match ev with
  | EvEnter (enter_swap_tokens_for_tokens _ _ _ false) => false
  | _ => true
  end.

(** The number of such entries so far. *)
Definition started (n : nat) (ev : Event) : nat :=
  if no_first_entry ev then n else S n.

(** ** Nodes for the examples *)

(** A node that refuses every request with HTTP 429. *)
Definition rate_limited (X : Type) (c : Call X) (w : unit) : (Exn + X) * unit :=
  (inl Scenario.too_many_requests, w).

(** [web3.exceptions.TimeExhausted]. *)
Definition TimeExhausted (msg : string) : Exn := mkExn "TimeExhausted" msg.

(** The node of [Sim], but no receipt is seen in time. *)
Definition slow (X : Type) (c : Call X) : Sim.World -> (Exn + X) * Sim.World :=
  match c in Call X return Sim.World -> (Exn + X) * Sim.World with
  | eth_wait_for_transaction_receipt h timeout => fun w =>
      (inl (TimeExhausted "Transaction is not in the chain after 180 seconds"), w)
  | c' => Sim.respond c'
  end.

(** A switch of endpoint that connects at once. *)
Definition reconnect {W} : M W unit :=
  log INFO "Switching to RPC endpoint: {self.config['rpc_urls'][self.current_rpc_index]}" ;;
  log INFO "Connected to {current_rpc}".

(** A node with no details on any transaction. *)
Definition no_details {W} (h : TxHash) (w : W) : (Exn + unit) * W := (inr tt, w).

(** The configuration of the examples, and a wallet of the file
    [Wallets.one_wallet] whose address is that of [Sim.me]. *)
Definition base_cfg : Config :=
  {| token_address := MYSO_ADDRESS; usdc_address := USDC_ADDRESS;
     eth_address := WETH_ADDRESS; router_address := Trader.router_address Sim.me |}.

Definition first_wallet : Wallets.Wallet :=
  {| Wallets.private_key := Wallets.demo_key 0 |}.

Definition address_of_me (a : string) : Address := Trader.wallet_address Sim.me.

(** The calm node of [Sim] for a wallet that holds one whole MYSO. *)
Definition stocked : Sim.World :=
  {| Sim.gas_price := Sim.gas_price Sim.calm; Sim.allowances := [];
     Sim.usdc_balance := Sim.usdc_balance Sim.calm;
     Sim.weth_balance := 10 ^ 18;
     Sim.pool := Sim.pool Sim.calm; Sim.sends := []; Sim.statuses := [];
     Sim.probe := Sim.probe Sim.calm; Sim.next_hash := 1;
     Sim.total_supply := Sim.total_supply Sim.calm; Sim.price := Sim.price Sim.calm |}.

(** The literals [0.5] and [10.0]. *)
Definition f0_5 : float := S754_finite false 4503599627370496 (-53).
Definition f10 : float := S754_finite false 5629499534213120 (-49).

(** A request that is always refused with HTTP 429. *)
Definition always_refused {W A} : M W A := raise Scenario.too_many_requests.

Definition status_of (e : Exn) : option (option Z) :=
  if String.eqb (exn_type e) "HTTPError" then Some (Some 429) else None.

End Volume.

(* ===================================================================== *)
(** * Float literals                                                     *)
(* ===================================================================== *)

(** The literals are the doubles nearest to the decimal fractions. *)
Lemma float_literals_nearest :
  SFdiv Py.prec Py.emax (S754_finite false 1 0) (S754_finite false 10 0) = Py.f0_1 /\
  SFdiv Py.prec Py.emax (S754_finite false 2 0) (S754_finite false 10 0) = Py.f0_2 /\
  SFdiv Py.prec Py.emax (S754_finite false 8 0) (S754_finite false 10 0) = Py.f0_8 /\
  SFdiv Py.prec Py.emax (S754_finite false 12 0) (S754_finite false 10 0) = Py.f1_2 /\
  SFdiv Py.prec Py.emax (S754_finite false 14 0) (S754_finite false 10 0) = Py.f1_4.
Proof. repeat split; vm_compute; reflexivity. Qed.

(* ===================================================================== *)
(** * Properties of the wallet pool registry                              *)
(* ===================================================================== *)

Module WalletsSpec.
Import Py Wallets.

Section Registry.

Variable address_of_key : string -> string.
Variable entropy : nat -> string.

Abbreviation ensure_loop := (Wallets.ensure_loop address_of_key entropy).
Abbreviation ensure_wallets := (Wallets.ensure_wallets address_of_key entropy).
Abbreviation deactivate_wallets := (Wallets.deactivate_wallets address_of_key).
Abbreviation update_wallet_stats := (Wallets.update_wallet_stats address_of_key).
Abbreviation get_address := (Wallets.get_address address_of_key).

(** ** Slices *)

Lemma slice_to_nat {A} (l : list A) (n : nat) : slice_to l (Z.of_nat n) = firstn n l.
Proof.
  unfold slice_to, slice_index.
  destruct (Z.ltb_spec (Z.of_nat n) 0) as [H|_]; [lia|].
  destruct (Nat.le_gt_cases n (List.length l)) as [Hle|Hgt].
  - f_equal. lia.
  - rewrite !firstn_all2; trivial; lia.
Qed.

Lemma slice_from_neg {A} (l : list A) (k : nat) :
  (1 <= k <= List.length l)%nat ->
  slice_from l (- Z.of_nat k) = skipn (List.length l - k) l.
Proof.
  intros Hk. unfold slice_from, slice_index.
  destruct (Z.ltb_spec (- Z.of_nat k) 0) as [_|H]; [|lia].
  f_equal. lia.
Qed.

Lemma slice_to_neg {A} (l : list A) (k : nat) :
  (1 <= k <= List.length l)%nat ->
  slice_to l (- Z.of_nat k) = firstn (List.length l - k) l.
Proof.
  intros Hk. unfold slice_to, slice_index.
  destruct (Z.ltb_spec (- Z.of_nat k) 0) as [_|H]; [|lia].
  f_equal. lia.
Qed.

(** ** [ensure_wallets] *)

(** [create_wallet] appends one wallet, with the next key drawn. *)
Lemma create_wallet_wallets m :
  wallets (snd (Wallets.create_wallet address_of_key entropy m))
  = wallets m ++ [{| private_key := entropy (drawn m) |}].
Proof. reflexivity. Qed.

(** The loop only appends, and stops as soon as [count] wallets exist. *)
Lemma ensure_loop_appends (count : Z) (m : Manager) :
  exists created,
    wallets (ensure_loop count m) = wallets m ++ created /\
    List.length created = Z.to_nat (count - Z.of_nat (List.length (wallets m))).
Proof.
  funelim (Wallets.ensure_loop address_of_key entropy count m).
  - destruct H as (created & Hws & Hlen).
    rewrite create_wallet_wallets in Hws, Hlen.
    exists ({| private_key := entropy (drawn m) |} :: created). split.
    + rewrite Hws, <- app_assoc. reflexivity.
    + simpl. rewrite Hlen, length_app. simpl. lia.
  - exists []. rewrite app_nil_r. split; [reflexivity | simpl; lia].
Qed.

Lemma ensure_loop_enough (count : Z) (m : Manager) :
  count <= Z.of_nat (List.length (wallets m)) -> ensure_loop count m = m.
Proof.
  intros Hle. rewrite ensure_loop_equation_1.
  destruct (Z_lt_dec (Z.of_nat (List.length (wallets m))) count); [lia | reflexivity].
Qed.

Lemma ensure_loop_length (n : nat) (m : Manager) :
  List.length (wallets (ensure_loop (Z.of_nat n) m)) = Nat.max n (List.length (wallets m)).
Proof.
  destruct (ensure_loop_appends (Z.of_nat n) m) as (created & Heq & Hlen).
  rewrite Heq, length_app, Hlen. lia.
Qed.

(** C8. [ensure_wallets n] never removes a wallet: the pool after the call
    is the pool before it followed by exactly the wallets that were missing
    to reach [n] (none when [n] exist already); the call returns the first
    [n] wallets of the pool in insertion order; a second call with a count
    not above the first changes nothing, a second call with a count not
    below it only appends; and [ensure_wallets 5] followed by
    [ensure_wallets 2] leaves the pool of the first call, which has 5
    wallets whenever the starting pool had at most 5, as the empty pool
    does. *)
Theorem ensure_wallets_monotone (n : nat) (m : Manager) :
  let m' := snd (ensure_wallets (Z.of_nat n) m) in
  (exists created,
      wallets m' = wallets m ++ created /\
      List.length created = (n - List.length (wallets m))%nat) /\
  List.length (wallets m') = Nat.max n (List.length (wallets m)) /\
  fst (ensure_wallets (Z.of_nat n) m) = firstn n (wallets m') /\
  List.length (fst (ensure_wallets (Z.of_nat n) m)) = n /\
  (forall k : nat, (k <= n)%nat ->
      snd (ensure_wallets (Z.of_nat k) m') = m') /\
  (forall k : nat, (n <= k)%nat ->
      exists more, wallets (snd (ensure_wallets (Z.of_nat k) m')) = wallets m' ++ more) /\
  (let m5 := snd (ensure_wallets 5 m) in
   let m2 := snd (ensure_wallets 2 m5) in
   m2 = m5 /\ List.length (wallets m2) = Nat.max 5 (List.length (wallets m))) /\
  List.length (wallets (snd (ensure_wallets 2 (snd (ensure_wallets 5 empty_manager))))) = 5%nat.
Proof.
  cbn zeta. unfold Wallets.ensure_wallets. cbn [fst snd].
  pose proof (ensure_loop_length n m) as Hlen.
  destruct (ensure_loop_appends (Z.of_nat n) m) as (created & Heq & Hc).
  pose proof (ensure_loop_length 5 m) as H5.
  change (Z.of_nat 5) with 5 in H5.
  repeat split.
  - exists created. split; [exact Heq | lia].
  - exact Hlen.
  - apply slice_to_nat.
  - rewrite slice_to_nat, length_firstn, Hlen. lia.
  - intros k Hk. apply ensure_loop_enough. rewrite Hlen. lia.
  - intros k _. destruct (ensure_loop_appends (Z.of_nat k) (ensure_loop (Z.of_nat n) m))
      as (more & Hm & _). exists more. exact Hm.
  - apply ensure_loop_enough. rewrite H5. lia.
  - rewrite ensure_loop_enough; rewrite H5; lia.
Qed.

(** ** [deactivate_wallets] *)

(** For a count between 1 and the pool size the last [k] wallets are
    deactivated and the first [m - k] stay, in insertion order; a count at
    or above the pool size deactivates every wallet. *)
Lemma deactivate_wallets_lifo (k : nat) (m : Manager) :
  (1 <= k)%nat ->
  let size := List.length (wallets m) in
  fst (deactivate_wallets (Z.of_nat k) m)
    = map get_address (skipn (size - k) (wallets m)) /\
  wallets (snd (deactivate_wallets (Z.of_nat k) m)) = firstn (size - k) (wallets m) /\
  List.length (fst (deactivate_wallets (Z.of_nat k) m)) = Nat.min k size.
Proof.
  intros Hk size. unfold Wallets.deactivate_wallets.
  destruct (Z.geb_spec (Z.of_nat k) (Z.of_nat (List.length (wallets m)))) as [Hge|Hlt];
    cbn [fst snd wallets Wallets._save_wallets].
  - assert (Hs : (size - k = 0)%nat) by (unfold size; lia).
    rewrite Hs. cbn [skipn firstn]. rewrite length_map. repeat split. unfold size. lia.
  - rewrite slice_from_neg, slice_to_neg by lia.
    repeat split. rewrite length_map, length_skipn. unfold size. lia.
Qed.

(** C7, at the count 0: [self.wallets[-0:]] is the whole list and
    [self.wallets[:-0]] is empty, so a request to deactivate no wallet
    deactivates every wallet of the pool and reports all their addresses. *)
Theorem deactivate_wallets_zero (m : Manager) :
  fst (deactivate_wallets 0 m) = map get_address (wallets m) /\
  wallets (snd (deactivate_wallets 0 m)) = [].
Proof.
  unfold Wallets.deactivate_wallets.
  destruct (Z.geb_spec 0 (Z.of_nat (List.length (wallets m)))) as [Hge|Hlt];
    cbn [fst snd wallets Wallets._save_wallets].
  - split; reflexivity.
  - unfold slice_from, slice_to, slice_index. cbn [Z.opp Z.ltb Z.compare Z.max].
    rewrite Z.min_r by lia. cbn [Z.to_nat skipn firstn]. split; reflexivity.
Qed.

End Registry.

Example deactivate_one_of_two :
  fst (Wallets.deactivate_wallets demo_address 1 two_wallets) = ["addr:key'"] /\
  wallets (snd (Wallets.deactivate_wallets demo_address 1 two_wallets))
    = [{| private_key := "key" |}].
Proof. vm_compute. split; reflexivity. Qed.

Example deactivate_none_of_two :
  fst (Wallets.deactivate_wallets demo_address 0 two_wallets) = ["addr:key"; "addr:key'"] /\
  wallets (snd (Wallets.deactivate_wallets demo_address 0 two_wallets)) = [].
Proof. vm_compute. split; reflexivity. Qed.


(** ** [update_wallet_stats] *)

(** When no entry has the address, the entries are written back as they
    were read. *)
Lemma update_first_absent (address : string) (amount : num) (entries : list WalletData) :
  forallb (fun wd => negb (String.eqb (lower (wd_address wd)) (lower address))) entries
    = true ->
  update_first address amount entries = inr entries.
Proof.
  induction entries as [|wd rest IH]; cbn; [reflexivity|].
  intros H. apply andb_prop in H as [Hwd Hrest].
  apply negb_true_iff in Hwd. rewrite Hwd, (IH Hrest). reflexivity.
Qed.

(** C4, on the registry of one wallet: [update_wallet_stats] takes an
    address and one amount, no direction and no profit; after an update of
    amount 10^18 and a second of 2 * 10^18 the entry's stats are the single
    counter [trades] (1, then 2) and [volume] (10^18, then 3 * 10^18), with
    no [buys], [sells] or [profit] key; and an update for an address that
    is not in the registry writes the entries back unchanged. *)
Theorem update_wallet_stats_counts_trades :
  let v := 1000000000000000000 in
  exists m1 m2,
    Wallets.update_wallet_stats demo_address "addr:key" (PInt v) one_wallet = inr m1 /\
    Wallets.update_wallet_stats demo_address "addr:key" (PInt (2 * v)) m1 = inr m2 /\
    map wd_stats (Wallets.get_wallet_data demo_address m1)
      = [Some [("trades", PInt 1); ("volume", PInt v)]] /\
    map wd_stats (Wallets.get_wallet_data demo_address m2)
      = [Some [("trades", PInt 2); ("volume", PInt (3 * v))]] /\
    (forall st, In (Some st) (map wd_stats (Wallets.get_wallet_data demo_address m2)) ->
       dict_has "buys" st = false /\ dict_has "sells" st = false /\
       dict_has "profit" st = false) /\
    Wallets.update_wallet_stats demo_address "addr:nobody" (PInt v) m2 = inr m2.
Proof.
  cbv zeta. eexists. eexists.
  split; [vm_compute; reflexivity|].
  split; [vm_compute; reflexivity|].
  split; [vm_compute; reflexivity|].
  split; [vm_compute; reflexivity|].
  split; [|vm_compute; reflexivity].
  intros st Hin. vm_compute in Hin. destruct Hin as [[= <-]|[]].
  vm_compute. repeat split.
Qed.

End WalletsSpec.

(* ===================================================================== *)
(** * Reasoning about runs                                                *)
(* ===================================================================== *)

Module Logic.
Import Py Chain Watch.

Section Rules.

Variable W : Type.
Variable respond : forall X, Call X -> W -> (Exn + X) * W.

Abbreviation M := (Chain.M W).
Abbreviation wp := (Watch.wp (W:=W)).
Abbreviation emits := (Watch.emits (W:=W)).

Section Monitor.

Context {S : Type} (step : S -> Event -> S).

Lemma wp_ret {A} (a : A) s (Q : Exn + A -> S -> Prop) :
  Q (inr a) s -> wp step (ret a) s Q.
Proof. intros H w. exact H. Qed.

Lemma wp_raise {A} (e : Exn) s (Q : Exn + A -> S -> Prop) :
  Q (inl e) s -> wp step (raise e) s Q.
Proof. intros H w. exact H. Qed.

Lemma wp_lift {A} (r : Exn + A) s (Q : Exn + A -> S -> Prop) :
  Q r s -> wp step (lift r) s Q.
Proof. destruct r; [apply wp_raise | apply wp_ret]. Qed.

Lemma wp_emit (ev : Event) s (Q : Exn + unit -> S -> Prop) :
  Q (inr tt) (step s ev) -> wp step (emit ev) s Q.
Proof. intros H w. exact H. Qed.

Lemma wp_rpc {X} (c : Call X) s (Q : Exn + X -> S -> Prop) :
  (forall r, Q r (step s (EvRpc c r))) -> wp step (rpc respond c) s Q.
Proof.
  intros H w. unfold rpc, result_of, trace_of.
  destruct (respond c w) as [r w']. apply H.
Qed.

Lemma wp_bind {A B} (m : M A) (f : A -> M B) s (Q : Exn + B -> S -> Prop) :
  wp step m s (fun r s1 => match r with
                           | inl e => Q (inl e) s1
                           | inr a => wp step (f a) s1 Q
                           end) ->
  wp step (bind m f) s Q.
Proof.
  intros H w. specialize (H w). unfold bind, result_of, trace_of, observe in *.
  destruct (m w) as [[r w1] t1]. cbn in H. destruct r as [e|a]; [exact H|].
  specialize (H w1). destruct (f a w1) as [[r2 w2] t2]. cbn in *.
  rewrite fold_left_app. exact H.
Qed.

Lemma wp_try {A} (m : M A) (h : Exn -> M A) s (Q : Exn + A -> S -> Prop) :
  wp step m s (fun r s1 => match r with
                           | inl e => wp step (h e) s1 Q
                           | inr a => Q (inr a) s1
                           end) ->
  wp step (try_ m h) s Q.
Proof.
  intros H w. specialize (H w). unfold try_, result_of, trace_of, observe in *.
  destruct (m w) as [[r w1] t1]. cbn in H. destruct r as [e|a]; [|exact H].
  specialize (H w1). destruct (h e w1) as [[r2 w2] t2]. cbn in *.
  rewrite fold_left_app. exact H.
Qed.

Lemma wp_conseq {A} (m : M A) s (Q Q' : Exn + A -> S -> Prop) :
  wp step m s Q -> (forall r s', Q r s' -> Q' r s') -> wp step m s Q'.
Proof. intros H HQ w. apply HQ, H. Qed.

End Monitor.

Lemma emits_ret P {A} (a : A) : emits P (ret (W:=W) a).
Proof. intros w. reflexivity. Qed.

Lemma emits_raise P {A} (e : Exn) : emits P (raise (W:=W) (A:=A) e).
Proof. intros w. reflexivity. Qed.

Lemma emits_lift P {A} (r : Exn + A) : emits P (lift (W:=W) r).
Proof. destruct r; [apply emits_raise | apply emits_ret]. Qed.

Lemma emits_emit (P : Event -> bool) ev : P ev = true -> emits P (emit (W:=W) ev).
Proof. intros H w. cbn. rewrite H. reflexivity. Qed.

Lemma emits_rpc (P : Event -> bool) {X} (c : Call X) :
  (forall r, P (EvRpc c r) = true) -> emits P (rpc respond c).
Proof.
  intros H w. unfold rpc, trace_of. destruct (respond c w) as [r w'].
  cbn. rewrite H. reflexivity.
Qed.

Lemma emits_bind P {A B} (m : M A) (f : A -> M B) :
  emits P m -> (forall a, emits P (f a)) -> emits P (bind m f).
Proof.
  intros Hm Hf w. specialize (Hm w). unfold bind, trace_of in *.
  destruct (m w) as [[r w1] t1]. cbn in Hm. destruct r as [e|a]; [exact Hm|].
  specialize (Hf a w1). destruct (f a w1) as [[r2 w2] t2]. cbn in *.
  rewrite forallb_app, Hm, Hf. reflexivity.
Qed.

Lemma emits_try P {A} (m : M A) (h : Exn -> M A) :
  emits P m -> (forall e, emits P (h e)) -> emits P (try_ m h).
Proof.
  intros Hm Hh w. specialize (Hm w). unfold try_, trace_of in *.
  destruct (m w) as [[r w1] t1]. cbn in Hm. destruct r as [e|a]; [|exact Hm].
  specialize (Hh e w1). destruct (h e w1) as [[r2 w2] t2]. cbn in *.
  rewrite forallb_app, Hm, Hh. reflexivity.
Qed.

Lemma emits_mono (P P' : Event -> bool) {A} (m : M A) :
  (forall ev, P ev = true -> P' ev = true) -> emits P m -> emits P' m.
Proof.
  intros HP H w. specialize (H w). rewrite forallb_forall in *. auto.
Qed.

(** A monitor that ignores the events of [P] is left where it was by a
    computation that emits only such events. *)
Lemma observe_ignored {S} (step : S -> Event -> S) (P : Event -> bool) :
  (forall s ev, P ev = true -> step s ev = s) ->
  forall t s, forallb P t = true -> observe step s t = s.
Proof.
  intros Hign t. induction t as [|ev t IH]; intros s Ht; [reflexivity|].
  cbn in Ht. apply andb_prop in Ht as [Hev Ht]. cbn.
  rewrite (Hign s ev Hev). apply IH, Ht.
Qed.

Lemma wp_ignored {S A} (step : S -> Event -> S) (P : Event -> bool) (m : M A) s
    (Q : Exn + A -> S -> Prop) :
  emits P m ->
  (forall s ev, P ev = true -> step s ev = s) ->
  (forall r, Q r s) ->
  wp step m s Q.
Proof.
  intros Hm Hign HQ w. rewrite (observe_ignored step P Hign _ _ (Hm w)). apply HQ.
Qed.

End Rules.

(** One step of a proof that a computation stays within a set of events;
    [known] closes the calls that have a lemma of their own. *)
Ltac emits_step known :=
  match goal with
  | |- emits _ (bind _ _) => apply emits_bind; [| intros]
  | |- emits _ (try_ _ _) => apply emits_try; [| intros]
  | |- emits _ (ret _) => apply emits_ret
  | |- emits _ (raise _) => apply emits_raise
  | |- emits _ (lift _) => apply emits_lift
  | |- emits _ (rpc _ _) => apply emits_rpc; intros; reflexivity
  | |- emits _ (emit _) => apply emits_emit; reflexivity
  | |- emits _ (log _ _) => apply emits_emit; reflexivity
  | |- emits _ (sleep _) => apply emits_emit; reflexivity
  | |- emits _ (enter _) => apply emits_emit; reflexivity
  | |- emits _ _ => solve [known]
  | |- emits _ (if ?b then _ else _) => destruct b
  | |- emits _ (match ?x with _ => _ end) => destruct x
  end.

Ltac emits_auto known := repeat emits_step known.

(** One step of symbolic execution under a monitor: [norm] normalises the
    monitor state, [known] handles the calls that have a lemma of their
    own and unfolds the named blocks. *)
Ltac wp_step norm known :=
  lazymatch goal with
  | |- wp _ (bind _ _) _ _ => apply wp_bind
  | |- wp _ (try_ _ _) _ _ => apply wp_try
  | |- wp _ (ret _) _ _ => apply wp_ret
  | |- wp _ (raise _) _ _ => apply wp_raise
  | |- wp _ (lift ?r) _ _ =>
      let H := fresh "Hlift" in
      destruct r as [?e|?v] eqn:H; [apply wp_raise | apply wp_ret]
  | |- wp _ (rpc _ _) _ _ => apply wp_rpc; intros [?e|?v]
  | |- wp _ (emit _) _ _ => apply wp_emit
  | |- wp _ (log _ _) _ _ => apply wp_emit
  | |- wp _ (sleep _) _ _ => apply wp_emit
  | |- wp _ (enter _) _ _ => apply wp_emit
  | |- wp _ (if (?a && negb true)%bool then _ else _) _ _ =>
      change (negb true) with false; rewrite (andb_false_r a)
  | |- wp _ (if (?a && negb false)%bool then _ else _) _ _ =>
      change (negb false) with true; rewrite (andb_true_r a)
  | |- wp _ (if (?a && false)%bool then _ else _) _ _ => rewrite (andb_false_r a)
  | |- wp _ (if (?a && true)%bool then _ else _) _ _ => rewrite (andb_true_r a)
  | |- wp _ (if negb true then _ else _) _ _ => change (negb true) with false
  | |- wp _ (if negb false then _ else _) _ _ => change (negb false) with true
  | |- wp _ (if ?b then _ else _) _ _ =>
      let H := fresh "Hif" in destruct b eqn:H
  | |- wp _ (match ?x with _ => _ end) _ _ => destruct x
  | |- wp _ _ _ _ => known
  end; cbv beta iota zeta; norm.

Ltac wp_run norm known := repeat wp_step norm known.

End Logic.

(* ===================================================================== *)
(** * Events of the side procedures                                       *)
(* ===================================================================== *)

Module TraderFacts.
Import Py Chain Watch Logic Trader.

Lemma aside_prelude ev : aside ev = true -> prelude ev = true.
Proof. unfold prelude. intros ->. reflexivity. Qed.

Lemma aside_no_mint ev : aside ev = true -> no_mint ev = true.
Proof.
  destruct ev as [X c r| | |]; try reflexivity.
  destruct c; try reflexivity. destruct fn; try reflexivity. discriminate.
Qed.

Lemma prelude_no_swap_built ev : prelude ev = true -> no_swap_built ev = true.
Proof.
  destruct ev as [X c r| | |]; try reflexivity.
  destruct c; try reflexivity. destruct fn; try reflexivity. discriminate.
Qed.

Section Facts.

Variable W : Type.
Variable respond : forall X, Call X -> W -> (Exn + X) * W.
Variable self : Trader.

Abbreviation get_token_symbol := (Trader.get_token_symbol respond).
Abbreviation get_token_balance := (Trader.get_token_balance respond self).
Abbreviation get_token_allowance := (Trader.get_token_allowance respond self).
Abbreviation check_pool_exists := (Trader.check_pool_exists respond).
Abbreviation min_amount_out := (Trader.min_amount_out (W:=W)).
Abbreviation swap_usdc_for_eth := (Trader.swap_usdc_for_eth respond self).
Abbreviation approve_token := (Trader.approve_token respond self).
Abbreviation swap_prepare := (Trader.swap_prepare respond self).

Lemma get_token_symbol_aside a : emits aside (get_token_symbol a).
Proof. unfold Trader.get_token_symbol. emits_auto fail. Qed.

Lemma get_token_balance_aside a : emits aside (get_token_balance a).
Proof. unfold Trader.get_token_balance. emits_auto fail. Qed.

Lemma get_token_allowance_aside a b : emits aside (get_token_allowance a b).
Proof. unfold Trader.get_token_allowance. emits_auto fail. Qed.

Lemma min_amount_out_aside a b amount : emits aside (min_amount_out a b amount).
Proof. unfold Trader.min_amount_out. emits_auto fail. Qed.

Lemma unwrap_weth_aside a b c d :
  emits aside (Trader.unwrap_weth respond self a b c d).
Proof. unfold Trader.unwrap_weth. emits_auto fail. Qed.

Lemma swap_usdc_for_eth_attempt_aside :
  emits aside (Trader.swap_usdc_for_eth_attempt respond self).
Proof.
  unfold Trader.swap_usdc_for_eth_attempt.
  emits_auto ltac:(first [apply get_token_balance_aside
                         | apply get_token_allowance_aside
                         | apply unwrap_weth_aside]).
Qed.

Lemma swap_usdc_for_eth_aside depth retry_count :
  emits aside (swap_usdc_for_eth depth retry_count).
Proof.
  revert retry_count. induction depth as [|depth IH]; intros retry_count; cbn.
  - apply emits_raise.
  - emits_auto ltac:(first [apply swap_usdc_for_eth_attempt_aside | apply IH]).
Qed.

Lemma approve_on_send_error_aside recover retry token flag e :
  emits aside recover -> emits aside retry ->
  emits aside (Trader.approve_on_send_error respond self recover retry token flag e).
Proof.
  intros Hrec Hretry. unfold Trader.approve_on_send_error.
  emits_auto ltac:(first [apply get_token_balance_aside | exact Hrec | exact Hretry]).
Qed.

Lemma approve_token_aside depth token spender amount flag :
  emits aside (approve_token depth token spender amount flag).
Proof.
  revert flag. induction depth as [|depth IH]; intros flag; cbn.
  - apply emits_raise.
  - emits_auto ltac:(first [apply get_token_symbol_aside
                           | apply get_token_allowance_aside
                           | apply approve_on_send_error_aside;
                             [apply swap_usdc_for_eth_aside | apply IH]]).
Qed.

Lemma check_pool_exists_prelude a b fee : emits prelude (check_pool_exists a b fee).
Proof. unfold Trader.check_pool_exists. emits_auto fail. Qed.

Lemma swap_prepare_prelude depth token_in token_out amount_in :
  emits prelude (swap_prepare depth token_in token_out amount_in).
Proof.
  unfold Trader.swap_prepare.
  emits_auto ltac:(first [ apply check_pool_exists_prelude
                         | eapply emits_mono;
                           [ apply aside_prelude
                           | first [ apply get_token_symbol_aside
                                   | apply get_token_allowance_aside
                                   | apply approve_token_aside ] ] ]).
Qed.

(** The conversion and the read helpers never enter [approve_token]. *)
Lemma get_token_symbol_inner a : emits inner (get_token_symbol a).
Proof. unfold Trader.get_token_symbol. emits_auto fail. Qed.

Lemma get_token_balance_inner a : emits inner (get_token_balance a).
Proof. unfold Trader.get_token_balance. emits_auto fail. Qed.

Lemma get_token_allowance_inner a b : emits inner (get_token_allowance a b).
Proof. unfold Trader.get_token_allowance. emits_auto fail. Qed.

Lemma unwrap_weth_inner a b c d :
  emits inner (Trader.unwrap_weth respond self a b c d).
Proof. unfold Trader.unwrap_weth. emits_auto fail. Qed.

Lemma swap_usdc_for_eth_attempt_inner :
  emits inner (Trader.swap_usdc_for_eth_attempt respond self).
Proof.
  unfold Trader.swap_usdc_for_eth_attempt.
  emits_auto ltac:(first [apply get_token_balance_inner
                         | apply get_token_allowance_inner
                         | apply unwrap_weth_inner]).
Qed.

Lemma swap_usdc_for_eth_inner depth retry_count :
  emits inner (swap_usdc_for_eth depth retry_count).
Proof.
  revert retry_count. induction depth as [|depth IH]; intros retry_count; cbn.
  - apply emits_raise.
  - emits_auto ltac:(first [apply swap_usdc_for_eth_attempt_inner | apply IH]).
Qed.

(** A conversion is started by an entry with retry count 0 only. *)
Lemma unwrap_weth_no_start a b c d :
  emits no_start (Trader.unwrap_weth respond self a b c d).
Proof. unfold Trader.unwrap_weth. emits_auto fail. Qed.

Lemma swap_usdc_for_eth_attempt_no_start :
  emits no_start (Trader.swap_usdc_for_eth_attempt respond self).
Proof.
  unfold Trader.swap_usdc_for_eth_attempt, Trader.get_token_balance,
    Trader.get_token_allowance.
  emits_auto ltac:(apply unwrap_weth_no_start).
Qed.

Lemma swap_usdc_for_eth_no_start depth retry_count :
  0 < retry_count -> emits no_start (swap_usdc_for_eth depth retry_count).
Proof.
  revert retry_count. induction depth as [|depth IH]; intros retry_count Hpos; cbn.
  - apply emits_raise.
  - emits_auto ltac:(first [ apply swap_usdc_for_eth_attempt_no_start
                           | apply IH; lia
                           | apply emits_emit; destruct retry_count;
                             [lia | reflexivity | lia] ]).
Qed.

(** The read helpers read no gas price, build nothing and enter no
    method. *)
Lemma get_token_symbol_quiet a : emits quiet (get_token_symbol a).
Proof. unfold Trader.get_token_symbol. emits_auto fail. Qed.

Lemma get_token_balance_quiet a : emits quiet (get_token_balance a).
Proof. unfold Trader.get_token_balance. emits_auto fail. Qed.

Lemma get_token_allowance_quiet a b : emits quiet (get_token_allowance a b).
Proof. unfold Trader.get_token_allowance. emits_auto fail. Qed.

Lemma check_pool_exists_quiet a b fee : emits quiet (check_pool_exists a b fee).
Proof. unfold Trader.check_pool_exists. emits_auto fail. Qed.

Lemma min_amount_out_quiet a b amount : emits quiet (min_amount_out a b amount).
Proof. unfold Trader.min_amount_out. emits_auto fail. Qed.

End Facts.

(** Calls whose events lie in [aside], in [prelude], in [quiet]. *)
Ltac aside_call :=
  first [ apply get_token_symbol_aside
        | apply get_token_balance_aside
        | apply get_token_allowance_aside
        | apply min_amount_out_aside
        | apply swap_usdc_for_eth_aside
        | apply approve_token_aside ].

Ltac inner_call :=
  first [ apply get_token_symbol_inner
        | apply get_token_balance_inner
        | apply get_token_allowance_inner
        | apply swap_usdc_for_eth_inner ].

Ltac prelude_call :=
  first [ apply swap_prepare_prelude
        | apply check_pool_exists_prelude
        | eapply emits_mono; [ apply aside_prelude | aside_call ] ].

Ltac quiet_call :=
  first [ apply get_token_symbol_quiet
        | apply get_token_balance_quiet
        | apply get_token_allowance_quiet
        | apply check_pool_exists_quiet
        | apply min_amount_out_quiet ].

End TraderFacts.

(** A call of a side procedure under a monitor that ignores its events;
    [ign] proves that the monitor does. *)
Ltac wp_aside ign :=
  eapply Logic.wp_ignored; [ TraderFacts.aside_call | exact ign | intros [?e|?v] ].

Ltac wp_inner ign :=
  eapply Logic.wp_ignored; [ TraderFacts.inner_call | exact ign | intros [?e|?v] ].

Ltac wp_prelude ign :=
  eapply Logic.wp_ignored; [ TraderFacts.prelude_call | exact ign | intros [?e|?v] ].

Ltac wp_quiet ign :=
  eapply Logic.wp_ignored; [ TraderFacts.quiet_call | exact ign | intros [?e|?v] ].

(** Unfolding of the blocks of the swap after its prelude. *)
Ltac wp_unfold :=
  first [ progress unfold Trader.swap_build
        | progress unfold Trader.swap_submit
        | progress unfold Trader.swap_on_submit_error ].

(* ===================================================================== *)
(** * The pool check                                                      *)
(* ===================================================================== *)

Module PoolCheck.
Import Py Chain Watch Logic Trader.

Lemma saw_failure_aside s ev : aside ev = true -> saw_failure s ev = s.
Proof.
  unfold saw_failure. destruct ev as [X c r| | |]; try reflexivity.
  destruct c; cbn; try discriminate; reflexivity.
Qed.

Lemma no_liquidity_pool_inl {A B} (e : Exn) :
  no_liquidity_pool (A:=A) (inl e) -> no_liquidity_pool (A:=B) (inl e).
Proof. intros (a & b & [= ->]). eexists. eexists. reflexivity. Qed.

Section Run.

Variable W : Type.
Variable respond : forall X, Call X -> W -> (Exn + X) * W.
Variable self : Trader.

Abbreviation check_pool_exists := (Trader.check_pool_exists respond).
Abbreviation swap_prepare := (Trader.swap_prepare respond self).
Abbreviation swap_tokens_for_tokens := (Trader.swap_tokens_for_tokens respond self).

Ltac norm := cbn [saw_failure pool_query_failed].
Ltac known := first [ wp_aside saw_failure_aside | wp_unfold ].
Ltac leaf :=
  first [ assumption
        | match goal with
          | H : ?s = true -> no_liquidity_pool (inl ?e) |- ?s = true -> _ =>
              let Hs := fresh in
              intros Hs; exact (no_liquidity_pool_inl (H Hs))
          end
        | intros; discriminate
        | intros _; eexists; eexists; reflexivity
        | intros; reflexivity ].

Lemma pool_swap_prepare_wp depth token_in token_out amount_in :
  wp saw_failure (swap_prepare depth token_in token_out amount_in) false prepare_post.
Proof.
  unfold Trader.swap_prepare, Trader.check_pool_exists.
  wp_run norm known.
  all: split; [ leaf | first [ intros ? [= <-]; reflexivity | intros ? [=] ] ].
Qed.

Ltac prepare_call :=
  eapply wp_conseq;
  [ apply pool_swap_prepare_wp
  | intros [?e|[? ?]] ?s [?Hfail ?Hpass];
    [ | pose proof (Hpass _ eq_refl); subst ] ].

Lemma pool_swap_retry_wp depth token_in token_out amount_in pool_key :
  wp saw_failure
     (swap_tokens_for_tokens depth token_in token_out amount_in pool_key true)
     false swap_post.
Proof.
  destruct depth as [|depth]; cbn [Trader.swap_tokens_for_tokens].
  - apply wp_raise. intros; discriminate.
  - wp_run norm ltac:(first [ prepare_call | known ]). all: unfold swap_post; leaf.
Qed.

Ltac retry_call :=
  eapply wp_conseq; [ apply pool_swap_retry_wp | intros [?e|?v] ?s ?Hretry ].

Lemma pool_swap_first_wp depth token_in token_out amount_in pool_key :
  wp saw_failure
     (swap_tokens_for_tokens depth token_in token_out amount_in pool_key false)
     false swap_post.
Proof.
  destruct depth as [|depth]; cbn [Trader.swap_tokens_for_tokens].
  - apply wp_raise. intros; discriminate.
  - wp_run norm ltac:(first [ prepare_call | known | retry_call ]).
    all: unfold swap_post in *; leaf.
Qed.

(** C9. When the factory query raises, [check_pool_exists] logs the error
    and returns [False], whatever the exception; and a swap in whose run a
    factory query raised ends with the [ValueError] "No liquidity pool
    found for ...", on the first attempt as on the retried one. *)
Theorem pool_query_error_reads_as_no_pool :
  (forall (token_a token_b : Address) (fee : Z) (w w' : W) (e : Exn),
      let '(a, b) := if token_a >? token_b then (token_b, token_a)
                     else (token_a, token_b) in
      respond (getPool a b 3000) w = (inl e, w') ->
      check_pool_exists token_a token_b fee w
        = (inr false, w',
           [EvRpc (getPool a b 3000) (inl e);
            EvLog ERROR "Error checking pool existence: {e}"])) /\
  (forall (depth : nat) (token_in token_out : Address) (amount_in : Z)
      (pool_key : PoolKey) (retry : bool) (w : W),
      let run := swap_tokens_for_tokens depth token_in token_out amount_in
                   pool_key retry w in
      observe saw_failure false (trace_of run) = true ->
      no_liquidity_pool (result_of run)).
Proof.
  split.
  - intros token_a token_b fee w w' e.
    unfold Trader.check_pool_exists, try_, bind, rpc.
    destruct (token_a >? token_b); intros H; rewrite H; reflexivity.
  - intros depth token_in token_out amount_in pool_key retry w. cbv zeta.
    destruct retry.
    + apply (pool_swap_retry_wp depth token_in token_out amount_in pool_key w).
    + apply (pool_swap_first_wp depth token_in token_out amount_in pool_key w).
Qed.

End Run.
End PoolCheck.

(* ===================================================================== *)
(** * On-chain reverts                                                    *)
(* ===================================================================== *)

Module Revert.
Import Py Chain Watch Logic Trader.

Lemma see_prelude s ev : prelude ev = true -> see s ev = s.
Proof.
  destruct ev as [X c r| | |]; try reflexivity.
  destruct c; try reflexivity; unfold prelude; cbn; intros H; try discriminate.
  destruct r; [reflexivity|].
  destruct (timeout =? 180); cbn in *; [discriminate | reflexivity].
Qed.

Lemma see_aside s ev : aside ev = true -> see s ev = s.
Proof. intros H. apply see_prelude, TraderFacts.aside_prelude, H. Qed.

Section Run.

Variable W : Type.
Variable respond : forall X, Call X -> W -> (Exn + X) * W.
Variable self : Trader.

Abbreviation swap_tokens_for_tokens := (Trader.swap_tokens_for_tokens respond self).

Ltac norm :=
  cbn [see reverted probes nothing_seen negb andb Z.eqb Pos.eqb].
Ltac known :=
  first [ wp_prelude see_prelude | wp_aside see_aside | wp_unfold ].
Ltac leaf :=
  unfold revert_post in *; cbn [reverted probes];
  first [ assumption
        | intros ? ?; discriminate
        | intros ? [= <-]; split; reflexivity ].

Lemma revert_swap_retry_wp depth token_in token_out amount_in pool_key :
  wp see (swap_tokens_for_tokens depth token_in token_out amount_in pool_key true)
     nothing_seen revert_post.
Proof.
  destruct depth as [|depth]; cbn [Trader.swap_tokens_for_tokens].
  - apply wp_raise. leaf.
  - wp_run norm known. all: leaf.
Qed.

Ltac retry_call :=
  eapply wp_conseq; [ apply revert_swap_retry_wp | intros [?e|?v] ?s ?Hretry ].

Lemma revert_swap_first_wp depth token_in token_out amount_in pool_key :
  wp see (swap_tokens_for_tokens depth token_in token_out amount_in pool_key false)
     nothing_seen revert_post.
Proof.
  destruct depth as [|depth]; cbn [Trader.swap_tokens_for_tokens].
  - apply wp_raise. leaf.
  - wp_run norm ltac:(first [ known | retry_call ]). all: leaf.
Qed.

(** C5. In every run of [swap_tokens_for_tokens], on the first attempt or
    the retried one: if the receipt of the submitted swap comes back with a
    status other than 1, the call returns, without raising, the hex string
    of that transaction's hash, and exactly one read-only replay
    ([w3.eth.call]) was made after the receipt, whether the replay itself
    answered or raised. *)
Theorem reverted_swap_returns_hash (depth : nat) (token_in token_out : Address)
    (amount_in : Z) (pool_key : PoolKey) (retry : bool) (w : W) (h : TxHash) :
  let run := swap_tokens_for_tokens depth token_in token_out amount_in pool_key
               retry w in
  reverted (observe see nothing_seen (trace_of run)) = Some h ->
  result_of run = inr (HexOf h) /\
  probes (observe see nothing_seen (trace_of run)) = 1%nat.
Proof.
  cbv zeta. destruct retry.
  - apply (revert_swap_retry_wp depth token_in token_out amount_in pool_key w).
  - apply (revert_swap_first_wp depth token_in token_out amount_in pool_key w).
Qed.

End Run.
End Revert.

(* ===================================================================== *)
(** * Gas-shortfall recovery                                              *)
(* ===================================================================== *)

Module Recovery.
Import Py Chain Watch Logic Trader.
Local Open Scope py_scope.

Lemma tally_prelude s ev : prelude ev = true -> tally s ev = s.
Proof.
  destruct ev as [X c r|lvl text|secs|f]; try reflexivity.
  - unfold prelude. cbn. rewrite orb_false_r. intros H.
    apply negb_true_iff, orb_false_iff in H as [H _]. rewrite H. reflexivity.
  - destruct f; cbn; try reflexivity. discriminate.
Qed.

Lemma tally_aside s ev : aside ev = true -> tally s ev = s.
Proof. intros H. apply tally_prelude, TraderFacts.aside_prelude, H. Qed.

Lemma approvals_inner s ev : inner ev = true -> approvals s ev = s.
Proof.
  destruct ev as [X c r|lvl text|secs|f]; try reflexivity.
  - unfold inner. cbn [approvals]. intros H.
    apply andb_true_iff in H as [_ H]. apply negb_true_iff in H.
    rewrite H. reflexivity.
  - destruct f; cbn [approvals]; try reflexivity.
    unfold inner. rewrite andb_false_r. discriminate.
Qed.

Lemma starts_no_start s ev : no_start ev = true -> starts s ev = s.
Proof.
  unfold starts, no_start. destruct (conversion_started ev); [discriminate|reflexivity].
Qed.

Lemma starts_quiet s ev : quiet ev = true -> starts s ev = s.
Proof.
  intros H. apply starts_no_start. unfold no_start.
  destruct ev as [X c r| | |f]; try reflexivity. discriminate.
Qed.

Section Run.

Variable W : Type.
Variable respond : forall X, Call X -> W -> (Exn + X) * W.
Variable self : Trader.

Abbreviation M := (Chain.M W).
Abbreviation get_token_balance := (Trader.get_token_balance respond self).
Abbreviation approve_on_send_error := (Trader.approve_on_send_error respond self).
Abbreviation swap_submit := (Trader.swap_submit respond self).
Abbreviation swap_on_submit_error := (Trader.swap_on_submit_error respond self).
Abbreviation swap_tokens_for_tokens := (Trader.swap_tokens_for_tokens respond self).
Abbreviation approve_token := (Trader.approve_token respond self).

Ltac eval_eqb :=
  repeat match goal with
         | |- context [String.eqb ?a ?b] =>
             let v := eval vm_compute in (String.eqb a b) in
             change (String.eqb a b) with v
         end.
Ltac norm := cbn [tally]; eval_eqb; cbv iota; cbn [conversions retries firsts].
Ltac known :=
  first [ wp_prelude tally_prelude | wp_aside tally_aside | wp_unfold ].

Lemma tally_swap_retry_wp depth token_in token_out amount_in pool_key s0 :
  wp tally (swap_tokens_for_tokens depth token_in token_out amount_in pool_key true)
     s0 (retry_post s0).
Proof.
  destruct depth as [|depth]; cbn [Trader.swap_tokens_for_tokens].
  - apply wp_raise. unfold retry_post. lia.
  - wp_run norm known. all: unfold retry_post; cbn [conversions retries firsts]; lia.
Qed.

Ltac retry_call :=
  eapply wp_conseq; [ apply tally_swap_retry_wp | intros [?e|?v] ?s [?Hc [?Hf ?Hr]] ].


(** [approve_token] has the same shape: its retried call starts no
    conversion and does not call itself again. *)
Ltac norm_approvals :=
  cbn [approvals]; eval_eqb; cbv iota; cbn [conversions retries firsts].
Ltac known_approvals :=
  first [ wp_inner approvals_inner | progress unfold Trader.approve_on_send_error ].

Lemma approvals_retry_wp depth token spender amount s0 :
  wp approvals (approve_token depth token spender amount true) s0 (retry_post s0).
Proof.
  destruct depth as [|depth]; cbn [Trader.approve_token].
  - apply wp_raise. unfold retry_post. lia.
  - wp_run norm_approvals known_approvals.
    all: unfold retry_post; cbn [conversions retries firsts]; lia.
Qed.

Ltac approve_retry_call :=
  eapply wp_conseq; [ apply approvals_retry_wp | intros [?e|?v] ?s [?Hc [?Hf ?Hr]] ].


(** Conversions started in all, whoever asked: one for a call of
    [swap_usdc_for_eth], at most one for an approval, none for a retried
    approval, at most one for a retried swap (from its approval). *)
Ltac norm_starts := cbn [starts conversion_started].
Ltac known_starts :=
  first [ wp_quiet starts_quiet
        | eapply Logic.wp_ignored;
          [ first [ apply TraderFacts.swap_usdc_for_eth_attempt_no_start
                  | apply TraderFacts.swap_usdc_for_eth_no_start; lia ]
          | exact starts_no_start | intros [?e|?v] ]
        | progress unfold Trader.approve_on_send_error
        | wp_unfold ].

Lemma starts_conversion_wp depth s0 :
  wp starts (Trader.swap_usdc_for_eth respond self depth 0) s0
     (fun _ s => (s <= S s0)%nat).
Proof.
  destruct depth as [|depth]; cbn [Trader.swap_usdc_for_eth].
  - apply wp_raise. lia.
  - wp_run norm_starts known_starts. all: lia.
Qed.

Ltac conversion_call :=
  eapply wp_conseq; [ apply starts_conversion_wp | intros [?e|?v] ?s ?Hs ].














(** ** A swap whose input is USDC *)











End Run.
End Recovery.

(* ===================================================================== *)
(** * Gas prices                                                          *)
(* ===================================================================== *)

Module GasPrice.
Import Py Chain Watch Logic Trader.

Lemma gas_quiet s ev : quiet ev = true -> gas s ev = s.
Proof.
  destruct ev as [X c r| | |]; try reflexivity; try discriminate.
  destruct c; try reflexivity; discriminate.
Qed.

Section Run.

Variable W : Type.
Variable respond : forall X, Call X -> W -> (Exn + X) * W.
Variable self : Trader.

Abbreviation get_gas_price := (Trader.get_gas_price respond).
Abbreviation swap_usdc_for_eth := (Trader.swap_usdc_for_eth respond self).
Abbreviation approve_token := (Trader.approve_token respond self).
Abbreviation swap_prepare := (Trader.swap_prepare respond self).
Abbreviation swap_tokens_for_tokens := (Trader.swap_tokens_for_tokens respond self).

Ltac use_products :=
  repeat match goal with
         | H : int_mul_float ?g ?c = _ |- context [int_mul_float ?g ?c] => rewrite H
         end.
Ltac norm :=
  cbn [gas live converting ok priced multiplier tx_gasPrice andb];
  use_products; cbv iota; rewrite ?Z.eqb_refl.
Ltac known :=
  first [ wp_quiet gas_quiet
        | progress unfold Trader.unwrap_weth
        | progress unfold Trader.swap_usdc_for_eth_attempt
        | progress unfold Trader.approve_on_send_error
        | wp_unfold ].

(** From a state in which every price so far was right, each method ends
    in such a state. *)
Lemma gas_swap_usdc_for_eth_wp depth retry_count l c :
  wp gas (swap_usdc_for_eth depth retry_count)
     {| live := l; converting := c; ok := true |} (fun _ s => ok s = true).
Proof.
  revert retry_count l c.
  induction depth as [|depth IH]; intros retry_count l c;
    cbn [Trader.swap_usdc_for_eth].
  - apply wp_raise. reflexivity.
  - wp_run norm ltac:(first [ apply IH | known ]). all: reflexivity.
Qed.

Ltac conversion_call :=
  eapply wp_conseq;
  [ apply gas_swap_usdc_for_eth_wp
  | intros [?e|?v] [?l ?c ?o] ?Hok; cbn [ok] in Hok; subst ].

Lemma gas_approve_token_wp depth token spender amount flag l c :
  wp gas (approve_token depth token spender amount flag)
     {| live := l; converting := c; ok := true |} (fun _ s => ok s = true).
Proof.
  revert flag l c.
  induction depth as [|depth IH]; intros flag l c; cbn [Trader.approve_token].
  - apply wp_raise. reflexivity.
  - wp_run norm ltac:(first [ apply IH | conversion_call | known ]).
    all: reflexivity.
Qed.

Ltac approve_call :=
  eapply wp_conseq;
  [ apply gas_approve_token_wp
  | intros [?e|?v] [?l ?c ?o] ?Hok; cbn [ok] in Hok; subst ].

Lemma gas_swap_prepare_wp depth token_in token_out amount_in l c :
  wp gas (swap_prepare depth token_in token_out amount_in)
     {| live := l; converting := c; ok := true |} (fun _ s => ok s = true).
Proof.
  unfold Trader.swap_prepare.
  wp_run norm ltac:(first [ approve_call | known ]). all: reflexivity.
Qed.

Ltac prepare_call :=
  eapply wp_conseq;
  [ apply gas_swap_prepare_wp
  | intros [?e|[? ?]] [?l ?c ?o] ?Hok; cbn [ok] in Hok; subst ].

Lemma gas_swap_tokens_for_tokens_wp depth token_in token_out amount_in pool_key flag l c :
  wp gas (swap_tokens_for_tokens depth token_in token_out amount_in pool_key flag)
     {| live := l; converting := c; ok := true |} (fun _ s => ok s = true).
Proof.
  revert flag l c.
  induction depth as [|depth IH]; intros flag l c;
    cbn [Trader.swap_tokens_for_tokens].
  - apply wp_raise. reflexivity.
  - wp_run norm
      ltac:(first [ prepare_call
                  | conversion_call
                  | eapply wp_conseq;
                    [ apply IH
                    | intros [?e|?v] [?l ?c ?o] ?Hok; cbn [ok] in Hok; subst ]
                  | known ]).
    all: reflexivity.
Qed.

(** C3, as the code has it. Every transaction built in a run of
    [swap_tokens_for_tokens], of [approve_token] or of [swap_usdc_for_eth]
    carries the gas price [int(live * m)], where [live] is the answer of
    the latest [w3.eth.gas_price] read, not clamped, and [m] is 1.2 for an
    approval made by [approve_token], 1.4 for a swap, and 0.8 for the
    approval, the swap and the unwrap of the emergency conversion. The
    clamp to [max_gas_price] is applied by [get_gas_price] alone, which
    returns the smaller of the live price and the ceiling, and the ceiling
    when the read fails. *)
Theorem gas_price_is_live_price_times_multiplier :
  (forall (depth : nat) (token_in token_out : Address) (amount_in : Z)
      (pool_key : PoolKey) (retry : bool) (w : W),
      ok (observe gas unpriced
            (trace_of (swap_tokens_for_tokens depth token_in token_out amount_in
                         pool_key retry w))) = true) /\
  (forall (depth : nat) (token spender : Address) (amount : Z) (retry : bool) (w : W),
      ok (observe gas unpriced
            (trace_of (approve_token depth token spender amount retry w))) = true) /\
  (forall (depth : nat) (retry_count : Z) (w : W),
      ok (observe gas unpriced (trace_of (swap_usdc_for_eth depth retry_count w)))
      = true) /\
  (forall w : W,
      result_of (get_gas_price w)
      = inr (match fst (respond eth_gas_price w) with
             | inr current_gas_price => Z.min current_gas_price max_gas_price
             | inl _ => max_gas_price
             end)).
Proof.
  split; [|split; [|split]].
  - intros. apply gas_swap_tokens_for_tokens_wp.
  - intros. apply gas_approve_token_wp.
  - intros. apply gas_swap_usdc_for_eth_wp.
  - intros w. unfold Trader.get_gas_price, try_, bind, rpc, result_of.
    destruct (respond eth_gas_price w) as [[e|g] w']; reflexivity.
Qed.

End Run.
End GasPrice.

(* ===================================================================== *)
(** * Minimum outputs                                                     *)
(* ===================================================================== *)

Module Slippage.
Import Py Chain Watch Logic Trader.

Lemma floors_no_swap_built s ev : no_swap_built ev = true -> floors s ev = s.
Proof.
  destruct ev as [X c r| | |]; try reflexivity.
  destruct c; try reflexivity. destruct fn; try reflexivity. discriminate.
Qed.

Lemma floors_prelude s ev : prelude ev = true -> floors s ev = s.
Proof. intros H. apply floors_no_swap_built, TraderFacts.prelude_no_swap_built, H. Qed.

Lemma floors_aside s ev : aside ev = true -> floors s ev = s.
Proof. intros H. apply floors_prelude, TraderFacts.aside_prelude, H. Qed.

Section Run.

Variable W : Type.
Variable respond : forall X, Call X -> W -> (Exn + X) * W.
Variable self : Trader.

Abbreviation get_token_symbol := (Trader.get_token_symbol respond).
Abbreviation min_amount_out := (Trader.min_amount_out (W:=W)).
Abbreviation swap_prepare := (Trader.swap_prepare respond self).
Abbreviation swap_tokens_for_tokens := (Trader.swap_tokens_for_tokens respond self).

Ltac norm := cbn [floors].
Ltac known :=
  first [ wp_prelude floors_prelude | wp_aside floors_aside | wp_unfold ].

Lemma min_amount_out_sell (amount_in : Z) (w : W) :
  min_amount_out "MYSO" "USDC" amount_in w
  = (inr 1000, w,
     [EvLog INFO
        "Using fixed minAmountOut: {amount_out_min} (0.001 USDC min output for MYSO sell)"]).
Proof. reflexivity. Qed.

Lemma min_amount_out_other (token_in_symbol token_out_symbol : string)
    (amount_in : Z) (w : W) :
  (String.eqb token_in_symbol "MYSO" && String.eqb token_out_symbol "USDC")%bool = false ->
  min_amount_out token_in_symbol token_out_symbol amount_in w
  = match int_mul_float amount_in f0_2 with
    | inr amount_out_min =>
        (inr amount_out_min, w,
         [EvLog INFO "Using minAmountOut: {amount_out_min} (80% slippage)"])
    | inl e => (inl e, w, [])
    end.
Proof.
  intros H. unfold Trader.min_amount_out. rewrite H.
  unfold bind, lift. destruct (int_mul_float amount_in f0_2); reflexivity.
Qed.

(** For tokens of [TOKEN_SYMBOLS] the prelude returns their symbols, and
    builds no swap. *)
Lemma floors_swap_prepare_symbols depth token_in token_out amount_in sa sb s0 :
  TOKEN_SYMBOLS token_in = Some sa ->
  TOKEN_SYMBOLS token_out = Some sb ->
  wp floors (swap_prepare depth token_in token_out amount_in) s0
     (fun r s => s = s0 /\ forall v, r = inr v -> v = (sa, sb)).
Proof.
  intros Hin Hout. unfold Trader.swap_prepare, Trader.get_token_symbol.
  rewrite Hin, Hout.
  wp_run norm known.
  all: split; [reflexivity | first [ intros ? [= <-]; reflexivity | intros ? [=] ] ].
Qed.

Lemma floors_swap_tokens_for_tokens_wp depth token_in token_out amount_in pool_key retry
    sa sb s0 :
  TOKEN_SYMBOLS token_in = Some sa ->
  TOKEN_SYMBOLS token_out = Some sb ->
  wp floors (swap_tokens_for_tokens depth token_in token_out amount_in pool_key retry) s0
     (fun _ s => all_by_rule sa sb amount_in s0 -> all_by_rule sa sb amount_in s).
Proof.
  intros Hin Hout. revert retry s0.
  induction depth as [|depth IH]; intros retry s0;
    cbn [Trader.swap_tokens_for_tokens].
  - apply wp_raise. auto.
  - wp_run norm
      ltac:(first [ eapply wp_conseq;
                    [ apply (floors_swap_prepare_symbols _ _ _ _ _ Hin Hout)
                    | intros [?e|?v] ?s [-> ?Hsym];
                      [ | pose proof (Hsym _ eq_refl); subst ] ]
                  | progress unfold Trader.min_amount_out
                  | eapply wp_conseq; [ apply IH | intros [?e|?v] ?s ?Hretry ]
                  | known ]).
    all: try (intros H0; exact H0).
    all: intros H0; try apply Hretry; unfold all_by_rule in *;
      apply Forall_app; (split; [exact H0|]);
      constructor; [|constructor]; cbn [fst snd]; (split; [reflexivity|]);
      unfold floor_rule; rewrite Hif; first [ reflexivity | assumption ].
Qed.

(** ** The rule in every run *)

(** Once both symbols are known, the lines before the swap is built leave
    the monitor of the rule where it is. *)
Lemma rule_prelude (token_in token_out : Address) (amount_in : Z) (s : Rule)
    (ev : Event) :
  in_symbol s <> None -> out_symbol s <> None ->
  prelude ev = true -> rule token_in token_out amount_in s ev = s.
Proof.
  intros Hin Hout. destruct ev as [X c r|lvl text|secs|f]; try reflexivity.
  - destruct c; try reflexivity.
    + cbn. destruct (in_symbol s); [|contradiction].
      destruct (out_symbol s); [reflexivity | contradiction].
    + destruct fn; try reflexivity. discriminate.
  - destruct f; try reflexivity. discriminate.
Qed.

Lemma wp_settled {A} (token_in token_out : Address) (amount_in : Z)
    (m : Chain.M W A) (s : Rule) (Q : Exn + A -> Rule -> Prop) :
  emits prelude m ->
  in_symbol s <> None -> out_symbol s <> None ->
  (forall r, Q r s) ->
  wp (rule token_in token_out amount_in) m s Q.
Proof.
  intros Hm Hin Hout HQ w.
  assert (Hobs : forall t, forallb prelude t = true ->
                           observe (rule token_in token_out amount_in) s t = s).
  { intros t. induction t as [|ev t IH]; intros Ht; [reflexivity|].
    cbn in Ht. apply andb_prop in Ht as [Hev Ht]. cbn.
    rewrite (rule_prelude token_in token_out amount_in s ev Hin Hout Hev).
    apply IH, Ht. }
  rewrite (Hobs _ (Hm w)). apply HQ.
Qed.

Section Tokens.

Variable token_in token_out : Address.
Variable amount_in : Z.

Abbreviation rule := (Watch.rule token_in token_out amount_in).

Ltac settled_call :=
  eapply wp_settled;
  [ TraderFacts.prelude_call | cbn [in_symbol]; discriminate
  | cbn [out_symbol]; discriminate | intros [?e|?v] ].

Ltac norm_rule :=
  cbn [Watch.rule in_symbol out_symbol lawful symbol_read]; rewrite ?Z.eqb_refl;
  cbv iota; cbn [in_symbol out_symbol lawful].

(** The symbols the prelude returns are those the monitor holds. *)
Lemma rule_swap_prepare_wp depth (l : bool) :
  wp rule (swap_prepare depth token_in token_out amount_in)
     {| in_symbol := TOKEN_SYMBOLS token_in; out_symbol := TOKEN_SYMBOLS token_out;
        lawful := l |}
     (fun r s =>
        lawful s = l /\
        forall sa sb, r = inr (sa, sb) ->
                      in_symbol s = Some sa /\ out_symbol s = Some sb).
Proof.
  unfold Trader.swap_prepare, Trader.get_token_symbol.
  wp_run norm_rule ltac:(settled_call).
  all: split; [reflexivity|]; intros sa sb Hr;
    first [ discriminate | injection Hr as <- <-; split; reflexivity ].
Qed.

Ltac rule_prepare_call :=
  eapply wp_conseq;
  [ apply rule_swap_prepare_wp
  | intros [?e|[?sa ?sb]] [?a ?b ?l'] [?Hl ?Hsym]; cbn [lawful] in Hl; subst;
    [ | destruct (Hsym _ _ eq_refl) as [?Ha ?Hb]; cbn [in_symbol out_symbol] in *;
        subst ] ].

Ltac rule_side :=
  first [ progress unfold Trader.min_amount_out
        | settled_call
        | eapply wp_settled;
          [ eapply emits_mono; [ apply TraderFacts.aside_prelude | TraderFacts.aside_call ]
          | cbn [in_symbol]; discriminate | cbn [out_symbol]; discriminate
          | intros [?e|?v] ]
        | wp_unfold ].

Ltac use_floor :=
  unfold follows_rule;
  repeat match goal with
         | H : (_ && _)%bool = _ |- _ => rewrite H
         | H : int_mul_float _ _ = _ |- _ => rewrite H
         end;
  rewrite ?Z.eqb_refl; cbn [andb].

Lemma rule_swap_retry_wp depth pool_key s0 :
  lawful s0 = true ->
  wp rule (swap_tokens_for_tokens depth token_in token_out amount_in pool_key true) s0
     (fun _ s => lawful s = true).
Proof.
  intros H0. destruct depth as [|depth]; cbn [Trader.swap_tokens_for_tokens].
  - apply wp_raise. exact H0.
  - apply wp_bind, wp_emit. cbn [Watch.rule]. rewrite H0.
    wp_run ltac:(norm_rule; use_floor) ltac:(first [ rule_prepare_call | rule_side ]).
    all: reflexivity.
Qed.

Lemma rule_swap_first_wp depth pool_key s0 :
  lawful s0 = true ->
  wp rule (swap_tokens_for_tokens depth token_in token_out amount_in pool_key false) s0
     (fun _ s => lawful s = true).
Proof.
  intros H0. destruct depth as [|depth]; cbn [Trader.swap_tokens_for_tokens].
  - apply wp_raise. exact H0.
  - apply wp_bind, wp_emit. cbn [Watch.rule]. rewrite H0.
    wp_run ltac:(norm_rule; use_floor)
      ltac:(first [ rule_prepare_call | rule_side
                  | eapply wp_conseq;
                    [ apply rule_swap_retry_wp; reflexivity
                    | intros [?e|?v] ?s ?Hretry ] ]).
    all: first [ reflexivity | assumption ].
Qed.

End Tokens.

(** C6, as the code has it. When the symbols are MYSO for the input and
    USDC for the output, the floor is the constant 1000, whatever
    [amount_in]; for any other pair of symbols it is [int(amount_in * 0.2)],
    the input converted to a double, multiplied by the double nearest to
    0.2 and truncated toward zero ([OverflowError] when the input does not
    fit a double). For tokens of [TOKEN_SYMBOLS], every swap transaction
    built in a run carries [amount_in] and the floor this rule gives for
    their symbols.  And for every pair of tokens, in the table or not,
    every swap transaction built in a run, on the first attempt or the
    retried one, carries [amount_in] and the floor the rule gives for the
    symbols the attempt works with: those of the table, or else the
    symbol its contract answered when the attempt asked for it (the
    shortened address when that call failed). *)
Theorem minimum_output_rule :
  (forall (amount_in : Z) (w : W),
      min_amount_out "MYSO" "USDC" amount_in w
      = (inr 1000, w,
         [EvLog INFO
            "Using fixed minAmountOut: {amount_out_min} (0.001 USDC min output for MYSO sell)"])) /\
  (forall (token_in_symbol token_out_symbol : string) (amount_in : Z) (w : W),
      (String.eqb token_in_symbol "MYSO" && String.eqb token_out_symbol "USDC")%bool
        = false ->
      min_amount_out token_in_symbol token_out_symbol amount_in w
      = match int_mul_float amount_in f0_2 with
        | inr amount_out_min =>
            (inr amount_out_min, w,
             [EvLog INFO "Using minAmountOut: {amount_out_min} (80% slippage)"])
        | inl e => (inl e, w, [])
        end) /\
  (forall (depth : nat) (token_in token_out : Address) (amount_in : Z)
      (pool_key : PoolKey) (retry : bool) (w : W)
      (token_in_symbol token_out_symbol : string),
      TOKEN_SYMBOLS token_in = Some token_in_symbol ->
      TOKEN_SYMBOLS token_out = Some token_out_symbol ->
      all_by_rule token_in_symbol token_out_symbol amount_in
        (observe floors []
           (trace_of (swap_tokens_for_tokens depth token_in token_out amount_in
                        pool_key retry w)))) /\
  (forall (depth : nat) (token_in token_out : Address) (amount_in : Z)
      (pool_key : PoolKey) (retry : bool) (w : W),
      lawful (observe (rule token_in token_out amount_in) no_symbols
                (trace_of (swap_tokens_for_tokens depth token_in token_out amount_in
                             pool_key retry w))) = true).
Proof.
  split; [|split; [|split]].
  - apply min_amount_out_sell.
  - apply min_amount_out_other.
  - intros depth token_in token_out amount_in pool_key retry w sa sb Hin Hout.
    refine (@floors_swap_tokens_for_tokens_wp depth token_in token_out amount_in pool_key
              retry sa sb [] Hin Hout w _).
    constructor.
  - intros depth token_in token_out amount_in pool_key retry w. destruct retry.
    + apply (@rule_swap_retry_wp token_in token_out amount_in depth pool_key no_symbols
               eq_refl w).
    + apply (@rule_swap_first_wp token_in token_out amount_in depth pool_key no_symbols
               eq_refl w).
Qed.

End Run.
End Slippage.

(* ===================================================================== *)
(** * The release cap                                                     *)
(* ===================================================================== *)

Module Release.
Import Py Chain Watch Logic Trader SupplyRelease.
Local Open Scope py_scope.

Lemma minted_no_mint s ev : no_mint ev = true -> minted s ev = s.
Proof.
  destruct ev as [X c r| | |]; try reflexivity.
  destruct c; try reflexivity. destruct fn; try reflexivity. discriminate.
Qed.

Lemma books_no_booking s ev : no_booking ev = true -> books s ev = s.
Proof.
  destruct ev as [X c r| | |]; try reflexivity.
  destruct c; try reflexivity; try discriminate.
  destruct fn; try reflexivity. discriminate.
Qed.

Lemma prelude_no_booking ev : prelude ev = true -> no_booking ev = true.
Proof.
  destruct ev as [X c r| | |]; try reflexivity.
  destruct c; try reflexivity; try discriminate.
  destruct fn; try reflexivity. discriminate.
Qed.

Lemma aside_no_booking ev : aside ev = true -> no_booking ev = true.
Proof. intros H. apply prelude_no_booking, TraderFacts.aside_prelude, H. Qed.

Section Run.

Variable W : Type.
Variable respond : forall X, Call X -> W -> (Exn + X) * W.
Variable cfg : Config.
Variable trader : Trader.Trader.

Abbreviation swap_tokens_for_tokens := (Trader.swap_tokens_for_tokens respond trader).
Abbreviation run := (SupplyRelease.run respond cfg trader).
Abbreviation get_price := (SupplyRelease.get_price respond).
Abbreviation calculate_mint_amount := (SupplyRelease.calculate_mint_amount respond cfg).
Abbreviation mint_then_sell := (SupplyRelease.mint_then_sell respond cfg trader).
Abbreviation mint_and_sell := (SupplyRelease.mint_and_sell respond cfg trader).

Ltac side :=
  eapply emits_mono; [ apply TraderFacts.aside_no_mint | TraderFacts.aside_call ].

(** The swap builds no mint transaction. *)
Lemma swap_no_mint depth token_in token_out amount_in pool_key retry :
  emits no_mint (swap_tokens_for_tokens depth token_in token_out amount_in pool_key retry).
Proof.
  revert retry. induction depth as [|depth IH]; intros retry;
    cbn [Trader.swap_tokens_for_tokens].
  - apply emits_raise.
  - unfold Trader.swap_prepare, Trader.swap_build,
      Trader.swap_submit, Trader.swap_on_submit_error, Trader.check_pool_exists.
    emits_auto ltac:(first [ side | apply IH ]).
Qed.

Ltac side_booking :=
  eapply emits_mono; [ apply aside_no_booking | TraderFacts.aside_call ].

(** Nor does it write the state file. *)
Lemma swap_no_booking depth token_in token_out amount_in pool_key retry :
  emits no_booking
    (swap_tokens_for_tokens depth token_in token_out amount_in pool_key retry).
Proof.
  revert retry. induction depth as [|depth IH]; intros retry;
    cbn [Trader.swap_tokens_for_tokens].
  - apply emits_raise.
  - unfold Trader.swap_prepare, Trader.swap_build,
      Trader.swap_submit, Trader.swap_on_submit_error, Trader.check_pool_exists.
    emits_auto ltac:(first [ side_booking | apply IH ]).
Qed.

Ltac norm := cbn [books mints writes unbooked app].
Ltac known :=
  first [ eapply wp_ignored;
          [ apply swap_no_booking | exact books_no_booking | intros [?e|?v] ]
        | progress unfold SupplyRelease.get_price
        | progress unfold SupplyRelease.mint_then_sell
        | progress unfold SupplyRelease._save_state ].

Lemma calculate_mint_amount_wp st price s0 :
  wp books (calculate_mint_amount st price) s0 (amount_post cfg st s0).
Proof.
  unfold SupplyRelease.calculate_mint_amount.
  wp_run norm known.
  all: split; [reflexivity | intros ? [= <-]; eauto].
Qed.

Lemma mint_and_sell_wp st amount :
  wp books (mint_and_sell st amount) unbooked (sell_post st amount).
Proof.
  unfold SupplyRelease.mint_and_sell.
  wp_run norm known.
  all: cbn [sell_post released mints writes];
    try (apply Z.leb_le in Hif); try (apply Z.leb_gt in Hif).
  all: first [ left; repeat split; first [ reflexivity | assumption ]
             | right; repeat split; first [ reflexivity | assumption ]
             | split; [ first [ left; reflexivity | right; reflexivity ]
                      | split; [ reflexivity | assumption ] ] ].
Qed.

Ltac calc_call :=
  eapply wp_conseq;
  [ apply calculate_mint_amount_wp | intros [?e|?v] ?s [-> ?Hamount] ].
Ltac sell_call :=
  eapply wp_conseq;
  [ apply mint_and_sell_wp | intros [?e|[?st' ?raised]] ?s ?Hsell ].

Lemma books_log s lvl text : books s (EvLog lvl text) = s.
Proof. reflexivity. Qed.

Lemma run_wp st :
  released st <= release_cap cfg -> wp books (run st) unbooked (run_post cfg st).
Proof.
  intros Hcap. unfold SupplyRelease.run.
  wp_run norm ltac:(first [ known | calc_call | sell_call ]).
  all: unfold run_post; cbn [sell_post] in *.
  all: try solve [ exists st; split; [reflexivity|]; split; [assumption|];
                   split; [left; split; reflexivity|];
                   split; [left; reflexivity|];
                   split; [intros ? [] | intros _; split; reflexivity] ].
  all: rewrite Z.geb_leb in Hif0; apply Z.leb_gt in Hif0; apply Z.gtb_lt in Hif1.
  all: destruct (Hamount _ eq_refl) as [->|[amount ->]]; [lia|].
  all: repeat match goal with
              | H : _ /\ _ |- _ => destruct H
              | H : _ \/ _ |- _ => destruct H
              end; try lia.
  all: repeat match goal with
              | H : mints ?s = _ |- _ => rewrite H in *
              | H : writes ?s = _ |- _ => rewrite H in *
              end.
  all: first
         [ exists st; split; [reflexivity|]; split; [assumption|];
           split; [left; split; reflexivity|];
           split; [first [ left; reflexivity | right; eexists; reflexivity ]|];
           split; [intros ? Hin; destruct Hin as [<-|[]]; lia | lia]
         | exists st; split; [reflexivity|]; split; [assumption|];
           split; [left; split; reflexivity|];
           split; [left; reflexivity|];
           split; [intros ? [] | lia]
         | match goal with
           | Hrel : released ?st1 = released _ + _ |- _ =>
               exists st1; split; [reflexivity|]; split; [lia|];
               split; [right; eexists; split; [reflexivity|];
                       split; [reflexivity | exact Hrel]|];
               split; [right; eexists; reflexivity|];
               split; [intros ? Hin; destruct Hin as [<-|[]]; lia | lia]
           end ].
Qed.

(** ** When the counter does advance *)

Lemma result_of_bind {A B} (m : M W A) (k : A -> M W B) (w w1 : W) (a : A)
    (t1 : Trace) :
  m w = (inr a, w1, t1) -> result_of (bind m k w) = result_of (k a w1).
Proof.
  intros H. unfold bind, result_of. rewrite H.
  destruct (k a w1) as [[r w2] t2]. reflexivity.
Qed.

Lemma result_of_try {A} (m : M W A) (h : Exn -> M W A) (w : W) (a : A) :
  result_of (m w) = inr a -> result_of (try_ m h w) = inr a.
Proof.
  unfold try_, result_of. destruct (m w) as [[[e|x] w1] t1]; cbn; [discriminate|].
  intros H. exact H.
Qed.

Lemma mint_and_sell_advances st amount (w w1 : W) (d : N) (t1 : Trace) :
  0 < amount ->
  mint_then_sell amount w = (inr d, w1, t1) ->
  exists raised,
    result_of (mint_and_sell st amount w)
    = inr ({| released := released st + amount |}, raised).
Proof.
  intros Hpos Hsell. unfold SupplyRelease.mint_and_sell.
  destruct (Z.leb_spec amount 0) as [Hle|_]; [lia|].
  erewrite result_of_bind; [|exact Hsell]. cbv zeta.
  unfold try_, result_of, SupplyRelease._save_state, bind, Chain.rpc, lift, log, emit,
    ret, raise.
  cbn [released].
  destruct (respond (save_state (released st + amount)) w1) as [[e|[]] w2].
  - eexists. reflexivity.
  - destruct (int_truediv amount (10 ^ Z.of_N d)) as [e|q]; eexists; reflexivity.
Qed.

Lemma run_advances st (w w1 w2 w3 : W) (price limit : float) (amount : Z) (d : N)
    (t1 t2 t3 : Trace) :
  get_price w = (inr price, w1, t1) ->
  threshold_price cfg = inr limit ->
  fleb price limit = false ->
  released st < release_cap cfg ->
  calculate_mint_amount st price w1 = (inr amount, w2, t2) ->
  0 < amount ->
  mint_then_sell amount w2 = (inr d, w3, t3) ->
  result_of (run st w) = inr {| released := released st + amount |}.
Proof.
  intros Hprice Hlimit Habove Hunder Hcalc Hpos Hsell.
  destruct (@mint_and_sell_advances st amount w2 w3 d t3 Hpos Hsell) as [raised Hadv].
  destruct (mint_and_sell st amount w2) as [[r5 w5] t5] eqn:Hmint.
  cbn in Hadv. subst r5.
  unfold SupplyRelease.run. apply result_of_try.
  erewrite result_of_bind; [|exact Hprice]. cbv beta.
  erewrite result_of_bind; [|reflexivity]. cbv beta.
  rewrite Hlimit.
  erewrite result_of_bind; [|reflexivity]. cbv beta.
  rewrite Habove.
  replace (released st >=? release_cap cfg) with false
    by (symmetry; rewrite Z.geb_leb; apply Z.leb_gt; exact Hunder).
  erewrite result_of_bind; [|exact Hcalc]. cbv beta.
  replace (amount >? 0) with true by (symmetry; apply Z.gtb_lt; exact Hpos).
  erewrite result_of_bind; [|exact Hmint]. cbv beta iota.
  destruct raised; reflexivity.
Qed.

(** C10, as the code has it.  If the released counter starts at most
    [release_cap], then every run returns (no exception leaves [run]) a
    state whose counter is still at most [release_cap].  The counter moves
    only together with a mint: either no write of the state file was
    attempted and the state is the one the run started from, or exactly
    one mint transaction was built, the counter grew by exactly its amount,
    and the one write attempted was of the new counter (the counter is
    advanced in memory whether or not that write succeeds).  At most one
    mint transaction is built in a run, for an amount that is positive and
    at most what was left under the cap; when the counter has reached the
    cap, no mint transaction is built, nothing is written and the state is
    unchanged.  The amount [calculate_mint_amount] returns is 0 or the
    smaller of a computed amount and [release_cap - released].  And the
    counter does advance: whenever the price read is above the threshold,
    the counter is under the cap, the amount computed is positive, and the
    mint, the wait for its receipt and the sale return, the run returns
    the counter grown by exactly that amount. *)
Theorem released_stays_under_cap (st : State) (w : W) :
  released st <= release_cap cfg ->
  let out := run st w in
  let seen := observe books unbooked (trace_of out) in
  (exists st',
      result_of out = inr st' /\
      released st' <= release_cap cfg /\
      ((st' = st /\ writes seen = []) \/
       exists amount,
         mints seen = [amount] /\
         writes seen = [released st + amount] /\
         released st' = released st + amount) /\
      (mints seen = [] \/ exists amount, mints seen = [amount]) /\
      (forall amount, In amount (mints seen) ->
         0 < amount <= release_cap cfg - released st) /\
      (release_cap cfg <= released st -> seen = unbooked /\ st' = st)) /\
  (forall (price : float) (w' : W) (v : Z),
      result_of (calculate_mint_amount st price w') = inr v ->
      v = 0 \/ exists amount, v = Z.min amount (release_cap cfg - released st)) /\
  (forall (w1 w2 w3 : W) (price limit : float) (amount : Z) (d : N)
      (t1 t2 t3 : Trace),
      get_price w = (inr price, w1, t1) ->
      threshold_price cfg = inr limit ->
      fleb price limit = false ->
      released st < release_cap cfg ->
      calculate_mint_amount st price w1 = (inr amount, w2, t2) ->
      0 < amount ->
      mint_then_sell amount w2 = (inr d, w3, t3) ->
      result_of out = inr {| released := released st + amount |}).
Proof.
  intros Hcap. cbv zeta. split; [|split].
  - apply (@run_wp st Hcap w).
  - intros price w' v. apply (calculate_mint_amount_wp st price unbooked w').
  - intros. eapply run_advances; eassumption.
Qed.

End Run.
End Release.

(* ===================================================================== *)
(** * Concrete runs                                                       *)
(* ===================================================================== *)

Module Runs.
Import Py Chain Watch Trader Scenario.
Local Open Scope py_scope.

(** ** Gas-shortfall recovery *)


(** The path the claim describes: gas shortfall, one conversion, one
    re-invocation, a second shortfall, and the exception re-raised. *)
Example gas_shortfall_twice :
  let run := Sim.swap short_twice MYSO_ADDRESS USDC_ADDRESS 1000 false in
  observe tally zero (trace_of run)
    = {| conversions := 1; retries := 1; firsts := 1 |} /\
  List.length (filter submission_lacked_gas (trace_of run)) = 2%nat /\
  result_of run = inl Sim.no_gas.
Proof. vm_compute. repeat split. Qed.

(** One trade request can start two conversions: one from the approval,
    one from the swap. *)
Example two_conversions_in_one_request :
  let run := Sim.swap short_of_gas_throughout MYSO_ADDRESS USDC_ADDRESS 1000 false in
  List.length (filter conversion_started (trace_of run)) = 2%nat /\
  conversions (observe tally zero (trace_of run)) = 1%nat /\
  result_of run = inr (HexOf 6).
Proof. vm_compute. repeat split. Qed.

(** Nor is two the most: with the allowance low again in the retried swap,
    its approval starts a third conversion. *)
Example three_conversions_in_one_request :
  let run := Sim.swap short_of_gas_at_every_step MYSO_ADDRESS USDC_ADDRESS 1000 false in
  observe starts 0%nat (trace_of run) = 3%nat /\
  observe tally zero (trace_of run)
    = {| conversions := 1; retries := 1; firsts := 1 |} /\
  List.length (filter submission_lacked_gas (trace_of run)) = 3%nat /\
  result_of run = inr (HexOf 9).
Proof. vm_compute. repeat split. Qed.




(** ** Gas prices *)

(** C3 as stated fails: at a live price of 200 gwei the swap transaction is
    built with 280 gwei, where the clamped price would be 140 gwei. *)
Lemma gas_price_is_not_clamped :
  let run := Sim.swap pricey MYSO_ADDRESS USDC_ADDRESS 1000 false in
  observe built_gas_prices [] (trace_of run) = [280000000000] /\
  clamped_gas_price (Sim.gas_price pricey) f1_4 = inr 140000000000.
Proof. vm_compute. split; reflexivity. Qed.

(** ** On-chain reverts *)

Lemma reverted_swap_returns_hash_witness :
  let run := Sim.swap reverting MYSO_ADDRESS USDC_ADDRESS 1000 false in
  reverted (observe see nothing_seen (trace_of run)) = Some 77 /\
  existsb probe_failed (trace_of run) = true /\
  result_of run = inr (HexOf 77) /\
  probes (observe see nothing_seen (trace_of run)) = 1%nat.
Proof.
  cbv zeta. split; [vm_compute; reflexivity|]. split; [vm_compute; reflexivity|].
  apply (Revert.reverted_swap_returns_hash Sim.respond Sim.me 10 MYSO_ADDRESS
           USDC_ADDRESS 1000 Sim.pk false reverting).
  vm_compute. reflexivity.
Defined.

(** ** Minimum outputs *)

(** C6 as stated fails: for an input of 10^24 in a direction other than
    MYSO -> USDC the floor is 200000000000000016777216, not the fifth
    2 * 10^23 of the input; for an input of 3 it is 0. *)
Lemma floor_is_not_a_fifth :
  result_of (Trader.min_amount_out "USDC" "MYSO" (10 ^ 24) Sim.calm)
    = inr 200000000000000016777216 /\
  ~ a_fifth_of (10 ^ 24) 200000000000000016777216 /\
  result_of (Trader.min_amount_out "USDC" "MYSO" 3 Sim.calm) = inr 0 /\
  ~ a_fifth_of 3 0.
Proof.
  split; [vm_compute; reflexivity|]. split; [vm_compute; discriminate|].
  split; [vm_compute; reflexivity|]. vm_compute; discriminate.
Qed.

Lemma minimum_output_rule_witness :
  (String.eqb "USDC" "MYSO" && String.eqb "MYSO" "USDC")%bool = false /\
  Trader.min_amount_out "USDC" "MYSO" 40000 Sim.calm
  = (inr 8000, Sim.calm,
     [EvLog INFO "Using minAmountOut: {amount_out_min} (80% slippage)"]) /\
  TOKEN_SYMBOLS MYSO_ADDRESS = Some "MYSO" /\
  TOKEN_SYMBOLS USDC_ADDRESS = Some "USDC" /\
  all_by_rule "MYSO" "USDC" (10 ^ 21)
    (observe floors []
       (trace_of (Sim.swap Sim.calm MYSO_ADDRESS USDC_ADDRESS (10 ^ 21) false))) /\
  observe floors []
    (trace_of (Sim.swap Sim.calm MYSO_ADDRESS USDC_ADDRESS (10 ^ 21) false))
  = [(10 ^ 21, 1000)] /\
  TOKEN_SYMBOLS 0x1234 = None /\
  lawful (observe (rule 0x1234 USDC_ADDRESS 40000) no_symbols
            (trace_of (Sim.swap Sim.calm 0x1234 USDC_ADDRESS 40000 false))) = true /\
  observe floors [] (trace_of (Sim.swap Sim.calm 0x1234 USDC_ADDRESS 40000 false))
  = [(40000, 8000)].
Proof.
  destruct (Slippage.minimum_output_rule Sim.respond Sim.me)
    as (_ & Hother & Hswap & Hrule).
  split; [reflexivity|].
  split; [exact (Hother "USDC" "MYSO" 40000 Sim.calm eq_refl)|].
  split; [reflexivity|]. split; [reflexivity|].
  split; [apply Hswap; reflexivity|]. split; [vm_compute; reflexivity|].
  split; [reflexivity|]. split; [apply Hrule | vm_compute; reflexivity].
Defined.

(** The monitor of the rule does tell floors apart: the same run with a
    floor of 0 in its swap transaction is refused, and so is a swap built
    before the symbols are known. *)
Example rule_refuses_another_floor :
  let entry := EvEnter (enter_swap_tokens_for_tokens 0x1234 USDC_ADDRESS 40000 false) in
  let read := EvRpc (symbol 0x1234) (inr "TKN") in
  let built m :=
    EvRpc (build_transaction
             (ExactInputSingle 0x1234 USDC_ADDRESS 3000 (wallet_address Sim.me)
                40000 m 0)
             {| tx_from := wallet_address Sim.me; tx_nonce := 1; tx_gas := 500000;
                tx_gasPrice := 1400000000; tx_value := Some 0;
                tx_chainId := Some 8453 |})
          (inr {| tx_data := "0x04e45aaf";
                  tx_fields := {| tx_from := wallet_address Sim.me; tx_nonce := 1;
                                  tx_gas := 500000; tx_gasPrice := 1400000000;
                                  tx_value := Some 0; tx_chainId := Some 8453 |} |}) in
  lawful (observe (rule 0x1234 USDC_ADDRESS 40000) no_symbols [entry; read; built 8000])
    = true /\
  lawful (observe (rule 0x1234 USDC_ADDRESS 40000) no_symbols [entry; read; built 0])
    = false /\
  lawful (observe (rule 0x1234 USDC_ADDRESS 40000) no_symbols [entry; built 8000])
    = false.
Proof. vm_compute. repeat split. Qed.

(** ** The pool check *)

Lemma pool_query_error_reads_as_no_pool_witness :
  let run := Sim.swap pool_query_down MYSO_ADDRESS USDC_ADDRESS 1000 false in
  Sim.respond (getPool USDC_ADDRESS MYSO_ADDRESS 3000) pool_query_down
    = (inl too_many_requests, pool_query_down) /\
  Trader.check_pool_exists Sim.respond MYSO_ADDRESS USDC_ADDRESS 500 pool_query_down
    = (inr false, pool_query_down,
       [EvRpc (getPool USDC_ADDRESS MYSO_ADDRESS 3000) (inl too_many_requests);
        EvLog ERROR "Error checking pool existence: {e}"]) /\
  observe saw_failure false (trace_of run) = true /\
  no_liquidity_pool (result_of run) /\
  result_of run = inl (ValueError "No liquidity pool found for MYSO-USDC").
Proof.
  cbv zeta.
  destruct (PoolCheck.pool_query_error_reads_as_no_pool Sim.respond Sim.me)
    as (Hcheck & Hswap).
  split; [reflexivity|].
  split; [exact (Hcheck MYSO_ADDRESS USDC_ADDRESS 500 pool_query_down
                   pool_query_down too_many_requests eq_refl)|].
  split; [vm_compute; reflexivity|].
  split; [|vm_compute; reflexivity].
  apply Hswap. vm_compute. reflexivity.
Defined.

(** ** The release cap *)

(** C10 as stated fails: with 1000 units left under the cap and no pool
    to sell into, the run builds and submits a mint of 1000, the sale
    raises, and the run returns with the counter where it was: it has not
    grown by the amount minted. *)
Theorem minted_but_not_counted :
  let out := SupplyRelease.run Sim.respond release_cfg Sim.me nearly_released
               Ledger.no_pool in
  observe minted [] (trace_of out) = [1000] /\
  observe Safety.last_accepted None (trace_of out) = Some 1 /\
  result_of out = inr {| SupplyRelease.released := 999000 |} /\
  SupplyRelease.released nearly_released + 1000 <> 999000.
Proof. vm_compute. repeat split. discriminate. Qed.

Lemma released_stays_under_cap_witness :
  let out := SupplyRelease.run Sim.respond release_cfg Sim.me nearly_released Sim.calm in
  SupplyRelease.released nearly_released <= SupplyRelease.release_cap release_cfg /\
  (exists st',
      result_of out = inr st' /\
      SupplyRelease.released st' <= SupplyRelease.release_cap release_cfg) /\
  result_of out = inr {| SupplyRelease.released := 1000000 |} /\
  observe books unbooked (trace_of out)
  = {| mints := [1000]; writes := [1000000] |}.
Proof.
  cbv zeta.
  assert (Hcap : SupplyRelease.released nearly_released
                 <= SupplyRelease.release_cap release_cfg) by (cbn; lia).
  split; [exact Hcap|].
  split; [|split; vm_compute; reflexivity].
  destruct (Release.released_stays_under_cap Sim.respond release_cfg Sim.me
              nearly_released Sim.calm Hcap) as [(st' & Hres & Hle & _) _].
  exists st'. split; [exact Hres | exact Hle].
Defined.

(** ** The registry *)

Lemma ensure_wallets_monotone_witness :
  let m5 := snd (Wallets.ensure_wallets Wallets.demo_address Wallets.demo_key 5
                   Wallets.empty_manager) in
  (2 <= 5)%nat /\
  snd (Wallets.ensure_wallets Wallets.demo_address Wallets.demo_key 2 m5) = m5 /\
  List.length (Wallets.wallets m5) = 5%nat.
Proof.
  cbv zeta.
  destruct (WalletsSpec.ensure_wallets_monotone Wallets.demo_address Wallets.demo_key
              5 Wallets.empty_manager) as (_ & Hlen & _ & _ & Hless & _).
  split; [lia|]. split; [exact (Hless 2%nat ltac:(lia)) | exact Hlen].
Defined.

End Runs.

(* ===================================================================== *)
(** * The registry and its file                                           *)
(* ===================================================================== *)

Module StorageSpec.
Import Py Wallets Storage.

(** ** Lists of entries *)

Lemma str_in_In (x : string) (l : list string) : str_in x l = true <-> In x l.
Proof.
  unfold str_in. rewrite existsb_exists. split.
  - intros (y & Hy & Heq). apply String.eqb_eq in Heq. subst. exact Hy.
  - intros H. exists x. split; [exact H | apply String.eqb_refl].
Qed.

Lemma str_in_false (x : string) (l : list string) : ~ In x l -> str_in x l = false.
Proof.
  intros H. destruct (str_in x l) eqn:E; [|reflexivity].
  apply str_in_In in E. contradiction.
Qed.

Lemma str_in_app (x : string) (l l' : list string) :
  str_in x (l ++ l') = (str_in x l || str_in x l')%bool.
Proof. unfold str_in. apply existsb_app. Qed.

Lemma set_active_same (wd : WalletData) : set_active wd (wd_active wd) = wd.
Proof. destruct wd. reflexivity. Qed.

Lemma In_firstn {A} (x : A) (n : nat) (l : list A) : In x (firstn n l) -> In x l.
Proof.
  intros H. rewrite <- (firstn_skipn n l). apply in_or_app. left. exact H.
Qed.

Lemma NoDup_firstn_skipn {A} (n : nat) (l : list A) :
  NoDup l -> forall x, In x (firstn n l) -> ~ In x (skipn n l).
Proof.
  revert l. induction n as [|n IH]; intros l Hnd x Hin; [destruct Hin|].
  destruct l as [|y l]; [destruct Hin|].
  apply NoDup_cons_iff in Hnd as [Hy Hnd]. cbn [firstn skipn] in *.
  destruct Hin as [<-|Hin].
  - intros Hs. apply Hy. rewrite <- (firstn_skipn n l). apply in_or_app. right. exact Hs.
  - apply IH; assumption.
Qed.

(** Entries with their [active] flag recomputed by [g]. *)
Lemma filter_retag (g : WalletData -> bool) (d : list WalletData) :
  map (fun wd => {| private_key := wd_private_key wd |})
      (filter wd_active (map (fun wd => set_active wd (g wd)) d))
  = map (fun wd => {| private_key := wd_private_key wd |}) (filter g d).
Proof.
  induction d as [|wd d IH]; [reflexivity|].
  cbn [map filter]. cbn [set_active wd_active].
  destruct (g wd); cbn [map]; rewrite IH; reflexivity.
Qed.

Lemma map_identity_retag (g : WalletData -> bool) (d : list WalletData) :
  map identity (map (fun wd => set_active wd (g wd)) d) = map identity d.
Proof. rewrite map_map. apply map_ext. intros wd. reflexivity. Qed.

Lemma map_address_identity (d d' : list WalletData) :
  map identity d = map identity d' -> map wd_address d = map wd_address d'.
Proof.
  intros H. apply (f_equal (map fst)) in H. rewrite !map_map in H. exact H.
Qed.

(** Among entries with distinct addresses, the addresses of the entries
    selected by [P] tell the selected entries from the others. *)
Lemma flag_of_entry (P : WalletData -> bool) (d : list WalletData) :
  NoDup (map wd_address d) ->
  forall wd, In wd d ->
    str_in (wd_address wd) (map wd_address (filter P d)) = P wd.
Proof.
  induction d as [|x d IH]; intros Hnd wd Hin; [destruct Hin|].
  cbn [map] in Hnd. apply NoDup_cons_iff in Hnd as [Hx Hnd].
  assert (Hsub : forall a, In a (map wd_address (filter P d)) -> In a (map wd_address d)).
  { intros a Ha. apply in_map_iff in Ha as (y & <- & Hy).
    apply filter_In in Hy as [Hy _]. apply in_map, Hy. }
  destruct Hin as [<-|Hin].
  - cbn [filter]. destruct (P x) eqn:HP.
    + cbn [map str_in existsb]. rewrite String.eqb_refl. reflexivity.
    + apply str_in_false. intros Ha. apply Hx, Hsub, Ha.
  - cbn [filter]. destruct (P x) eqn:HP.
    + cbn [map]. change (str_in (wd_address wd) (wd_address x :: ?l))
        with ((wd_address wd =? wd_address x)%string || str_in (wd_address wd) l)%bool.
      destruct (String.eqb_spec (wd_address wd) (wd_address x)) as [Heq|_].
      * exfalso. apply Hx. rewrite <- Heq. apply in_map, Hin.
      * cbn [orb]. apply IH; assumption.
    + apply IH; assumption.
Qed.

Lemma NoDup_map_filter (P : WalletData -> bool) (d : list WalletData) :
  NoDup (map wd_address d) -> NoDup (map wd_address (filter P d)).
Proof.
  induction d as [|x d IH]; intros Hnd; [constructor|].
  cbn [map] in Hnd. apply NoDup_cons_iff in Hnd as [Hx Hnd].
  cbn [filter]. destruct (P x); [|apply IH, Hnd].
  cbn [map]. constructor; [|apply IH, Hnd].
  intros Ha. apply Hx. apply in_map_iff in Ha as (y & <- & Hy).
  apply filter_In in Hy as [Hy _]. apply in_map, Hy.
Qed.

(** The first [j] of the selected entries are the entries whose address is
    among theirs. *)
Lemma filter_firstn (P : WalletData -> bool) (j : nat) (d : list WalletData) :
  NoDup (map wd_address d) ->
  filter (fun wd => str_in (wd_address wd) (map wd_address (firstn j (filter P d)))) d
  = firstn j (filter P d).
Proof.
  revert j. induction d as [|x d IH]; intros j Hnd.
  - cbn. destruct j; reflexivity.
  - cbn [map] in Hnd. apply NoDup_cons_iff in Hnd as [Hx Hnd].
    assert (Hout : forall k, ~ In (wd_address x)
                               (map wd_address (firstn k (filter P d)))).
    { intros k Ha. apply Hx. apply in_map_iff in Ha as (y & <- & Hy).
      apply In_firstn in Hy. apply filter_In in Hy as [Hy _]. apply in_map, Hy. }
    cbn [filter]. destruct (P x) eqn:HP.
    + destruct j as [|j].
      * cbn [firstn map str_in existsb]. clear. induction d; [reflexivity|assumption].
      * cbn [firstn map].
        change (str_in (wd_address x) (wd_address x :: ?l))
          with ((wd_address x =? wd_address x)%string || str_in (wd_address x) l)%bool.
        rewrite String.eqb_refl. cbn [orb]. f_equal.
        etransitivity; [|apply (IH j Hnd)]. apply filter_ext_in. intros wd Hwd.
        change (str_in (wd_address wd) (wd_address x :: ?l))
          with ((wd_address wd =? wd_address x)%string || str_in (wd_address wd) l)%bool.
        destruct (String.eqb_spec (wd_address wd) (wd_address x)) as [Heq|_];
          [|reflexivity].
        exfalso. apply Hx. rewrite <- Heq. apply in_map, Hwd.
    + rewrite (str_in_false _ _ (Hout j)). apply IH, Hnd.
Qed.

Section Registry.

Variable address_of_key : string -> string.
Variable entropy : nat -> string.
Variable from_key_error : string -> option Exn.

Abbreviation get_address := (Wallets.get_address address_of_key).
Abbreviation get_wallet_data := (Wallets.get_wallet_data address_of_key).
Abbreviation create_wallet := (Wallets.create_wallet address_of_key entropy).
Abbreviation ensure_loop := (Wallets.ensure_loop address_of_key entropy).
Abbreviation ensure_wallets := (Wallets.ensure_wallets address_of_key entropy).
Abbreviation update_wallet_stats := (Wallets.update_wallet_stats address_of_key).
Abbreviation deactivate_wallets := (Wallets.deactivate_wallets address_of_key).
Abbreviation consistent := (Storage.consistent address_of_key entropy).
Abbreviation reachable := (Storage.reachable address_of_key entropy from_key_error).
Abbreviation MultiWalletManager_init := (Storage.MultiWalletManager_init from_key_error).

(** ** [deactivate_wallets] splits the pool *)

(** Whatever the count, the pool is cut at one index: the wallets before
    it are kept, the wallets from it on are deactivated. *)
Lemma deactivate_wallets_cut (count : Z) (m : Manager) :
  exists j : nat,
    wallets (snd (deactivate_wallets count m)) = firstn j (wallets m) /\
    fst (deactivate_wallets count m) = map get_address (skipn j (wallets m)) /\
    file (snd (deactivate_wallets count m))
    = FileData
        (map (fun wd => if str_in (wd_address wd)
                             (map get_address (skipn j (wallets m)))
                        then set_active wd false else wd)
             (map (fun wd => set_active wd
                               (str_in (wd_address wd)
                                  (map get_address (firstn j (wallets m)))))
                  (entries (file m)))).
Proof.
  unfold Wallets.deactivate_wallets.
  destruct (count >=? Z.of_nat (List.length (wallets m))).
  - exists 0%nat. cbn. repeat split.
  - exists (slice_index (wallets m) (- count)). cbn. repeat split.
Qed.

(** X1. Whatever the count (zero and negative counts included),
    [deactivate_wallets] loses no wallet and reports none twice: the
    wallets kept, followed by the wallets reported as deactivated, are the
    pool as it was, in order; the file keeps as many entries as before, and
    every entry whose address is reported is written inactive. *)
Theorem deactivate_wallets_partitions_pool (count : Z) (m : Manager) :
  let deactivated := fst (deactivate_wallets count m) in
  let m' := snd (deactivate_wallets count m) in
  map get_address (wallets m') ++ deactivated = map get_address (wallets m) /\
  (exists j : nat, wallets m' = firstn j (wallets m)) /\
  List.length (entries (file m')) = List.length (entries (file m)) /\
  (forall wd, In wd (entries (file m')) -> In (wd_address wd) deactivated ->
     wd_active wd = false).
Proof.
  cbv zeta. destruct (deactivate_wallets_cut count m) as (j & Hkept & Hgone & Hfile).
  rewrite Hkept, Hgone, Hfile. cbn [entries]. repeat split.
  - rewrite <- map_app, firstn_skipn. reflexivity.
  - exists j. reflexivity.
  - rewrite !length_map. reflexivity.
  - intros wd Hin Haddr. apply in_map_iff in Hin as (wd1 & <- & Hin).
    apply in_map_iff in Hin as (wd0 & <- & _).
    destruct wd0 as [a k b st]. unfold set_active in *. cbn [wd_address] in *.
    destruct (str_in a (map get_address (skipn j (wallets m)))) eqn:E.
    + reflexivity.
    + cbn [wd_address] in Haddr. apply str_in_In in Haddr. congruence.
Qed.

(** ** [update_wallet_stats] *)

Lemma dict_get_set_same (k : string) (v default : num) (d : Stats) :
  dict_get k default (dict_set k v d) = v.
Proof.
  induction d as [|[k' v'] d IH]; cbn.
  - rewrite String.eqb_refl. reflexivity.
  - destruct (String.eqb_spec k' k) as [->|Hk]; cbn.
    + rewrite String.eqb_refl. reflexivity.
    + destruct (String.eqb_spec k' k); [contradiction|]. exact IH.
Qed.

Lemma dict_get_set_other (k k' : string) (v default : num) (d : Stats) :
  k <> k' -> dict_get k' default (dict_set k v d) = dict_get k' default d.
Proof.
  intros Hk. induction d as [|[k0 v0] d IH]; cbn.
  - destruct (String.eqb_spec k k'); [contradiction|]. reflexivity.
  - destruct (String.eqb_spec k0 k) as [->|Hk0]; cbn.
    + destruct (String.eqb_spec k k'); [contradiction|]. reflexivity.
    + destruct (String.eqb_spec k0 k'); [reflexivity|]. exact IH.
Qed.

Lemma update_first_shape (address : string) (amount : num) (d d' : list WalletData) :
  update_first address amount d = inr d' ->
  (absent address d /\ d' = d) \/
  (exists pre wd wd' post,
      d = pre ++ wd :: post /\ d' = pre ++ wd' :: post /\
      absent address pre /\ lower (wd_address wd) = lower address /\
      bump_stats amount wd = inr wd').
Proof.
  revert d'. induction d as [|x d IH]; intros d' H; cbn [update_first] in H.
  - injection H as <-. left. split; reflexivity.
  - destruct (String.eqb_spec (lower (wd_address x)) (lower address)) as [Heq|Hne].
    + destruct (bump_stats amount x) as [e|x'] eqn:Hb; [discriminate|].
      injection H as <-. right. exists [], x, x', d. repeat split; assumption.
    + destruct (update_first address amount d) as [e|rest] eqn:Hrest; [discriminate|].
      injection H as <-. apply String.eqb_neq in Hne.
      destruct (IH rest eq_refl) as [[Habs ->]|(pre & wd & wd' & post & -> & -> & Habs & Hm & Hb)].
      * left. split; [|reflexivity]. unfold absent in *. cbn [forallb].
        rewrite Hne, Habs. reflexivity.
      * right. exists (x :: pre), wd, wd', post. repeat split; try assumption.
        unfold absent in *. cbn [forallb]. rewrite Hne, Habs. reflexivity.
Qed.

Lemma bump_stats_spec (amount : num) (wd wd' : WalletData) :
  bump_stats amount wd = inr wd' ->
  identity wd' = identity wd /\ wd_active wd' = wd_active wd /\
  exists st',
    wd_stats wd' = Some st' /\
    num_add (dict_get "trades" (PInt 0) (stats_before wd)) (PInt 1)
      = inr (dict_get "trades" (PInt 0) st') /\
    num_add (dict_get "volume" (PInt 0) (stats_before wd)) amount
      = inr (dict_get "volume" (PInt 0) st') /\
    (forall k default, k <> "trades" -> k <> "volume" ->
       dict_get k default st' = dict_get k default (stats_before wd)).
Proof.
  unfold bump_stats. fold (stats_before wd). intros H.
  destruct (num_add (dict_get "trades" (PInt 0) (stats_before wd)) (PInt 1))
    as [e|t] eqn:Ht; [discriminate|].
  rewrite dict_get_set_other in H by discriminate.
  destruct (num_add (dict_get "volume" (PInt 0) (stats_before wd)) amount)
    as [e|v] eqn:Hv; [discriminate|].
  injection H as <-. repeat split.
  eexists. split; [reflexivity|]. repeat split.
  - rewrite dict_get_set_other by discriminate. rewrite dict_get_set_same. reflexivity.
  - rewrite dict_get_set_same. reflexivity.
  - intros k default Hk1 Hk2.
    rewrite !dict_get_set_other by (intros E; symmetry in E; contradiction).
    reflexivity.
Qed.

Lemma absent_as_listed (address : string) (m : Manager) (d : list WalletData) :
  absent address (map (as_listed address_of_key m) d) <-> absent address d.
Proof.
  unfold absent. induction d as [|wd d IH]; [reflexivity|].
  cbn [map forallb]. cbn [as_listed set_active wd_address].
  destruct (negb (lower (wd_address wd) =? lower address)%string); [exact IH|].
  reflexivity.
Qed.

Lemma as_listed_agreeing (m : Manager) (d : list WalletData) :
  Forall (fun wd => wd_active wd
                    = str_in (wd_address wd) (map get_address (wallets m))) d ->
  map (as_listed address_of_key m) d = d.
Proof.
  intros H. induction H as [|wd d Hwd _ IH]; [reflexivity|].
  cbn [map]. rewrite IH. unfold as_listed. rewrite <- Hwd, set_active_same.
  reflexivity.
Qed.

(** X2. A successful [update_wallet_stats] leaves the pool alone and
    rewrites the file from the entries it read.  Every entry is written
    with the address, the key and the stats read and with its [active]
    flag set to whether its address is in the pool, whatever the flag read
    was; only the first entry whose address equals the given one in lower
    case differs further: its [trades] grows by one, its [volume] by the
    amount, and every other key of its stats is kept.  Later entries with
    the same address, and every entry when none matches, get the flag of
    the pool and nothing else; when the flags read agree with the pool,
    they are written back as read. *)
Theorem update_wallet_stats_touches_one_entry (address : string) (amount : num)
    (m m' : Manager) :
  update_wallet_stats address amount m = inr m' ->
  let read := entries (file m) in
  let listed := as_listed address_of_key m in
  wallets m' = wallets m /\
  ((absent address read /\ file m' = FileData (map listed read)) \/
   (exists pre wd wd' post,
       read = pre ++ wd :: post /\
       file m' = FileData (map listed pre ++ wd' :: map listed post) /\
       absent address pre /\ lower (wd_address wd) = lower address /\
       identity wd' = identity wd /\
       wd_active wd' = str_in (wd_address wd) (map get_address (wallets m)) /\
       exists st',
         wd_stats wd' = Some st' /\
         num_add (dict_get "trades" (PInt 0) (stats_before wd)) (PInt 1)
           = inr (dict_get "trades" (PInt 0) st') /\
         num_add (dict_get "volume" (PInt 0) (stats_before wd)) amount
           = inr (dict_get "volume" (PInt 0) st') /\
         (forall k default, k <> "trades" -> k <> "volume" ->
            dict_get k default st' = dict_get k default (stats_before wd)))) /\
  (Forall (fun wd => wd_active wd
                     = str_in (wd_address wd) (map get_address (wallets m))) read ->
   map listed read = read).
Proof.
  cbv zeta. unfold Wallets.update_wallet_stats. intros H.
  assert (Hlisted : get_wallet_data m
                    = map (as_listed address_of_key m) (entries (file m)))
    by reflexivity.
  destruct (update_first address amount (get_wallet_data m)) as [e|d'] eqn:Hd;
    [discriminate|].
  injection H as <-. cbn [wallets file _save_wallets]. split; [reflexivity|].
  split; [|apply as_listed_agreeing].
  destruct (update_first_shape _ _ _ Hd)
    as [[Habs ->]|(pre0 & wd0 & wd' & post0 & Hsplit & -> & Habs & Hm & Hb)].
  - left. rewrite Hlisted in *. split; [apply absent_as_listed in Habs; exact Habs|].
    reflexivity.
  - right. rewrite Hlisted in Hsplit.
    apply map_eq_app in Hsplit as (pre & rest & Hread & Hpre & Hrest).
    apply map_eq_cons in Hrest as (wd & post & -> & Hwd & Hpost).
    subst pre0 wd0 post0.
    exists pre, wd, wd', post.
    destruct (bump_stats_spec _ _ Hb) as (Hid & Hact & Hst).
    split; [exact Hread|]. split; [reflexivity|].
    split; [apply absent_as_listed in Habs; exact Habs|].
    split; [exact Hm|]. split; [exact Hid|]. split; [exact Hact|].
    exact Hst.
Qed.

(** ** The file keeps its entries *)

Lemma get_wallet_data_identity (m : Manager) :
  map identity (get_wallet_data m) = map identity (entries (file m)).
Proof. unfold Wallets.get_wallet_data. apply map_identity_retag. Qed.

Lemma ensure_loop_identity (count : Z) (m : Manager) :
  exists added,
    map identity (entries (file (ensure_loop count m)))
    = map identity (entries (file m)) ++ added.
Proof.
  funelim (Wallets.ensure_loop address_of_key entropy count m).
  - destruct H as (added & Hadd). rewrite Hadd.
    unfold Wallets.create_wallet. cbn [snd file _save_wallets entries].
    rewrite map_app, get_wallet_data_identity. cbn [file entries].
    rewrite <- app_assoc. eexists. reflexivity.
  - exists []. rewrite app_nil_r. reflexivity.
Qed.

Lemma update_wallet_stats_shape (address : string) (amount : num) (m m' : Manager) :
  update_wallet_stats address amount m = inr m' ->
  file m' = FileData (get_wallet_data m) \/
  (exists pre wd wd' post,
      get_wallet_data m = pre ++ wd :: post /\
      file m' = FileData (pre ++ wd' :: post) /\
      identity wd' = identity wd).
Proof.
  unfold Wallets.update_wallet_stats. intros H.
  destruct (update_first address amount (get_wallet_data m)) as [e|d'] eqn:Hd;
    [discriminate|].
  injection H as <-. cbn [file _save_wallets].
  destruct (update_first_shape _ _ _ Hd)
    as [[_ ->]|(pre & wd & wd' & post & Hsplit & -> & _ & _ & Hb)].
  - left. reflexivity.
  - right. exists pre, wd, wd', post.
    destruct (bump_stats_spec _ _ Hb) as (Hid & _). repeat split; assumption.
Qed.

(** X3. No method removes an entry from the wallets file or changes the
    address or the private key of one: [create_wallet] writes the entries
    it read followed by the new one, [ensure_wallets] only appends,
    [deactivate_wallets] and [update_wallet_stats] write the same
    addresses and keys in the same order. *)
Theorem file_keeps_every_entry (m : Manager) :
  map identity (entries (file (snd (create_wallet m))))
  = map identity (entries (file m))
    ++ [(address_of_key (entropy (drawn m)), entropy (drawn m))] /\
  (forall count, exists added,
      map identity (entries (file (snd (ensure_wallets count m))))
      = map identity (entries (file m)) ++ added) /\
  (forall count,
      map identity (entries (file (snd (deactivate_wallets count m))))
      = map identity (entries (file m))) /\
  (forall address amount m',
      update_wallet_stats address amount m = inr m' ->
      map identity (entries (file m')) = map identity (entries (file m))).
Proof.
  split; [|split; [|split]].
  - unfold Wallets.create_wallet. cbn [snd file _save_wallets entries].
    rewrite map_app, get_wallet_data_identity. reflexivity.
  - intros count. apply ensure_loop_identity.
  - intros count. destruct (deactivate_wallets_cut count m) as (j & _ & _ & ->).
    cbn [entries]. rewrite !map_map. apply map_ext. intros wd.
    destruct (str_in _ _); reflexivity.
  - intros address amount m' H.
    destruct (update_wallet_stats_shape _ _ _ H) as [Hd|Hd].
    + rewrite Hd. cbn [entries]. apply get_wallet_data_identity.
    + destruct Hd as (pre & wd & wd' & post & Hsplit & -> & Hid).
      cbn [entries]. rewrite <- get_wallet_data_identity, Hsplit, !map_app.
      cbn [map]. rewrite Hid. reflexivity.
Qed.

(** ** Restarts *)

Section Restart.

(** Keys are written with the [0x] prefix, [Account.from_key] accepts the
    keys [Account.create] made, and different keys have different
    addresses. *)
Hypothesis keys_prefixed : forall n, String.prefix "0x" (entropy n) = true.
Hypothesis keys_accepted : forall n, from_key_error (entropy n) = None.
Hypothesis addresses_distinct :
  forall i j, address_of_key (entropy i) = address_of_key (entropy j) -> i = j.

Abbreviation keyed n :=
  (fun wd => exists i, (i < n)%nat /\ wd_private_key wd = entropy i /\
                       wd_address wd = address_of_key (entropy i)).
Abbreviation mk := (fun wd => {| private_key := wd_private_key wd |}).
Abbreviation retag g := (map (fun wd => set_active wd (g wd))).

Lemma keyed_addresses (n : nat) (d l : list WalletData) :
  Forall (keyed n) d -> incl l d ->
  map get_address (map mk l) = map wd_address l.
Proof.
  intros Hk Hl. rewrite map_map. apply map_ext_in. intros wd Hin.
  rewrite Forall_forall in Hk. destruct (Hk wd (Hl wd Hin)) as (i & _ & Hkey & Haddr).
  unfold Wallets.get_address. cbn [private_key]. rewrite Hkey, Haddr. reflexivity.
Qed.

Lemma keyed_retag (n n' : nat) (g : WalletData -> bool) (d : list WalletData) :
  (n <= n')%nat -> Forall (keyed n) d -> Forall (keyed n') (retag g d).
Proof.
  intros Hn Hk. apply Forall_forall. intros wd Hin.
  apply in_map_iff in Hin as (wd0 & <- & Hin).
  rewrite Forall_forall in Hk. destruct (Hk wd0 Hin) as (i & Hi & Hkey & Haddr).
  exists i. repeat split; [lia | exact Hkey | exact Haddr].
Qed.

Lemma incl_filter (P : WalletData -> bool) (d : list WalletData) : incl (filter P d) d.
Proof. intros wd H. apply filter_In in H as [H _]. exact H. Qed.

Lemma get_wallet_data_consistent (m : Manager) (d : list WalletData) :
  file m = FileData d ->
  Forall (keyed (drawn m)) d ->
  NoDup (map wd_address d) ->
  wallets m = map mk (filter wd_active d) ->
  get_wallet_data m = d.
Proof.
  intros Hf Hk Hnd Hw. unfold Wallets.get_wallet_data. rewrite Hf, Hw.
  rewrite (keyed_addresses Hk (incl_filter _ _)).
  rewrite <- (map_id d) at 2. apply map_ext_in. intros wd Hin.
  rewrite (flag_of_entry wd_active d Hnd wd Hin). apply set_active_same.
Qed.

Lemma consistent_create (m : Manager) : consistent m -> consistent (snd (create_wallet m)).
Proof.
  intros (d & Hf & Hk & Hnd & Hw).
  assert (Hfresh : ~ In (address_of_key (entropy (drawn m))) (map wd_address d)).
  { intros Hin. apply in_map_iff in Hin as (wd & Haddr & Hin).
    rewrite Forall_forall in Hk. destruct (Hk wd Hin) as (i & Hi & _ & Haddr').
    rewrite Haddr' in Haddr. apply addresses_distinct in Haddr. lia. }
  unfold Wallets.create_wallet. cbn [snd].
  set (g := fun wd : WalletData =>
              str_in (wd_address wd)
                (map get_address (wallets m ++ [{| private_key := entropy (drawn m) |}]))).
  assert (Hg : forall wd, In wd d -> g wd = wd_active wd).
  { intros wd Hin. unfold g. rewrite map_app, str_in_app, Hw.
    rewrite (keyed_addresses Hk (incl_filter _ _)).
    rewrite (flag_of_entry wd_active d Hnd wd Hin).
    cbn [map str_in existsb]. unfold Wallets.get_address. cbn [private_key].
    destruct (String.eqb_spec (wd_address wd) (address_of_key (entropy (drawn m))))
      as [Heq|_]; [|rewrite !orb_false_r; reflexivity].
    exfalso. apply Hfresh. rewrite <- Heq. apply in_map, Hin. }
  exists (retag g d ++ [{| wd_address := address_of_key (entropy (drawn m));
                          wd_private_key := entropy (drawn m);
                          wd_active := true;
                          wd_stats := Some [("trades", PInt 0); ("volume", PInt 0)] |}]).
  cbn [file wallets drawn _save_wallets]. repeat split.
  - unfold Wallets.get_wallet_data. cbn [file wallets]. rewrite Hf. reflexivity.
  - apply Forall_app. split.
    + apply keyed_retag with (n := drawn m); [lia | exact Hk].
    + constructor; [|constructor]. exists (drawn m). repeat split. lia.
  - rewrite map_app. cbn [map wd_address].
    replace (map wd_address (retag g d)) with (map wd_address d)
      by (rewrite map_map; apply map_ext; reflexivity).
    apply NoDup_app; [exact Hnd | constructor; [intros []|constructor] |].
    intros a Ha [<-|[]]. exact (Hfresh Ha).
  - rewrite filter_app, map_app, filter_retag. cbn [filter wd_active map wd_private_key].
    rewrite (filter_ext_in g wd_active d Hg), Hw. reflexivity.
Qed.

Lemma consistent_ensure_loop (count : Z) (m : Manager) :
  consistent m -> consistent (ensure_loop count m).
Proof.
  funelim (Wallets.ensure_loop address_of_key entropy count m); intros Hc.
  - apply H, consistent_create, Hc.
  - exact Hc.
Qed.

Lemma consistent_deactivate (count : Z) (m : Manager) :
  consistent m -> consistent (snd (deactivate_wallets count m)).
Proof.
  intros (d & Hf & Hk & Hnd & Hw).
  destruct (deactivate_wallets_cut count m) as (j & Hkept & _ & Hfile).
  rewrite Hf in Hfile. cbn [entries] in Hfile.
  set (A := filter wd_active d) in *.
  assert (Hfirst : map get_address (firstn j (wallets m)) = map wd_address (firstn j A)).
  { rewrite Hw, firstn_map. apply (keyed_addresses Hk).
    intros wd Hin. apply In_firstn in Hin. exact (incl_filter wd_active d wd Hin). }
  assert (Hskip : map get_address (skipn j (wallets m)) = map wd_address (skipn j A)).
  { rewrite Hw, skipn_map. apply (keyed_addresses Hk).
    intros wd Hin. apply (incl_filter wd_active d). change (In wd A).
    rewrite <- (firstn_skipn j A). apply in_or_app. right. exact Hin. }
  rewrite Hfirst, Hskip in Hfile.
  set (h := fun wd : WalletData => str_in (wd_address wd) (map wd_address (firstn j A))).
  assert (Hmap :
    map (fun wd => if str_in (wd_address wd) (map wd_address (skipn j A))
                   then set_active wd false else wd)
        (retag h d) = retag h d).
  { rewrite <- (map_id (retag h d)) at 2. apply map_ext_in. intros wd Hin.
    apply in_map_iff in Hin as (wd0 & <- & _).
    destruct wd0 as [a k b st]. unfold set_active, h. cbn [wd_address].
    destruct (str_in a (map wd_address (skipn j A))) eqn:Es; [|reflexivity].
    replace (str_in a (map wd_address (firstn j A))) with false; [reflexivity|].
    symmetry. apply str_in_false. intros Hin. apply str_in_In in Es. revert Es.
    rewrite <- skipn_map. rewrite <- firstn_map in Hin.
    apply NoDup_firstn_skipn; [|exact Hin]. apply NoDup_map_filter, Hnd. }
  exists (retag h d). repeat split.
  - rewrite Hfile. f_equal. exact Hmap.
  - replace (drawn (snd (deactivate_wallets count m))) with (drawn m)
      by (unfold Wallets.deactivate_wallets;
          destruct (count >=? Z.of_nat (List.length (wallets m))); reflexivity).
    apply keyed_retag with (n := drawn m); [lia | exact Hk].
  - replace (map wd_address (retag h d)) with (map wd_address d)
      by (rewrite map_map; apply map_ext; reflexivity).
    exact Hnd.
  - rewrite Hkept, Hw, firstn_map, filter_retag. f_equal. symmetry.
    apply filter_firstn, Hnd.
Qed.

Lemma consistent_update (address : string) (amount : num) (m m' : Manager) :
  consistent m -> update_wallet_stats address amount m = inr m' -> consistent m'.
Proof.
  intros (d & Hf & Hk & Hnd & Hw) H.
  pose proof (get_wallet_data_consistent m Hf Hk Hnd Hw) as Hd.
  unfold Wallets.update_wallet_stats in H. rewrite Hd in H.
  destruct (update_first address amount d) as [e|d'] eqn:Hu; [discriminate|].
  injection H as <-. cbn [consistent].
  destruct (update_first_shape _ _ _ Hu)
    as [[_ ->]|(pre & wd & wd' & post & -> & -> & _ & _ & Hb)].
  - exists d. repeat split; assumption.
  - destruct (bump_stats_spec _ _ Hb) as (Hid & Hact & _).
    injection Hid as Haddr Hkey.
    exists (pre ++ wd' :: post). cbn [file drawn wallets _save_wallets]. repeat split.
    + apply Forall_app in Hk as [Hpre Hrest]. apply Forall_app. split; [exact Hpre|].
      apply Forall_cons_iff in Hrest as [(i & Hi & Hki & Hai) Hpost].
      constructor; [|exact Hpost]. exists i. repeat split; [exact Hi | congruence | congruence].
    + rewrite map_app in *. cbn [map] in *. rewrite Haddr. exact Hnd.
    + rewrite Hw, !filter_app, !map_app. cbn [filter]. rewrite Hact.
      destruct (wd_active wd); cbn [map]; rewrite ?Hkey; reflexivity.
Qed.

Lemma load_active_keyed (n : nat) (d : list WalletData) :
  Forall (keyed n) d ->
  load_active from_key_error d = inr (map mk (filter wd_active d)).
Proof.
  induction d as [|wd d IH]; intros Hk; [reflexivity|].
  apply Forall_cons_iff in Hk as [(i & _ & Hkey & _) Hk].
  cbn [load_active filter]. rewrite (IH Hk).
  destruct (wd_active wd); [|reflexivity].
  unfold Wallet_init. rewrite Hkey.
  destruct (String.eqb_spec (entropy i) "") as [He|_].
  - pose proof (keys_prefixed i) as Hp. rewrite He in Hp. discriminate.
  - rewrite keys_prefixed, keys_accepted. cbn [map]. rewrite Hkey. reflexivity.
Qed.

Lemma restart_consistent (m : Manager) :
  consistent m -> MultiWalletManager_init (file m) (drawn m) = inr m.
Proof.
  intros (d & Hf & Hk & _ & Hw).
  unfold Storage.MultiWalletManager_init, _load_wallets. cbn [file drawn].
  rewrite Hf, (load_active_keyed Hk), <- Hw, <- Hf. destruct m. reflexivity.
Qed.

Lemma reachable_consistent (m : Manager) : reachable m -> consistent m.
Proof.
  induction 1 as [n m Hinit|m _ IH|count m _ IH|count m _ IH
                  |address amount m m' _ IH Hup|m m' _ IH Hinit].
  - injection Hinit as <-. exists []. cbn. repeat split; constructor.
  - apply consistent_create, IH.
  - apply consistent_ensure_loop, IH.
  - apply consistent_deactivate, IH.
  - exact (consistent_update _ _ IH Hup).
  - rewrite (restart_consistent IH) in Hinit. injection Hinit as <-. exact IH.
Qed.

(** *** Inactive entries stay inactive *)

Abbreviation same_or_off :=
  (fun wd wd' : WalletData =>
     identity wd' = identity wd /\ (wd_active wd' = true -> wd_active wd = true)).

Lemma never_reactivates_refl (d : list WalletData) : never_reactivates d d.
Proof.
  exists d, []. split; [rewrite app_nil_r; reflexivity|].
  induction d; constructor; [split; [reflexivity | trivial] | assumption].
Qed.

Lemma same_or_off_trans (d d' d'' : list WalletData) :
  Forall2 same_or_off d d' -> Forall2 same_or_off d' d'' -> Forall2 same_or_off d d''.
Proof.
  intros H. revert d''. induction H as [|x y l l' [Hid Hact] _ IH]; intros d'' H'.
  - inversion H'. constructor.
  - inversion H' as [|y' z l1 l2 [Hid' Hact'] Hrest]; subst. constructor.
    + split; [congruence | auto].
    + apply IH, Hrest.
Qed.

Lemma never_reactivates_trans (d d' d'' : list WalletData) :
  never_reactivates d d' -> never_reactivates d' d'' -> never_reactivates d d''.
Proof.
  intros (kept & added & -> & H) (kept' & added' & -> & H').
  apply Forall2_app_inv_l in H' as (k1 & k2 & H1 & H2 & ->).
  exists k1, (k2 ++ added'). split; [rewrite app_assoc; reflexivity|].
  exact (same_or_off_trans H H1).
Qed.

Lemma retag_same_or_off (g : WalletData -> bool) (d : list WalletData) :
  (forall wd, In wd d -> g wd = true -> wd_active wd = true) ->
  Forall2 same_or_off d (retag g d).
Proof.
  induction d as [|wd d IH]; intros Hg; cbn [map]; constructor.
  - split; [reflexivity|]. cbn [set_active wd_active]. apply Hg. left. reflexivity.
  - apply IH. intros wd' Hin. apply Hg. right. exact Hin.
Qed.

Lemma create_never_reactivates (m : Manager) :
  consistent m ->
  never_reactivates (entries (file m)) (entries (file (snd (create_wallet m)))).
Proof.
  intros Hc. destruct (consistent_create Hc) as (d' & Hf' & _).
  destruct Hc as (d & Hf & Hk & Hnd & Hw).
  pose proof (get_wallet_data_consistent m Hf Hk Hnd Hw) as Hd.
  unfold Wallets.create_wallet, Wallets.get_wallet_data in *.
  cbn [snd file wallets _save_wallets entries] in *. rewrite Hf in *. cbn [entries].
  eexists. eexists. split; [reflexivity|].
  apply retag_same_or_off. intros wd Hin Hg.
  rewrite map_app, str_in_app in Hg. apply orb_prop in Hg as [Hg|Hg].
  - rewrite Hw, (keyed_addresses Hk (incl_filter _ _)) in Hg.
    rewrite (flag_of_entry wd_active d Hnd wd Hin) in Hg. exact Hg.
  - exfalso. cbn [map str_in existsb] in Hg. rewrite orb_false_r in Hg.
    apply String.eqb_eq in Hg. unfold Wallets.get_address in Hg. cbn [private_key] in Hg.
    rewrite Forall_forall in Hk. destruct (Hk wd Hin) as (i & Hi & _ & Haddr).
    rewrite Haddr in Hg. apply addresses_distinct in Hg. lia.
Qed.

Lemma ensure_never_reactivates (count : Z) (m : Manager) :
  consistent m ->
  never_reactivates (entries (file m)) (entries (file (ensure_loop count m))).
Proof.
  funelim (Wallets.ensure_loop address_of_key entropy count m); intros Hc.
  - eapply never_reactivates_trans; [apply create_never_reactivates, Hc|].
    apply H, consistent_create, Hc.
  - apply never_reactivates_refl.
Qed.

Lemma deactivate_never_reactivates (count : Z) (m : Manager) :
  consistent m ->
  never_reactivates (entries (file m))
    (entries (file (snd (deactivate_wallets count m)))).
Proof.
  intros (d & Hf & Hk & Hnd & Hw).
  destruct (deactivate_wallets_cut count m) as (j & _ & _ & Hfile).
  rewrite Hfile, Hf. cbn [entries].
  exists (map (fun wd => if str_in (wd_address wd)
                              (map get_address (skipn j (wallets m)))
                         then set_active wd false else wd)
              (retag (fun wd => str_in (wd_address wd)
                                  (map get_address (firstn j (wallets m)))) d)), [].
  split; [rewrite app_nil_r; reflexivity|].
  rewrite map_map.
  assert (Hin : forall wd, In wd d -> In wd d) by trivial. revert Hin.
  generalize d at 1 3 4. intros l. induction l as [|wd l IH]; intros Hl; cbn [map];
    constructor.
  - destruct wd as [a k b st]. unfold set_active. cbn [wd_address].
    destruct (str_in a (map get_address (skipn j (wallets m))));
      (split; [reflexivity|]); cbn [wd_active]; [discriminate|].
    intros Hg. rewrite Hw in Hg.
    assert (Ha : In a (map wd_address (filter wd_active d))).
    { apply str_in_In in Hg. rewrite <- firstn_map in Hg. apply In_firstn in Hg.
      rewrite (keyed_addresses Hk (incl_filter _ _)) in Hg. exact Hg. }
    apply str_in_In in Ha.
    pose proof (flag_of_entry wd_active d Hnd
                  {| wd_address := a; wd_private_key := k; wd_active := b;
                     wd_stats := st |}
                  (Hl _ (or_introl eq_refl))) as Hflag.
    cbn [wd_address wd_active] in Hflag. congruence.
  - apply IH. intros wd' H'. apply Hl. right. exact H'.
Qed.

Lemma update_never_reactivates (address : string) (amount : num) (m m' : Manager) :
  consistent m -> update_wallet_stats address amount m = inr m' ->
  never_reactivates (entries (file m)) (entries (file m')).
Proof.
  intros (d & Hf & Hk & Hnd & Hw) H.
  pose proof (get_wallet_data_consistent m Hf Hk Hnd Hw) as Hd.
  unfold Wallets.update_wallet_stats in H. rewrite Hd in H.
  destruct (update_first address amount d) as [e|d'] eqn:Hu; [discriminate|].
  injection H as <-. rewrite Hf. cbn [file entries _save_wallets].
  destruct (update_first_shape _ _ _ Hu)
    as [[_ ->]|(pre & wd & wd' & post & -> & -> & _ & _ & Hb)].
  - apply never_reactivates_refl.
  - destruct (bump_stats_spec _ _ Hb) as (Hid & Hact & _).
    exists (pre ++ wd' :: post), []. split; [rewrite app_nil_r; reflexivity|].
    apply Forall2_app.
    + clear. induction pre; constructor; [split; [reflexivity|trivial] | assumption].
    + constructor; [split; [exact Hid | congruence]|].
      clear. induction post; constructor; [split; [reflexivity|trivial] | assumption].
Qed.

(** X5. A deactivated wallet is never taken back.  From a manager
    obtained as in X4, whatever method is called next, every entry of the
    file keeps its place, its address and its key, and no entry that was
    inactive is written active again: [ensure_wallets] fills the pool with
    new keys, never with the deactivated ones. *)
Theorem inactive_entries_stay_inactive (m : Manager) :
  reachable m ->
  never_reactivates (entries (file m)) (entries (file (snd (create_wallet m)))) /\
  (forall count,
      never_reactivates (entries (file m))
        (entries (file (snd (ensure_wallets count m))))) /\
  (forall count,
      never_reactivates (entries (file m))
        (entries (file (snd (deactivate_wallets count m))))) /\
  (forall address amount m',
      update_wallet_stats address amount m = inr m' ->
      never_reactivates (entries (file m)) (entries (file m'))).
Proof.
  intros H. apply reachable_consistent in H. repeat split.
  - apply create_never_reactivates, H.
  - intros count. apply ensure_never_reactivates, H.
  - intros count. apply deactivate_never_reactivates, H.
  - intros address amount m' Hup. exact (update_never_reactivates _ _ H Hup).
Qed.

(** X4. Restarting gives the manager back.  For a manager obtained by
    constructing one where no file exists and then creating, ensuring,
    deactivating, updating and restarting in any order, a new manager
    constructed on the file it left has the same pool, in the same order,
    and finds the file as it was left; in particular a wallet that was
    deactivated stays out of the pool. *)
Theorem restart_restores_pool (m : Manager) :
  reachable m -> MultiWalletManager_init (file m) (drawn m) = inr m.
Proof. intros H. apply restart_consistent, reachable_consistent, H. Qed.

End Restart.

End Registry.

(** ** Concrete registries *)

Lemma length_append (s t : string) :
  String.length (String.append s t) = (String.length s + String.length t)%nat.
Proof. induction s as [|c s IH]; cbn; [reflexivity | rewrite IH; reflexivity]. Qed.

Lemma length_demo_key (n : nat) : String.length (demo_key n) = (3 + n)%nat.
Proof.
  induction n as [|n IH]; [reflexivity|].
  cbn [demo_key]. rewrite length_append, IH. cbn. lia.
Qed.

Lemma hex_key_addresses_distinct (i j : nat) :
  demo_address (hex_key i) = demo_address (hex_key j) -> i = j.
Proof.
  unfold demo_address, hex_key. cbn [String.append]. intros H.
  injection H as H. apply (f_equal String.length) in H.
  rewrite !length_demo_key in H. lia.
Qed.

Lemma hex_key_prefixed (n : nat) : String.prefix "0x" (hex_key n) = true.
Proof. unfold hex_key. cbn. destruct (demo_key n); reflexivity. Qed.

(** A registry started where no file exists, filled to three wallets, the
    last of which is then deactivated. *)
Lemma three_less_one_reachable :
  reachable demo_address hex_key (fun _ => None)
    (snd (Wallets.deactivate_wallets demo_address 1
            (snd (Wallets.ensure_wallets demo_address hex_key 3
                    {| wallets := []; file := FileData []; drawn := 0 |})))).
Proof.
  apply reachable_deactivate, reachable_ensure.
  apply reachable_new with (drawn := 0%nat). reflexivity.
Qed.

Lemma deactivate_wallets_partitions_pool_witness :
  In "addr:key'" (fst (Wallets.deactivate_wallets demo_address 0 two_wallets)) /\
  forall wd,
    In wd (entries (file (snd (Wallets.deactivate_wallets demo_address 0 two_wallets)))) ->
    In (wd_address wd) (fst (Wallets.deactivate_wallets demo_address 0 two_wallets)) ->
    wd_active wd = false.
Proof.
  split; [vm_compute; tauto|].
  apply (deactivate_wallets_partitions_pool demo_address 0 two_wallets).
Defined.

(** An update for an address the file does not list, on a file whose
    one entry is flagged inactive while its wallet is in the pool: the
    entry is written back active. *)
Lemma update_wallet_stats_touches_one_entry_witness :
  let m := {| wallets := wallets one_wallet;
              file := FileData (map (fun wd => set_active wd false)
                                    (entries (file one_wallet)));
              drawn := drawn one_wallet |} in
  exists m',
    Wallets.update_wallet_stats demo_address "0xabsent" (PInt 7) m = inr m' /\
    wallets m' = wallets m /\
    map wd_active (entries (file m)) = [false] /\
    map wd_active (entries (file m')) = [true] /\
    file m' = FileData (map (as_listed demo_address m) (entries (file m))).
Proof.
  cbv zeta. eexists. split; [vm_compute; reflexivity|].
  destruct (@update_wallet_stats_touches_one_entry demo_address "0xabsent" (PInt 7)
              {| wallets := wallets one_wallet;
                 file := FileData (map (fun wd => set_active wd false)
                                       (entries (file one_wallet)));
                 drawn := drawn one_wallet |} _ eq_refl)
    as (Hpool & _ & _).
  split; [exact Hpool|]. split; [reflexivity|]. split; reflexivity.
Defined.

Lemma file_keeps_every_entry_witness :
  exists m',
    Wallets.update_wallet_stats demo_address "addr:key'" (PFloat f0_2) two_wallets
      = inr m' /\
    map identity (entries (file m')) = map identity (entries (file two_wallets)).
Proof.
  eexists. split; [vm_compute; reflexivity|].
  destruct (file_keeps_every_entry demo_address demo_key two_wallets)
    as (_ & _ & _ & Hupdate).
  apply (Hupdate "addr:key'" (PFloat f0_2)). reflexivity.
Defined.

Lemma restart_restores_pool_witness :
  let m := snd (Wallets.deactivate_wallets demo_address 1
                  (snd (Wallets.ensure_wallets demo_address hex_key 3
                          {| wallets := []; file := FileData []; drawn := 0 |}))) in
  (forall n, String.prefix "0x" (hex_key n) = true) /\
  (forall i j, demo_address (hex_key i) = demo_address (hex_key j) -> i = j) /\
  reachable demo_address hex_key (fun _ => None) m /\
  MultiWalletManager_init (fun _ => None) (file m) (drawn m) = inr m /\
  map private_key (wallets m) = ["0xkey"; "0xkey'"].
Proof.
  cbv zeta.
  pose proof hex_key_prefixed as Hp.
  split; [exact Hp|]. split; [exact hex_key_addresses_distinct|].
  split; [exact three_less_one_reachable|].
  split; [|vm_compute; reflexivity].
  apply (@restart_restores_pool demo_address hex_key (fun _ => None) Hp
           (fun _ => eq_refl) hex_key_addresses_distinct).
  exact three_less_one_reachable.
Defined.

Lemma inactive_entries_stay_inactive_witness :
  let m := snd (Wallets.deactivate_wallets demo_address 1
                  (snd (Wallets.ensure_wallets demo_address hex_key 3
                          {| wallets := []; file := FileData []; drawn := 0 |}))) in
  never_reactivates (entries (file m))
    (entries (file (snd (Wallets.ensure_wallets demo_address hex_key 3 m)))) /\
  map wd_active (entries (file (snd (Wallets.ensure_wallets demo_address hex_key 3 m))))
  = [true; true; false; true].
Proof.
  cbv zeta. split; [|vm_compute; reflexivity].
  apply (@inactive_entries_stay_inactive demo_address hex_key (fun _ => None)
           hex_key_prefixed (fun _ => eq_refl) hex_key_addresses_distinct _
           three_less_one_reachable).
Defined.

End StorageSpec.

(* ===================================================================== *)
(** * The trader's helpers and what a swap never does                     *)
(* ===================================================================== *)

Module TraderSpec.
Import Py Chain Watch Logic Trader Safety.
Local Open Scope py_scope.

Section Run.

Variable W : Type.
Variable respond : forall X, Call X -> W -> (Exn + X) * W.
Variable self : Trader.

Abbreviation M := (Chain.M W).
Abbreviation rpc := (Chain.rpc respond).
Abbreviation get_token_symbol := (Trader.get_token_symbol respond).
Abbreviation get_token_balance := (Trader.get_token_balance respond self).
Abbreviation get_token_allowance := (Trader.get_token_allowance respond self).
Abbreviation check_pool_exists := (Trader.check_pool_exists respond).
Abbreviation swap_usdc_for_eth := (Trader.swap_usdc_for_eth respond self).
Abbreviation approve_token := (Trader.approve_token respond self).
Abbreviation swap_prepare := (Trader.swap_prepare respond self).
Abbreviation swap_tokens_for_tokens := (Trader.swap_tokens_for_tokens respond self).

(** ** [check_pool_exists] *)

(** X6. [check_pool_exists] does not depend on the order of the two tokens
    nor on the fee it is given: it asks the factory for the pool of the
    smaller address, the larger address and the fee 3000.  It never raises:
    it answers [True] exactly when the factory returns an address other
    than zero, and [False] when the factory returns zero or the query
    fails. *)
Theorem check_pool_exists_ignores_order_and_fee :
  (forall (token_a token_b : Address) (fee fee' : Z),
      check_pool_exists token_a token_b fee = check_pool_exists token_b token_a fee') /\
  (forall (token_a token_b : Address) (fee : Z) (w : W),
      result_of (check_pool_exists token_a token_b fee w)
      = inr (match fst (respond (getPool (Z.min token_a token_b)
                                   (Z.max token_a token_b) 3000) w) with
             | inr pool_address => negb (pool_address =? ZERO_ADDRESS)
             | inl _ => false
             end)).
Proof.
  split.
  - intros token_a token_b fee fee'. unfold Trader.check_pool_exists.
    destruct (Z.gtb_spec token_a token_b) as [Hab|Hab];
      destruct (Z.gtb_spec token_b token_a) as [Hba|Hba]; try reflexivity; try lia.
    assert (token_a = token_b) by lia. subst. reflexivity.
  - intros token_a token_b fee w. unfold Trader.check_pool_exists.
    destruct (Z.gtb_spec token_a token_b) as [Hab|Hab].
    + rewrite Z.min_r, Z.max_l by lia.
      unfold try_, bind, Chain.rpc, result_of.
      destruct (respond (getPool token_b token_a 3000) w) as [[e|a] w']; cbn;
        [reflexivity|]. destruct (a =? ZERO_ADDRESS); reflexivity.
    + rewrite Z.min_l, Z.max_r by lia.
      unfold try_, bind, Chain.rpc, result_of.
      destruct (respond (getPool token_a token_b 3000) w) as [[e|a] w']; cbn;
        [reflexivity|]. destruct (a =? ZERO_ADDRESS); reflexivity.
Qed.

(** ** [pool_key] *)

(** X7. The [pool_key] argument of [swap_tokens_for_tokens] has no effect:
    two calls that differ only in it behave alike, request by request (the
    fee of the pool is fixed to 3000 inside the method). *)
Theorem swap_ignores_pool_key (depth : nat) (token_in token_out : Address)
    (amount_in : Z) (pool_key pool_key' : PoolKey) (retry : bool) :
  swap_tokens_for_tokens depth token_in token_out amount_in pool_key retry
  = swap_tokens_for_tokens depth token_in token_out amount_in pool_key' retry.
Proof.
  revert retry. induction depth as [|depth IH]; intros retry; [reflexivity|].
  cbn [Trader.swap_tokens_for_tokens]. rewrite (IH true). reflexivity.
Qed.

(** ** [approve_token] *)

Lemma get_token_symbol_no_transaction a : emits no_transaction (get_token_symbol a).
Proof. unfold Trader.get_token_symbol. emits_auto fail. Qed.

Lemma get_token_symbol_returns a (w : W) :
  exists sym, result_of (get_token_symbol a w) = inr sym.
Proof.
  unfold Trader.get_token_symbol. destruct (TOKEN_SYMBOLS a); [eexists; reflexivity|].
  unfold try_, Chain.rpc, result_of.
  destruct (respond (symbol a) w) as [[e|sym] w1]; eexists; reflexivity.
Qed.

(** Running a sequence whose first step is an event, or a request with a
    known answer. *)
Lemma run_bind_emit {B} (ev : Event) (k : unit -> M B) (w : W) :
  bind (emit ev) k w
  = (fst (fst (k tt w)), snd (fst (k tt w)), ev :: snd (k tt w)).
Proof. unfold bind, emit. destruct (k tt w) as [[r w2] t2]. reflexivity. Qed.

Lemma run_bind_rpc {X B} (c : Call X) (k : X -> M B) (w w' : W) (a : X) :
  respond c w = (inr a, w') ->
  bind (rpc c) k w
  = (fst (fst (k a w')), snd (fst (k a w')), EvRpc c (inr a) :: snd (k a w')).
Proof.
  intros H. unfold bind, Chain.rpc. rewrite H.
  destruct (k a w') as [[r w2] t2]. reflexivity.
Qed.

(** X8. When the allowance read already covers the amount,
    [approve_token] returns the dummy hash ["0x0"] and builds, signs and
    submits no transaction, on a first call as on a retried one. *)
Theorem approve_token_enough_allowance (depth : nat) (token spender : Address)
    (amount allowance_read : Z) (retry : bool) (w w' : W) :
  respond (allowance token (wallet_address self) spender) w = (inr allowance_read, w') ->
  amount <= allowance_read ->
  let run := approve_token (S depth) token spender amount retry w in
  result_of run = inr Hex0x0 /\ forallb no_transaction (trace_of run) = true.
Proof.
  intros Hread Hle. cbv zeta. cbn [Trader.approve_token].
  unfold enter. rewrite run_bind_emit.
  unfold Trader.get_token_allowance. rewrite (run_bind_rpc _ Hread).
  replace (allowance_read >=? amount) with true by (symmetry; apply Z.geb_le; lia).
  pose proof (get_token_symbol_no_transaction token w') as Hsym.
  destruct (get_token_symbol_returns token w') as (sym & Hret).
  unfold bind, result_of, trace_of, log, emit in *.
  destruct (get_token_symbol token w') as [[[e|sym'] w1] t1]; cbn in *;
    [discriminate|].
  split; [reflexivity|]. rewrite forallb_app, Hsym. reflexivity.
Qed.

(** ** [swap_usdc_for_eth] *)

Lemma conversion_calls_no_entry s ev : no_entry ev = true -> conversion_calls s ev = s.
Proof. destruct ev as [X c r| | |f]; try reflexivity. discriminate. Qed.

Lemma swap_usdc_for_eth_attempt_no_entry :
  emits no_entry (Trader.swap_usdc_for_eth_attempt respond self).
Proof.
  unfold Trader.swap_usdc_for_eth_attempt, Trader.get_token_balance,
    Trader.get_token_allowance, Trader.unwrap_weth.
  emits_auto fail.
Qed.

Ltac attempt_call :=
  eapply wp_ignored;
  [ apply swap_usdc_for_eth_attempt_no_entry | exact conversion_calls_no_entry
  | intros [?e|?v] ].

(** The call that finds the retry count at 2 or more gives up at once. *)
Lemma conversion_gives_up (depth : nat) (retry_count : Z) (s0 : nat) :
  2 <= retry_count ->
  wp conversion_calls (swap_usdc_for_eth (S depth) retry_count) s0
     (fun r s => r = inr None /\ s = S s0).
Proof.
  intros H. cbn [Trader.swap_usdc_for_eth].
  replace (retry_count >=? 2) with true by (symmetry; apply Z.geb_le; lia).
  wp_run idtac fail. split; reflexivity.
Qed.

Lemma conversion_second_call (depth : nat) (s0 : nat) :
  wp conversion_calls (swap_usdc_for_eth (S (S depth)) 1) s0
     (fun r s => (exists x, r = inr x) /\ (s <= 2 + s0)%nat).
Proof.
  cbn [Trader.swap_usdc_for_eth]. change (1 >=? 2) with false. cbv iota.
  apply wp_bind, wp_emit. cbn [conversion_calls].
  apply wp_try. attempt_call.
  - apply wp_bind, wp_emit. cbn [conversion_calls]. change (1 + 1) with 2.
    eapply wp_conseq; [apply conversion_gives_up; lia|].
    intros r s [-> ->]. split; [eexists; reflexivity | lia].
  - split; [eexists; reflexivity | lia].
Qed.

Lemma conversion_first_call (depth : nat) (s0 : nat) :
  wp conversion_calls (swap_usdc_for_eth (S (S (S depth))) 0) s0
     (fun r s => (exists x, r = inr x) /\ (s <= 3 + s0)%nat).
Proof.
  cbn [Trader.swap_usdc_for_eth]. change (0 >=? 2) with false. cbv iota.
  apply wp_bind, wp_emit. cbn [conversion_calls].
  apply wp_try. attempt_call.
  - apply wp_bind, wp_emit. cbn [conversion_calls]. change (0 + 1) with 1.
    eapply wp_conseq; [apply conversion_second_call|].
    intros r s [Hr Hs]. split; [exact Hr | lia].
  - split; [eexists; reflexivity | lia].
Qed.

(** X9. The emergency conversion never raises.  With room for three
    nested calls, [swap_usdc_for_eth()] returns a hash or [None] whatever
    the node answers: every exception of an attempt is caught and leads to
    one more call, and the call that finds the retry count at 2 gives up;
    so the method is entered at most three times and makes at most two
    attempts.  A call with a retry count of 2 or more returns [None]
    without any request. *)
Theorem swap_usdc_for_eth_never_raises :
  (forall (depth : nat) (w : W),
      (3 <= depth)%nat ->
      let run := swap_usdc_for_eth depth 0 w in
      (exists x, result_of run = inr x) /\
      (observe conversion_calls 0%nat (trace_of run) <= 3)%nat) /\
  (forall (depth : nat) (retry_count : Z) (w : W),
      2 <= retry_count ->
      swap_usdc_for_eth (S depth) retry_count w
      = (inr None, w,
         [EvEnter (enter_swap_usdc_for_eth retry_count);
          EvLog ERROR "Failed to swap USDC for ETH after multiple attempts"])).
Proof.
  split.
  - intros depth w Hd. cbv zeta.
    destruct depth as [|[|[|depth]]]; try lia.
    destruct (conversion_first_call depth 0%nat w) as [Hr Hs].
    split; [exact Hr | lia].
  - intros depth retry_count w H. cbn [Trader.swap_usdc_for_eth].
    replace (retry_count >=? 2) with true by (symmetry; apply Z.geb_le; lia).
    reflexivity.
Qed.

End Run.

End TraderSpec.

(* ===================================================================== *)
(** * A swap is built only after the pool was found                       *)
(* ===================================================================== *)

Module PoolGuard.
Import Py Chain Watch Logic Trader Safety.
Local Open Scope py_scope.

Lemma pool_guard_aside s ev : aside ev = true -> pool_guard s ev = s.
Proof.
  destruct ev as [X c r|lvl text|secs|f]; try reflexivity.
  - destruct c; try reflexivity; try discriminate.
    destruct fn; try reflexivity; discriminate.
  - destruct f; try reflexivity. discriminate.
Qed.

Section Run.

Variable W : Type.
Variable respond : forall X, Call X -> W -> (Exn + X) * W.
Variable self : Trader.

Abbreviation swap_prepare := (Trader.swap_prepare respond self).
Abbreviation swap_tokens_for_tokens := (Trader.swap_tokens_for_tokens respond self).

Ltac use_facts :=
  repeat match goal with
         | H : found _ = _ |- _ => rewrite H
         | H : guarded _ = _ |- _ => rewrite H
         end.
Ltac norm := cbn [pool_guard found guarded]; use_facts; cbn [andb].
Ltac known := first [ wp_aside pool_guard_aside | wp_unfold ].

Lemma guard_swap_prepare_wp depth token_in token_out amount_in s0 :
  wp pool_guard (swap_prepare depth token_in token_out amount_in) s0 (checked_post s0).
Proof.
  unfold Trader.swap_prepare, Trader.check_pool_exists.
  wp_run norm known.
  all: unfold checked_post; cbn [found guarded]; split;
    [ reflexivity | intros ? [=]; try reflexivity ].
Qed.

Ltac prepare_call :=
  eapply wp_conseq;
  [ apply guard_swap_prepare_wp
  | intros [?e|[? ?]] ?s [?Hguard ?Hfound];
    [ | pose proof (Hfound _ eq_refl) ] ].

Ltac leaf :=
  unfold guarded_post in *; cbn [found guarded] in *; intros; use_facts;
  rewrite ?andb_true_r in *;
  repeat match goal with
         | H : guarded ?s = true -> guarded _ = true, H0 : guarded ?s = true |- _ =>
             specialize (H H0)
         end;
  use_facts; try reflexivity; try assumption.

Lemma guard_swap_retry_wp depth token_in token_out amount_in pool_key s0 :
  wp pool_guard
     (swap_tokens_for_tokens depth token_in token_out amount_in pool_key true)
     s0 (guarded_post s0).
Proof.
  destruct depth as [|depth]; cbn [Trader.swap_tokens_for_tokens].
  - apply wp_raise. intros H; exact H.
  - wp_run norm ltac:(first [ prepare_call | known ]). all: leaf.
Qed.

Ltac retry_call :=
  eapply wp_conseq; [ apply guard_swap_retry_wp | intros [?e|?v] ?s ?Hretry ].

Lemma guard_swap_first_wp depth token_in token_out amount_in pool_key s0 :
  wp pool_guard
     (swap_tokens_for_tokens depth token_in token_out amount_in pool_key false)
     s0 (guarded_post s0).
Proof.
  destruct depth as [|depth]; cbn [Trader.swap_tokens_for_tokens].
  - apply wp_raise. intros H; exact H.
  - wp_run norm ltac:(first [ prepare_call | known | retry_call ]). all: leaf.
Qed.

(** X10. No swap transaction without a pool.  In every run of
    [swap_tokens_for_tokens], first attempt or retried, each swap
    transaction is built after the factory, asked since the method was last
    entered, answered with an address other than zero: when the factory
    answers zero, or the query fails, nothing is built for the swap. *)
Theorem swap_built_only_after_pool_found (depth : nat) (token_in token_out : Address)
    (amount_in : Z) (pool_key : PoolKey) (retry : bool) (w : W) :
  guarded (observe pool_guard unchecked
             (trace_of (swap_tokens_for_tokens depth token_in token_out amount_in
                          pool_key retry w))) = true.
Proof.
  destruct retry.
  - apply (guard_swap_retry_wp depth token_in token_out amount_in pool_key unchecked w).
    reflexivity.
  - apply (guard_swap_first_wp depth token_in token_out amount_in pool_key unchecked w).
    reflexivity.
Qed.

End Run.

End PoolGuard.

(* ===================================================================== *)
(** * The hash a swap returns                                             *)
(* ===================================================================== *)

Module Accepted.
Import Py Chain Watch Logic Trader Safety.
Local Open Scope py_scope.

Section Run.

Variable W : Type.
Variable respond : forall X, Call X -> W -> (Exn + X) * W.
Variable self : Trader.

Abbreviation M := (Chain.M W).
Abbreviation swap_tokens_for_tokens := (Trader.swap_tokens_for_tokens respond self).

(** Any computation, when nothing is asked of it. *)
Lemma wp_any {S A} (step : S -> Event -> S) (m : M A) (s : S) :
  wp step m s (fun _ _ => True).
Proof. intros w. exact I. Qed.

Ltac norm := cbn [last_accepted].
Ltac any_call :=
  lazymatch goal with
  | |- wp _ (Trader.swap_prepare _ _ _ _ _ _) _ _ => idtac
  | |- wp _ (Trader.min_amount_out _ _ _) _ _ => idtac
  | |- wp _ (Trader.get_token_balance _ _ _) _ _ => idtac
  | |- wp _ (Trader.swap_usdc_for_eth _ _ _ _) _ _ => idtac
  end;
  eapply wp_conseq; [ apply wp_any | intros [?e|?v] ?s _ ].
Ltac known := first [ any_call | wp_unfold ].
Ltac leaf :=
  unfold accepted_post in *; intros;
  first [ discriminate
        | match goal with
          | H : inr _ = inr _ |- _ => injection H as <-; eexists; split; reflexivity
          end
        | eauto ].

Lemma accepted_swap_retry_wp depth token_in token_out amount_in pool_key s0 :
  wp last_accepted
     (swap_tokens_for_tokens depth token_in token_out amount_in pool_key true)
     s0 accepted_post.
Proof.
  destruct depth as [|depth]; cbn [Trader.swap_tokens_for_tokens].
  - apply wp_raise. leaf.
  - wp_run norm known. all: leaf.
Qed.

Ltac retry_call :=
  eapply wp_conseq; [ apply accepted_swap_retry_wp | intros [?e|?v] ?s ?Hretry ].

Lemma accepted_swap_first_wp depth token_in token_out amount_in pool_key s0 :
  wp last_accepted
     (swap_tokens_for_tokens depth token_in token_out amount_in pool_key false)
     s0 accepted_post.
Proof.
  destruct depth as [|depth]; cbn [Trader.swap_tokens_for_tokens].
  - apply wp_raise. leaf.
  - wp_run norm ltac:(first [ known | retry_call ]). all: leaf.
Qed.

(** X11. What [swap_tokens_for_tokens] returns is the hash of a
    transaction the node accepted: whenever the call returns, first attempt
    or retried, with or without a recovery in between, the value is the hex
    string of the hash the node answered to the latest submission it
    accepted in the run, and never the dummy ["0x0"] of [approve_token]. *)
Theorem swap_returns_latest_accepted_hash (depth : nat) (token_in token_out : Address)
    (amount_in : Z) (pool_key : PoolKey) (retry : bool) (w : W) (x : HexStr) :
  let run := swap_tokens_for_tokens depth token_in token_out amount_in pool_key
               retry w in
  result_of run = inr x ->
  exists h, x = HexOf h /\ observe last_accepted None (trace_of run) = Some h.
Proof.
  cbv zeta. destruct retry.
  - apply (accepted_swap_retry_wp depth token_in token_out amount_in pool_key None w).
  - apply (accepted_swap_first_wp depth token_in token_out amount_in pool_key None w).
Qed.

End Run.

End Accepted.

(* ===================================================================== *)
(** * What the emergency conversion spends                                *)
(* ===================================================================== *)

Module ConversionSpec.
Import Py Chain Watch Logic Trader Safety.
Local Open Scope py_scope.

Section Run.

Variable W : Type.
Variable respond : forall X, Call X -> W -> (Exn + X) * W.
Variable self : Trader.

Abbreviation swap_usdc_for_eth := (Trader.swap_usdc_for_eth respond self).

Ltac eval_eqb :=
  repeat match goal with
         | |- context [Z.eqb ?a ?a] => rewrite (Z.eqb_refl a)
         | |- context [WETH_ADDRESS =? USDC_ADDRESS] =>
             change (WETH_ADDRESS =? USDC_ADDRESS) with false
         end.
Ltac norm :=
  cbn [conversion usdc_read decimals_read approved sound]; eval_eqb; cbv iota;
  cbn [usdc_read decimals_read approved sound].
Ltac known :=
  first [ progress unfold Trader.get_token_balance
        | progress unfold Trader.get_token_allowance
        | progress unfold Trader.unwrap_weth ].

Ltac leaf :=
  unfold sound_post; cbn [usdc_read decimals_read approved sound];
  let H := fresh in
  intros H; rewrite ?H; unfold amount_as_read, conversion_amount;
  cbn [usdc_read decimals_read approved sound];
  repeat match goal with
         | E : float_mul_int _ _ = inr _ |- _ => rewrite E
         | E : int_mul_float _ _ = inr _ |- _ => rewrite E
         end;
  rewrite ?Z.eqb_refl; cbn [andb];
  try reflexivity;
  try (match goal with
       | E : (?x <=? 0) = false |- _ =>
           apply Z.leb_gt in E; apply Z.ltb_lt in E; rewrite E; reflexivity
       end).

(** One attempt, from the state the entry of the method leaves. *)
Lemma sound_attempt_wp (s0 : Conversion) :
  wp conversion (Trader.swap_usdc_for_eth_attempt respond self)
     {| usdc_read := None; decimals_read := None; approved := None; sound := sound s0 |}
     (fun _ s => sound_post s0 s).
Proof.
  unfold Trader.swap_usdc_for_eth_attempt.
  wp_run norm known. all: leaf.
Qed.

Lemma sound_swap_usdc_for_eth_wp (depth : nat) (retry_count : Z) (s0 : Conversion) :
  wp conversion (swap_usdc_for_eth depth retry_count) s0 (fun _ s => sound_post s0 s).
Proof.
  revert retry_count s0. induction depth as [|depth IH]; intros retry_count s0;
    cbn [Trader.swap_usdc_for_eth].
  - apply wp_raise. intros H; exact H.
  - apply wp_bind, wp_emit. cbn [conversion].
    destruct (retry_count >=? 2).
    + apply wp_bind, wp_emit. apply wp_ret. intros H; exact H.
    + apply wp_try. eapply wp_conseq; [apply sound_attempt_wp|].
      intros [e|v] s Hs; [|exact Hs].
      apply wp_bind, wp_emit. cbn [conversion].
      eapply wp_conseq; [apply IH|]. intros r s' Hs' H0. apply Hs', Hs, H0.
Qed.

(** X12. What a conversion spends.  In every run of [swap_usdc_for_eth],
    each swap transaction it builds sells USDC for WETH through the fee
    tier 3000 with a minimum output of 1 and no price limit, for an amount
    that is positive and equal to
    [min(int(0.1 * 10**decimals), int(balance * 0.2))] of the USDC balance
    and decimals read in that call; and when the call built an approval
    first, the approval is of USDC for exactly twice that amount. *)
Theorem conversion_spends_as_read (depth : nat) (retry_count : Z) (w : W) :
  sound (observe conversion nothing_read
           (trace_of (swap_usdc_for_eth depth retry_count w))) = true.
Proof.
  apply (sound_swap_usdc_for_eth_wp depth retry_count nothing_read w). reflexivity.
Qed.

End Run.

End ConversionSpec.

(* ===================================================================== *)
(** * Senders, recipients, spenders and nonces                            *)
(* ===================================================================== *)

Module BuiltSpec.
Import Py Chain Watch Logic Trader Safety.
Local Open Scope py_scope.

Lemma built_reads_only self s ev : reads_only ev = true -> built self s ev = s.
Proof.
  destruct ev as [X c r| | |]; try reflexivity.
  destruct c; try reflexivity; discriminate.
Qed.

Section Run.

Variable W : Type.
Variable respond : forall X, Call X -> W -> (Exn + X) * W.
Variable self : Trader.

Abbreviation swap_usdc_for_eth := (Trader.swap_usdc_for_eth respond self).
Abbreviation approve_token := (Trader.approve_token respond self).
Abbreviation swap_prepare := (Trader.swap_prepare respond self).
Abbreviation swap_tokens_for_tokens := (Trader.swap_tokens_for_tokens respond self).

Lemma get_token_symbol_reads_only a :
  emits reads_only (Trader.get_token_symbol respond a).
Proof. unfold Trader.get_token_symbol. emits_auto fail. Qed.

Lemma get_token_balance_reads_only a :
  emits reads_only (Trader.get_token_balance respond self a).
Proof. unfold Trader.get_token_balance. emits_auto fail. Qed.

Lemma get_token_allowance_reads_only a b :
  emits reads_only (Trader.get_token_allowance respond self a b).
Proof. unfold Trader.get_token_allowance. emits_auto fail. Qed.

Lemma check_pool_exists_reads_only a b fee :
  emits reads_only (Trader.check_pool_exists respond a b fee).
Proof. unfold Trader.check_pool_exists. emits_auto fail. Qed.

Lemma min_amount_out_reads_only a b amount :
  emits reads_only (Trader.min_amount_out (W:=W) a b amount).
Proof. unfold Trader.min_amount_out. emits_auto fail. Qed.

Ltac reads_call :=
  eapply wp_ignored;
  [ first [ apply get_token_symbol_reads_only
          | apply get_token_balance_reads_only
          | apply get_token_allowance_reads_only
          | apply check_pool_exists_reads_only
          | apply min_amount_out_reads_only ]
  | exact (built_reads_only self) | intros [?e|?v] ].

Ltac norm :=
  cbn [built count_read own fresh]; unfold to_self; cbn [tx_from tx_nonce];
  rewrite ?Z.eqb_refl; cbn [andb]; rewrite ?andb_true_r.
Ltac known :=
  first [ reads_call
        | progress unfold Trader.unwrap_weth
        | progress unfold Trader.approve_on_send_error
        | wp_unfold ].
Ltac leaf :=
  unfold built_post in *; cbn [count_read own fresh] in *; intros;
  repeat match goal with
         | H : ?P -> _, H0 : ?P |- _ => specialize (H H0)
         end;
  try assumption; try tauto.

Lemma built_attempt_wp (s0 : Built) :
  wp (built self) (Trader.swap_usdc_for_eth_attempt respond self) s0
     (fun _ s => built_post s0 s).
Proof.
  unfold Trader.swap_usdc_for_eth_attempt.
  wp_run norm known. all: leaf.
Qed.

Lemma built_swap_usdc_for_eth_wp (depth : nat) (retry_count : Z) (s0 : Built) :
  wp (built self) (swap_usdc_for_eth depth retry_count) s0 (fun _ s => built_post s0 s).
Proof.
  revert retry_count s0. induction depth as [|depth IH]; intros retry_count s0;
    cbn [Trader.swap_usdc_for_eth].
  - apply wp_raise. intros H; exact H.
  - apply wp_bind, wp_emit. cbn [built].
    destruct (retry_count >=? 2).
    + apply wp_bind, wp_emit. apply wp_ret. intros H; exact H.
    + apply wp_try. eapply wp_conseq; [apply built_attempt_wp|].
      intros [e|v] s Hs; [|exact Hs].
      apply wp_bind, wp_emit. cbn [built].
      eapply wp_conseq; [apply IH|]. intros r s' Hs' H0. apply Hs', Hs, H0.
Qed.

Ltac conversion_call :=
  eapply wp_conseq;
  [ apply built_swap_usdc_for_eth_wp | intros [?e|?v] ?s ?Hconversion ].

Lemma built_approve_retry_wp depth token amount s0 :
  wp (built self) (approve_token depth token (router_address self) amount true) s0
     (fun _ s => built_post s0 s).
Proof.
  destruct depth as [|depth]; cbn [Trader.approve_token].
  - apply wp_raise. intros H; exact H.
  - wp_run norm known. all: leaf.
Qed.

Ltac approve_retry_call :=
  eapply wp_conseq;
  [ apply built_approve_retry_wp | intros [?e|?v] ?s ?Hretry ].

Lemma built_approve_first_wp depth token amount s0 :
  wp (built self) (approve_token depth token (router_address self) amount false) s0
     (fun _ s => built_post s0 s).
Proof.
  destruct depth as [|depth]; cbn [Trader.approve_token].
  - apply wp_raise. intros H; exact H.
  - wp_run norm ltac:(first [ known | conversion_call | approve_retry_call ]).
    all: leaf.
Qed.

Ltac approve_call :=
  eapply wp_conseq;
  [ apply built_approve_first_wp | intros [?e|?v] ?s ?Happrove ].

Lemma built_swap_prepare_wp depth token_in token_out amount_in s0 :
  wp (built self) (swap_prepare depth token_in token_out amount_in) s0
     (fun _ s => built_post s0 s).
Proof.
  unfold Trader.swap_prepare.
  wp_run norm ltac:(first [ known | approve_call ]). all: leaf.
Qed.

Ltac prepare_call :=
  eapply wp_conseq;
  [ apply built_swap_prepare_wp | intros [?e|[? ?]] ?s ?Hprepare ].

Lemma built_swap_retry_wp depth token_in token_out amount_in pool_key s0 :
  wp (built self)
     (swap_tokens_for_tokens depth token_in token_out amount_in pool_key true) s0
     (fun _ s => built_post s0 s).
Proof.
  destruct depth as [|depth]; cbn [Trader.swap_tokens_for_tokens].
  - apply wp_raise. intros H; exact H.
  - wp_run norm ltac:(first [ prepare_call | known ]). all: leaf.
Qed.

Ltac retry_call :=
  eapply wp_conseq; [ apply built_swap_retry_wp | intros [?e|?v] ?s ?Hretry ].

Lemma built_swap_first_wp depth token_in token_out amount_in pool_key s0 :
  wp (built self)
     (swap_tokens_for_tokens depth token_in token_out amount_in pool_key false) s0
     (fun _ s => built_post s0 s).
Proof.
  destruct depth as [|depth]; cbn [Trader.swap_tokens_for_tokens].
  - apply wp_raise. intros H; exact H.
  - wp_run norm ltac:(first [ prepare_call | known | conversion_call | retry_call ]).
    all: leaf.
Qed.

Lemma built_swap_wp depth token_in token_out amount_in pool_key retry (w : W) :
  let s := observe (built self) nothing_built
             (trace_of (swap_tokens_for_tokens depth token_in token_out amount_in
                          pool_key retry w)) in
  own s = true /\ fresh s = true.
Proof.
  cbv zeta. destruct retry.
  - apply (built_swap_retry_wp depth token_in token_out amount_in pool_key
             nothing_built w). split; reflexivity.
  - apply (built_swap_first_wp depth token_in token_out amount_in pool_key
             nothing_built w). split; reflexivity.
Qed.

(** X13. A swap pays no one else and lets no one else spend.  Every
    transaction built in a run of [swap_tokens_for_tokens] (the swap, an
    approval, the transactions of an emergency conversion; first attempt or
    retried) is sent from the trader's wallet; every swap names that wallet
    as the recipient, every approval names the router as the spender, and
    the only withdrawal is from the WETH contract.  The same holds for a
    run of [swap_usdc_for_eth] alone. *)
Theorem transactions_stay_with_the_wallet :
  (forall (depth : nat) (token_in token_out : Address) (amount_in : Z)
      (pool_key : PoolKey) (retry : bool) (w : W),
      own (observe (built self) nothing_built
             (trace_of (swap_tokens_for_tokens depth token_in token_out amount_in
                          pool_key retry w))) = true) /\
  (forall (depth : nat) (retry_count : Z) (w : W),
      own (observe (built self) nothing_built
             (trace_of (swap_usdc_for_eth depth retry_count w))) = true).
Proof.
  split.
  - intros. apply built_swap_wp.
  - intros depth retry_count w.
    apply (built_swap_usdc_for_eth_wp depth retry_count nothing_built w).
    split; reflexivity.
Qed.

(** X14. Nonces are read, not counted.  Every transaction built in a run
    of [swap_tokens_for_tokens], of [approve_token] for the router or of
    [swap_usdc_for_eth] carries as its nonce the answer of the latest
    transaction-count read made before it: no nonce is kept from one
    transaction to the next. *)
Theorem nonce_is_latest_count_read :
  (forall (depth : nat) (token_in token_out : Address) (amount_in : Z)
      (pool_key : PoolKey) (retry : bool) (w : W),
      fresh (observe (built self) nothing_built
               (trace_of (swap_tokens_for_tokens depth token_in token_out amount_in
                            pool_key retry w))) = true) /\
  (forall (depth : nat) (token : Address) (amount : Z) (retry : bool) (w : W),
      fresh (observe (built self) nothing_built
               (trace_of (approve_token depth token (router_address self) amount
                            retry w))) = true) /\
  (forall (depth : nat) (retry_count : Z) (w : W),
      fresh (observe (built self) nothing_built
               (trace_of (swap_usdc_for_eth depth retry_count w))) = true).
Proof.
  split; [|split].
  - intros. apply built_swap_wp.
  - intros depth token amount retry w. destruct retry.
    + apply (built_approve_retry_wp depth token amount nothing_built w).
      split; reflexivity.
    + apply (built_approve_first_wp depth token amount nothing_built w).
      split; reflexivity.
  - intros depth retry_count w.
    apply (built_swap_usdc_for_eth_wp depth retry_count nothing_built w).
    split; reflexivity.
Qed.

End Run.

End BuiltSpec.

(* ===================================================================== *)
(** * What the supply-release run books                                   *)
(* ===================================================================== *)

Module LedgerSpec.
Import Py Chain Watch Logic Trader SupplyRelease Ledger.
Local Open Scope py_scope.

Lemma release_failed_no_release_error s ev :
  no_release_error ev = true -> release_failed s ev = s.
Proof.
  destruct ev as [X c r|lvl text|secs|f]; try reflexivity.
  cbn. intros H. apply negb_true_iff in H. rewrite H. reflexivity.
Qed.

Lemma sale_prelude cfg trader s ev : prelude ev = true -> sale cfg trader s ev = s.
Proof.
  destruct ev as [X c r| | |]; try reflexivity.
  destruct c; try reflexivity. destruct fn; try reflexivity; discriminate.
Qed.

Lemma sale_aside cfg trader s ev : aside ev = true -> sale cfg trader s ev = s.
Proof. intros H. apply sale_prelude, TraderFacts.aside_prelude, H. Qed.

Section Run.

Variable W : Type.
Variable respond : forall X, Call X -> W -> (Exn + X) * W.
Variable cfg : Config.
Variable trader : Trader.Trader.

Abbreviation swap_usdc_for_eth := (Trader.swap_usdc_for_eth respond trader).
Abbreviation approve_token := (Trader.approve_token respond trader).
Abbreviation swap_tokens_for_tokens := (Trader.swap_tokens_for_tokens respond trader).
Abbreviation run := (SupplyRelease.run respond cfg trader).

(** ** The swap never writes the log line of [run] *)

Lemma swap_usdc_for_eth_no_release_error depth retry_count :
  emits no_release_error (swap_usdc_for_eth depth retry_count).
Proof.
  revert retry_count. induction depth as [|depth IH]; intros retry_count;
    cbn [Trader.swap_usdc_for_eth].
  - apply emits_raise.
  - unfold Trader.swap_usdc_for_eth_attempt, Trader.get_token_balance,
      Trader.get_token_allowance, Trader.unwrap_weth.
    emits_auto ltac:(apply IH).
Qed.

Lemma approve_token_no_release_error depth token spender amount retry :
  emits no_release_error (approve_token depth token spender amount retry).
Proof.
  revert retry. induction depth as [|depth IH]; intros retry;
    cbn [Trader.approve_token].
  - apply emits_raise.
  - unfold Trader.approve_on_send_error, Trader.get_token_balance,
      Trader.get_token_allowance, Trader.get_token_symbol.
    emits_auto ltac:(first [ apply swap_usdc_for_eth_no_release_error | apply IH ]).
Qed.

Lemma swap_no_release_error depth token_in token_out amount_in pool_key retry :
  emits no_release_error
    (swap_tokens_for_tokens depth token_in token_out amount_in pool_key retry).
Proof.
  revert retry. induction depth as [|depth IH]; intros retry;
    cbn [Trader.swap_tokens_for_tokens].
  - apply emits_raise.
  - unfold Trader.swap_prepare, Trader.swap_build, Trader.min_amount_out,
      Trader.swap_submit, Trader.swap_on_submit_error, Trader.check_pool_exists,
      Trader.get_token_balance, Trader.get_token_allowance, Trader.get_token_symbol.
    emits_auto ltac:(first [ apply swap_usdc_for_eth_no_release_error
                           | apply approve_token_no_release_error
                           | apply IH ]).
Qed.

Ltac eval_eqb :=
  repeat match goal with
         | |- context [String.eqb ?a ?b] =>
             let v := eval vm_compute in (String.eqb a b) in
             change (String.eqb a b) with v
         end.

(** ** The swap neither writes the state file nor logs the line of [run] *)

Lemma filing_unfiled s ev : unfiled ev = true -> filing s ev = s.
Proof.
  destruct ev as [X c r|lvl text|secs|f]; try reflexivity.
  - destruct c; try reflexivity. discriminate.
  - cbn. intros H. apply negb_true_iff in H. rewrite H. reflexivity.
Qed.

Lemma swap_usdc_for_eth_unfiled depth retry_count :
  emits unfiled (swap_usdc_for_eth depth retry_count).
Proof.
  revert retry_count. induction depth as [|depth IH]; intros retry_count;
    cbn [Trader.swap_usdc_for_eth].
  - apply emits_raise.
  - unfold Trader.swap_usdc_for_eth_attempt, Trader.get_token_balance,
      Trader.get_token_allowance, Trader.unwrap_weth.
    emits_auto ltac:(apply IH).
Qed.

Lemma approve_token_unfiled depth token spender amount retry :
  emits unfiled (approve_token depth token spender amount retry).
Proof.
  revert retry. induction depth as [|depth IH]; intros retry;
    cbn [Trader.approve_token].
  - apply emits_raise.
  - unfold Trader.approve_on_send_error, Trader.get_token_balance,
      Trader.get_token_allowance, Trader.get_token_symbol.
    emits_auto ltac:(first [ apply swap_usdc_for_eth_unfiled | apply IH ]).
Qed.

Lemma swap_unfiled depth token_in token_out amount_in pool_key retry :
  emits unfiled
    (swap_tokens_for_tokens depth token_in token_out amount_in pool_key retry).
Proof.
  revert retry. induction depth as [|depth IH]; intros retry;
    cbn [Trader.swap_tokens_for_tokens].
  - apply emits_raise.
  - unfold Trader.swap_prepare, Trader.swap_build, Trader.min_amount_out,
      Trader.swap_submit, Trader.swap_on_submit_error, Trader.check_pool_exists,
      Trader.get_token_balance, Trader.get_token_allowance, Trader.get_token_symbol.
    emits_auto ltac:(first [ apply swap_usdc_for_eth_unfiled
                           | apply approve_token_unfiled
                           | apply IH ]).
Qed.

Ltac norm := cbn [filing failed filed refused nothing_filed]; eval_eqb; cbv iota;
  cbn [failed filed refused].
Ltac known :=
  first [ eapply wp_ignored;
          [ apply swap_unfiled | exact filing_unfiled | intros [?e|?v] ]
        | progress unfold SupplyRelease.get_price
        | progress unfold SupplyRelease.calculate_mint_amount
        | progress unfold SupplyRelease.mint_and_sell
        | progress unfold SupplyRelease.mint_then_sell
        | progress unfold SupplyRelease._save_state ].

Lemma filing_run_wp st :
  wp filing (run st) nothing_filed
     (fun r s =>
        (failed s = true -> filed s = None -> r = inr st) /\
        (forall n, filed s = Some n -> r = inr {| released := n |}) /\
        (refused s = true -> failed s = true)).
Proof.
  unfold SupplyRelease.run.
  wp_run norm known.
  all: cbn [released]; repeat split;
    first [ discriminate | reflexivity | intros; discriminate
          | intros ? [= <-]; reflexivity ].
Qed.

(** X15. What a failed run has booked.  When [run] reaches its [except]
    clause and no write of the state file was attempted, it returns the
    state it started from: the counter is advanced only after the sale has
    returned, so when the wait for the mint's receipt or the sale raises
    after the mint transaction was submitted, the tokens minted are not
    counted against the cap.  Once a write of the state file was
    attempted, the counter in memory is the one of that write, whether the
    write succeeded or not; a write that is refused sends the run to its
    [except] clause with the counter advanced in memory and not in the
    file. *)
Theorem failed_run_counts_only_what_it_filed (st : State) (w : W) :
  let out := run st w in
  let seen := observe filing nothing_filed (trace_of out) in
  (failed seen = true -> filed seen = None -> result_of out = inr st) /\
  (forall n, filed seen = Some n -> result_of out = inr {| released := n |}) /\
  (refused seen = true -> failed seen = true).
Proof. cbv zeta. apply (filing_run_wp st w). Qed.

(** ** The sale *)

Abbreviation sale := (Ledger.sale cfg trader).

Ltac use_minted :=
  repeat match goal with
         | H : minted_amount _ = _ |- _ => rewrite H
         end.
Ltac norm_sale :=
  cbn [Ledger.sale minted_amount matched]; use_minted; rewrite ?Z.eqb_refl;
  cbn [andb]; rewrite ?andb_true_r.
Ltac known_sale :=
  first [ wp_prelude (sale_prelude cfg trader) | wp_aside (sale_aside cfg trader)
        | wp_unfold ].
Ltac leaf_sale :=
  unfold sale_post in *; cbn [minted_amount matched] in *; use_minted;
  rewrite ?Z.eqb_refl, ?andb_true_r in *;
  repeat match goal with
         | H : _ /\ _ |- _ => destruct H
         end;
  first [ split; [ congruence | intros; auto ] | auto ].

Lemma sale_swap_retry_wp depth amount pool_key s0 :
  minted_amount s0 = Some amount ->
  wp sale
     (swap_tokens_for_tokens depth (token_address cfg) (usdc_address cfg) amount
        pool_key true)
     s0 (fun _ s => sale_post s0 s).
Proof.
  intros H0. destruct depth as [|depth]; cbn [Trader.swap_tokens_for_tokens].
  - apply wp_raise. split; [reflexivity | trivial].
  - wp_run norm_sale known_sale. all: leaf_sale.
Qed.

Ltac retry_call :=
  eapply wp_conseq;
  [ apply sale_swap_retry_wp; cbn [minted_amount]; first [ reflexivity | assumption ]
  | intros [?e|?v] ?s ?Hretry ].

Lemma sale_swap_first_wp depth amount pool_key s0 :
  minted_amount s0 = Some amount ->
  wp sale
     (swap_tokens_for_tokens depth (token_address cfg) (usdc_address cfg) amount
        pool_key false)
     s0 (fun _ s => sale_post s0 s).
Proof.
  intros H0. destruct depth as [|depth]; cbn [Trader.swap_tokens_for_tokens].
  - apply wp_raise. split; [reflexivity | trivial].
  - wp_run norm_sale ltac:(first [ known_sale | retry_call ]). all: leaf_sale.
Qed.

Ltac swap_call :=
  eapply wp_conseq;
  [ apply sale_swap_first_wp; cbn [minted_amount]; reflexivity
  | intros [?e|?v] ?s ?Hswap ].
Ltac known_run :=
  first [ swap_call
        | progress unfold SupplyRelease.get_price
        | progress unfold SupplyRelease.calculate_mint_amount
        | progress unfold SupplyRelease.mint_and_sell
        | progress unfold SupplyRelease.mint_then_sell
        | progress unfold SupplyRelease._save_state ].

Lemma sale_run_wp st :
  wp sale (run st) nothing_minted (fun _ s => matched s = true).
Proof.
  unfold SupplyRelease.run.
  wp_run norm_sale known_run.
  all: unfold sale_post in *; cbn [minted_amount matched nothing_minted] in *;
    rewrite ?Z.eqb_refl in *; cbn [andb] in *;
    first [ reflexivity | tauto ].
Qed.

(** X16. The run sells what it mints.  In every run of the supply bot, at
    most one mint is built, of the configured token and to the bot's own
    wallet; and every swap transaction built (retried ones included) comes
    after the mint and sells that token for the configured USDC in exactly
    the amount minted. *)
Theorem run_sells_what_it_mints (st : State) (w : W) :
  matched (observe sale nothing_minted (trace_of (run st w))) = true.
Proof. apply (sale_run_wp st w). Qed.

End Run.

End LedgerSpec.

(* ===================================================================== *)
(** * More concrete runs                                                  *)
(* ===================================================================== *)

Module Cases.
Import Py Chain Watch Trader Scenario Safety Ledger.
Local Open Scope py_scope.

(** With an unlimited allowance on record, an approval sends nothing. *)
Lemma approve_token_enough_allowance_witness :
  let run := Trader.approve_token Sim.respond Sim.me 1 MYSO_ADDRESS
               (router_address Sim.me) MAX_UINT256 false Sim.calm in
  Sim.respond (allowance MYSO_ADDRESS (wallet_address Sim.me) (router_address Sim.me))
    Sim.calm = (inr MAX_UINT256, Sim.calm) /\
  result_of run = inr Hex0x0 /\ forallb no_transaction (trace_of run) = true.
Proof.
  cbv zeta. split; [reflexivity|].
  apply (@TraderSpec.approve_token_enough_allowance _ Sim.respond Sim.me 0
           MYSO_ADDRESS (router_address Sim.me) MAX_UINT256 MAX_UINT256 false
           Sim.calm Sim.calm eq_refl).
  lia.
Defined.

(** Two refused submissions: two attempts, a third call that gives up,
    and [None]. *)
Lemma swap_usdc_for_eth_never_raises_witness :
  let run := Trader.swap_usdc_for_eth Sim.respond Sim.me 3 0 refusing in
  (exists x, result_of run = inr x) /\
  (observe conversion_calls 0%nat (trace_of run) <= 3)%nat /\
  result_of run = inr None /\
  observe conversion_calls 0%nat (trace_of run) = 3%nat.
Proof.
  cbv zeta.
  destruct (TraderSpec.swap_usdc_for_eth_never_raises Sim.respond Sim.me) as [Hrun _].
  destruct (Hrun 3%nat refusing ltac:(lia)) as [Hret Hcalls].
  split; [exact Hret|]. split; [exact Hcalls|]. split; vm_compute; reflexivity.
Defined.

Lemma swap_returns_latest_accepted_hash_witness :
  let run := Sim.swap short_of_gas_throughout MYSO_ADDRESS USDC_ADDRESS 1000 false in
  result_of run = inr (HexOf 6) /\
  exists h, HexOf 6 = HexOf h /\ observe last_accepted None (trace_of run) = Some h.
Proof.
  cbv zeta. split; [vm_compute; reflexivity|].
  apply (@Accepted.swap_returns_latest_accepted_hash _ Sim.respond Sim.me 10
           MYSO_ADDRESS USDC_ADDRESS 1000 Sim.pk false short_of_gas_throughout).
  vm_compute. reflexivity.
Defined.

(** The mint of 1000 units is submitted, the sale finds no pool, and the
    run returns the state it started from; on a full disk the sale goes
    through, the write is refused, and the run returns the counter
    advanced. *)
Lemma failed_run_counts_only_what_it_filed_witness :
  let lost := SupplyRelease.run Sim.respond release_cfg Sim.me nearly_released no_pool in
  let ahead := SupplyRelease.run full_disk release_cfg Sim.me nearly_released Sim.calm in
  observe filing nothing_filed (trace_of lost)
  = {| failed := true; filed := None; refused := false |} /\
  observe minted [] (trace_of lost) = [1000] /\
  result_of lost = inr nearly_released /\
  observe filing nothing_filed (trace_of ahead)
  = {| failed := true; filed := Some 1000000; refused := true |} /\
  result_of ahead = inr {| SupplyRelease.released := 1000000 |}.
Proof.
  cbv zeta.
  destruct (@LedgerSpec.failed_run_counts_only_what_it_filed _ Sim.respond release_cfg
              Sim.me nearly_released no_pool) as (Hlost & _ & _).
  destruct (@LedgerSpec.failed_run_counts_only_what_it_filed _ full_disk release_cfg
              Sim.me nearly_released Sim.calm) as (_ & Hahead & _).
  split; [vm_compute; reflexivity|]. split; [vm_compute; reflexivity|].
  split; [apply Hlost; vm_compute; reflexivity|].
  split; [vm_compute; reflexivity|].
  apply (Hahead 1000000). vm_compute. reflexivity.
Defined.

(** The monitors do see transactions: a run with two approvals,
    two conversions and a retried swap builds eight of them, each after a
    read of the transaction count. *)
Example monitors_see_transactions :
  let run := Sim.swap short_of_gas_throughout MYSO_ADDRESS USDC_ADDRESS 1000 false in
  List.length (filter (fun ev => negb (reads_only ev)) (trace_of run)) = 16%nat /\
  observe (built Sim.me) nothing_built (trace_of run)
    = {| count_read := Some 6; own := true; fresh := true |} /\
  observe pool_guard unchecked (trace_of run) = {| found := true; guarded := true |}.
Proof. vm_compute. repeat split. Qed.

End Cases.

(* ===================================================================== *)
(** * The retry decorator                                                 *)
(* ===================================================================== *)

Module RetrySpec.
Import Py Chain Watch Logic Volume.
Local Open Scope py_scope.

Lemma sleeps_no_sleep s ev : no_sleep ev = true -> sleeps s ev = s.
Proof. destruct ev; try reflexivity. discriminate. Qed.

Section Run.

Variable W : Type.
Variable response_status : Exn -> option (option Z).
Variable A : Type.
Variable switch_rpc_endpoint : option (M W unit).
Variable func : M W A.

Abbreviation retry_loop := (Volume.retry_loop response_status).
Abbreviation retry_with_backoff := (Volume.retry_with_backoff response_status).

(** X17. The decorator is transparent when there is nothing to retry.
    With at least one retry allowed, a call that returns, or that raises
    anything but [HTTPError] or [TimeExhausted], goes through the wrapper
    unchanged: same result, same requests, no wait and no switch of
    endpoint.  With [max_retries] at zero or below the wrapped function is
    not called at all: the wrapper raises
    [Exception("Failed after {max_retries} retries")] at once. *)
Theorem retry_with_backoff_is_transparent
    (max_retries initial_backoff backoff_factor : Z) (w : W) :
  (0 < max_retries ->
   match result_of (func w) with
   | inr _ => True
   | inl e => retryable e = false
   end ->
   retry_with_backoff max_retries initial_backoff backoff_factor
     switch_rpc_endpoint func w = func w) /\
  (max_retries <= 0 ->
   retry_with_backoff max_retries initial_backoff backoff_factor
     switch_rpc_endpoint func w = (inl (exhausted max_retries), w, [])).
Proof.
  unfold Volume.retry_with_backoff. split.
  - intros Hpos Hres. destruct (Z.to_nat max_retries) as [|rounds] eqn:Hn; [lia|].
    cbn [Volume.retry_loop]. unfold try_, result_of in *.
    destruct (func w) as [[[e|a] w1] t1]; [|reflexivity].
    cbn [fst] in Hres. rewrite Hres. cbn. rewrite app_nil_r. reflexivity.
  - intros Hle. replace (Z.to_nat max_retries) with 0%nat by lia. reflexivity.
Qed.

(** ** The waits *)

Hypothesis func_no_sleep : emits no_sleep func.
Hypothesis switch_no_sleep :
  forall switch, switch_rpc_endpoint = Some switch -> emits no_sleep switch.

Lemma backoffs_app (b f : Z) (k : nat) (s0 : list Z) :
  (s0 ++ [b]) ++ backoffs (b * f) f k = s0 ++ backoffs b f (S k).
Proof. rewrite <- app_assoc. reflexivity. Qed.

Lemma switch_wp (s : list Z) (Q : Exn + unit -> list Z -> Prop) :
  (forall r, Q r s) ->
  wp sleeps (match switch_rpc_endpoint with
             | Some switch => switch
             | None => ret tt
             end) s Q.
Proof.
  intros HQ. destruct switch_rpc_endpoint as [switch|] eqn:Hs.
  - eapply wp_ignored; [apply switch_no_sleep; reflexivity | exact sleeps_no_sleep | exact HQ].
  - apply wp_ret, HQ.
Qed.

Lemma retry_loop_waits (rounds : nat) (max_retries b f : Z) (s0 : list Z) :
  wp sleeps (retry_loop rounds max_retries b f switch_rpc_endpoint func) s0
     (fun _ s => exists k, (k <= rounds)%nat /\ s = s0 ++ backoffs b f k).
Proof.
  revert b s0. induction rounds as [|rounds IH]; intros b s0; cbn [Volume.retry_loop].
  - apply wp_raise. exists 0%nat. split; [lia | rewrite app_nil_r; reflexivity].
  - apply wp_try.
    eapply wp_ignored; [exact func_no_sleep | exact sleeps_no_sleep |].
    assert (Hnone : exists k, (k <= S rounds)%nat /\ s0 = s0 ++ backoffs b f k)
      by (exists 0%nat; split; [lia | rewrite app_nil_r; reflexivity]).
    intros [e|a]; [|exact Hnone].
    destruct (retryable e); [|apply wp_raise; exact Hnone].
    apply wp_bind. unfold Volume.on_retryable.
    assert (Hnext :
      wp sleeps
         (sleep b ;;
          match switch_rpc_endpoint with
          | Some switch => switch
          | None => ret tt
          end) s0
         (fun r s1 =>
            match r with
            | inl _ => exists k, (k <= S rounds)%nat /\ s1 = s0 ++ backoffs b f k
            | inr _ =>
                wp sleeps
                   (retry_loop rounds max_retries (b * f) f switch_rpc_endpoint func)
                   s1
                   (fun _ s => exists k, (k <= S rounds)%nat /\ s = s0 ++ backoffs b f k)
            end)).
    { apply wp_bind, wp_emit. cbn [sleeps]. apply switch_wp. intros [e'|[]].
      - exists 1%nat. split; [lia | reflexivity].
      - eapply wp_conseq; [apply IH|]. intros _ s (k & Hk & ->).
        exists (S k). split; [lia | apply backoffs_app]. }
    destruct (response_status e) as [[status_code|]|].
    + destruct (status_code =? 429); apply wp_bind, wp_emit; exact Hnext.
    + apply wp_bind, wp_raise. exact Hnone.
    + apply wp_bind, wp_emit. exact Hnext.
Qed.

(** ** Exhaustion *)

Hypothesis func_refused :
  forall w, exists e,
    result_of (func w) = inl e /\ retryable e = true /\
    response_status e <> Some None.
Hypothesis switch_returns :
  forall switch, switch_rpc_endpoint = Some switch ->
  forall w, result_of (switch w) = inr tt.

Lemma retry_loop_exhausted (rounds : nat) (max_retries b f : Z) (s0 : list Z) :
  wp sleeps (retry_loop rounds max_retries b f switch_rpc_endpoint func) s0
     (fun r s => r = inl (exhausted max_retries) /\ s = s0 ++ backoffs b f rounds).
Proof.
  revert b s0. induction rounds as [|rounds IH]; intros b s0; cbn [Volume.retry_loop].
  - apply wp_raise. split; [reflexivity | rewrite app_nil_r; reflexivity].
  - apply wp_try. intros w.
    rewrite (observe_ignored sleeps no_sleep sleeps_no_sleep _ _ (func_no_sleep w)).
    destruct (func_refused w) as (e & -> & Hretry & Hstatus). rewrite Hretry.
    apply wp_bind. unfold Volume.on_retryable.
    assert (Hnext :
      wp sleeps
         (sleep b ;;
          match switch_rpc_endpoint with
          | Some switch => switch
          | None => ret tt
          end) s0
         (fun r s1 =>
            match r with
            | inl e' => (inl e' : Exn + A) = inl (exhausted max_retries) /\
                        s1 = s0 ++ backoffs b f (S rounds)
            | inr _ =>
                wp sleeps
                   (retry_loop rounds max_retries (b * f) f switch_rpc_endpoint func)
                   s1
                   (fun r s => r = inl (exhausted max_retries) /\
                               s = s0 ++ backoffs b f (S rounds))
            end)).
    { apply wp_bind, wp_emit. cbn [sleeps].
      destruct switch_rpc_endpoint as [switch|] eqn:Hs.
      - intros w'.
        rewrite (observe_ignored sleeps no_sleep sleeps_no_sleep _ _
                   (switch_no_sleep eq_refl w')).
        rewrite (switch_returns eq_refl w').
        eapply wp_conseq; [apply IH|]. intros r s [-> ->].
        split; [reflexivity | apply backoffs_app].
      - apply wp_ret. eapply wp_conseq; [apply IH|]. intros r s [-> ->].
        split; [reflexivity | apply backoffs_app]. }
    destruct (response_status e) as [[status_code|]|].
    + destruct (status_code =? 429); apply wp_bind, wp_emit; exact Hnext.
    + contradiction.
    + apply wp_bind, wp_emit. exact Hnext.
Qed.

End Run.

Lemma retry_loop_absorbs (W A : Type) (response_status : Exn -> option (option Z))
    (switch_rpc_endpoint : option (M W unit)) (func : M W A)
    (rounds : nat) (max_retries b f : Z) (w : W) (e : Exn) :
  (forall switch, switch_rpc_endpoint = Some switch ->
   forall w e, result_of (switch w) = inl e -> retryable e = false) ->
  result_of (Volume.retry_loop response_status rounds max_retries b f
               switch_rpc_endpoint func w) = inl e ->
  retryable e = false.
Proof.
  intros Hswitch. revert b w. induction rounds as [|rounds IH]; intros b w;
    cbn [Volume.retry_loop].
  - cbn. intros [= <-]. reflexivity.
  - unfold try_, result_of. destruct (func w) as [[[e0|a] w1] t1]; [|discriminate].
    destruct (retryable e0) eqn:Hretry.
    2:{ cbn. intros [= <-]. exact Hretry. }
    unfold bind at 1.
    destruct (Volume.on_retryable response_status b switch_rpc_endpoint e0 w1)
      as [[[e1|[]] w2] t2] eqn:Hon.
    + cbn. intros [= <-]. revert Hon. unfold Volume.on_retryable, bind.
      assert (Hrest : forall (pre : M W unit) w0 r0 w3 t3,
                (forall w, exists ev, pre w = (inr tt, w, [ev])) ->
                match pre w0 with
                | (inl e, w1, t1) => (inl e, w1, t1)
                | (inr a, w1, t1) =>
                    match
                      match sleep b w1 with
                      | (inl e, w1', t1') => (inl e, w1', t1')
                      | (inr a0, w1', t1') =>
                          match
                            match switch_rpc_endpoint with
                            | Some switch => switch
                            | None => ret tt
                            end w1'
                          with
                          | (r, w2', t2') => (r, w2', t1' ++ t2')
                          end
                      end
                    with
                    | (r, w2', t2') => (r, w2', t1 ++ t2')
                    end
                end = (inl r0, w3, t3) -> retryable r0 = false).
      { intros pre w0 r0 w3 t3 Hpre. destruct (Hpre w0) as [ev ->]. cbn.
        destruct switch_rpc_endpoint as [switch|] eqn:Hs; [|discriminate].
        specialize (Hswitch switch eq_refl w0). unfold result_of in Hswitch.
        destruct (switch w0) as [[[e2|[]] w4] t4]; [|discriminate].
        intros [= <- _ _]. apply (Hswitch e2). reflexivity. }
      destruct (response_status e0) as [[status_code|]|].
      * destruct (status_code =? 429); apply Hrest; intros w'; eexists; reflexivity.
      * cbn. intros [= <- _ _]. reflexivity.
      * apply Hrest; intros w'; eexists; reflexivity.
    + specialize (IH (b * f) w2). unfold result_of in IH.
      destruct (Volume.retry_loop response_status rounds max_retries (b * f) f
                  switch_rpc_endpoint func w2) as [[r3 w3] t3].
      cbn in *. exact IH.
Qed.

(** A decorated call emits what the wrapped function and the switch
    emit, log lines and sleeps. *)
Lemma retry_loop_emits (W A : Type) (response_status : Exn -> option (option Z))
    (P : Event -> bool) (switch : M W unit) (func : M W A)
    (rounds : nat) (max_retries b f : Z) :
  (forall lvl text, P (EvLog lvl text) = true) ->
  (forall secs, P (EvSleep secs) = true) ->
  emits P switch ->
  emits P func ->
  emits P (Volume.retry_loop response_status rounds max_retries b f (Some switch) func).
Proof.
  intros Hlog Hsleep Hswitch Hfunc. revert b.
  induction rounds as [|rounds IH]; intros b; cbn [Volume.retry_loop].
  - apply emits_raise.
  - unfold Volume.on_retryable.
    emits_auto ltac:(first [ exact Hfunc | exact Hswitch | apply IH
                           | apply emits_emit; first [ apply Hlog | apply Hsleep ] ]).
Qed.

(** Each attempt starts at most one swap, so [rounds] attempts start at
    most [rounds]. *)
Lemma retry_loop_started (W A : Type) (response_status : Exn -> option (option Z))
    (switch : M W unit) (func : M W A) (rounds : nat) (max_retries b f : Z) (n : nat) :
  emits no_first_entry switch ->
  (forall n, wp started func n (fun _ n' => (n' <= S n)%nat)) ->
  wp started
     (Volume.retry_loop response_status rounds max_retries b f (Some switch) func) n
     (fun _ n' => (n' <= n + rounds)%nat).
Proof.
  intros Hswitch Hfunc. revert b n.
  assert (Hign : forall s ev, no_first_entry ev = true -> started s ev = s)
    by (intros s ev H; unfold started; rewrite H; reflexivity).
  induction rounds as [|rounds IH]; intros b n; cbn [Volume.retry_loop].
  - apply wp_raise. lia.
  - apply wp_try. eapply wp_conseq; [apply Hfunc|].
    intros [e|a] n1 Hn1; cbv beta iota; [|lia].
    destruct (retryable e); [|apply wp_raise; lia].
    apply wp_bind.
    eapply wp_ignored; [|exact Hign|].
    + unfold Volume.on_retryable.
      emits_auto ltac:(exact Hswitch).
    + intros [e'|[]]; [lia|].
      eapply wp_conseq; [apply IH|]. cbv beta. intros _ n2 Hn2. lia.
Qed.

(** X18. The waits of the decorator.  When neither the wrapped function
    nor the switch of endpoint sleeps, the seconds slept during a
    decorated call are [initial_backoff], [initial_backoff *
    backoff_factor], ... in this order: [k] of them for some
    [k <= max_retries]. *)
Theorem retry_with_backoff_waits_grow (W A : Type)
    (response_status : Exn -> option (option Z))
    (switch_rpc_endpoint : option (M W unit)) (func : M W A)
    (max_retries initial_backoff backoff_factor : Z) :
  emits no_sleep func ->
  (forall switch, switch_rpc_endpoint = Some switch -> emits no_sleep switch) ->
  wp sleeps
     (Volume.retry_with_backoff response_status max_retries initial_backoff
        backoff_factor switch_rpc_endpoint func) []
     (fun _ s => exists k, (k <= Z.to_nat max_retries)%nat /\
                           s = backoffs initial_backoff backoff_factor k).
Proof.
  intros Hfunc Hswitch. unfold Volume.retry_with_backoff.
  eapply wp_conseq; [apply retry_loop_waits; assumption|].
  intros _ s (k & Hk & ->). exists k. split; [exact Hk | reflexivity].
Qed.

(** The outcome of giving up needs no assumption on sleeps. *)
Lemma retry_loop_gives_up (W A : Type) (response_status : Exn -> option (option Z))
    (switch_rpc_endpoint : option (M W unit)) (func : M W A)
    (rounds : nat) (max_retries b f : Z) (w : W) :
  (forall w, exists e,
     result_of (func w) = inl e /\ retryable e = true /\
     response_status e <> Some None) ->
  (forall switch, switch_rpc_endpoint = Some switch ->
   forall w, result_of (switch w) = inr tt) ->
  result_of (Volume.retry_loop response_status rounds max_retries b f
               switch_rpc_endpoint func w) = inl (exhausted max_retries).
Proof.
  intros Hrefused Hreturns.
  pose (still := fun (s : unit) (_ : Event) => s).
  assert (Hstill : forall t, observe still tt t = tt)
    by (intros t; induction t as [|ev t IH]; [reflexivity | exact IH]).
  enough (Hwp : wp still
                  (Volume.retry_loop response_status rounds max_retries b f
                     switch_rpc_endpoint func) tt
                  (fun r _ => r = inl (exhausted max_retries)))
    by exact (Hwp w).
  clear w. revert b. induction rounds as [|rounds IH]; intros b;
    cbn [Volume.retry_loop].
  - apply wp_raise. reflexivity.
  - apply wp_try. intros w. rewrite Hstill.
    destruct (Hrefused w) as (e & -> & Hretry & Hstatus). rewrite Hretry.
    apply wp_bind. unfold Volume.on_retryable.
    assert (Hnext :
      wp still
         (sleep b ;;
          match switch_rpc_endpoint with
          | Some switch => switch
          | None => ret tt
          end) tt
         (fun r s1 =>
            match r with
            | inl e' => (inl e' : Exn + A) = inl (exhausted max_retries)
            | inr _ =>
                wp still
                   (Volume.retry_loop response_status rounds max_retries (b * f) f
                      switch_rpc_endpoint func)
                   s1 (fun r _ => r = inl (exhausted max_retries))
            end)).
    { apply wp_bind, wp_emit. cbn [still].
      destruct switch_rpc_endpoint as [switch|] eqn:Hs.
      - intros w'. rewrite Hstill, (Hreturns switch eq_refl w'). apply IH.
      - apply wp_ret, IH. }
    destruct (response_status e) as [[status_code|]|].
    + destruct (status_code =? 429); apply wp_bind, wp_emit; exact Hnext.
    + contradiction.
    + apply wp_bind, wp_emit. exact Hnext.
Qed.

(** An [HTTPError] that carries no response. *)
Lemma retry_loop_without_response (W A : Type)
    (response_status : Exn -> option (option Z))
    (switch_rpc_endpoint : option (M W unit)) (func : M W A)
    (rounds : nat) (max_retries b f : Z) (w : W) (e : Exn) :
  result_of (func w) = inl e ->
  retryable e = true ->
  response_status e = Some None ->
  Volume.retry_loop response_status (S rounds) max_retries b f switch_rpc_endpoint
    func w
  = (inl (AttributeError "'NoneType' object has no attribute 'status_code'"),
     snd (fst (func w)), trace_of (func w)).
Proof.
  intros Hres Hretry Hstatus. cbn [Volume.retry_loop]. unfold try_, result_of, trace_of in *.
  destruct (func w) as [[r w1] t1]. cbn [fst snd] in *. subst r. rewrite Hretry.
  unfold bind at 1, Volume.on_retryable. rewrite Hstatus.
  cbn. rewrite app_nil_r. reflexivity.
Qed.

(** X19. Giving up.  Assume that every attempt ends in an [HTTPError] or
    a [TimeExhausted] whose [response] attribute is missing or holds a
    response (it is not [None]), and that the switch of endpoint returns.
    Then the decorated call raises
    [Exception("Failed after {max_retries} retries")]: the exception of the
    last attempt is not the one the caller sees.  If moreover neither the
    wrapped function nor the switch sleeps, the seconds slept are all the
    [max_retries] waits of the schedule: the call waits after each attempt,
    the last one included.  An attempt that ends in such an exception with
    [response] equal to [None] ends the call at once instead (with at least
    one retry allowed): the handler raises [AttributeError] before any log
    line, wait or switch. *)
Theorem retry_with_backoff_gives_up (W A : Type)
    (response_status : Exn -> option (option Z))
    (switch_rpc_endpoint : option (M W unit)) (func : M W A)
    (max_retries initial_backoff backoff_factor : Z) :
  let decorated := Volume.retry_with_backoff response_status max_retries
                     initial_backoff backoff_factor switch_rpc_endpoint func in
  ((forall w, exists e,
      result_of (func w) = inl e /\ retryable e = true /\
      response_status e <> Some None) ->
   (forall switch, switch_rpc_endpoint = Some switch ->
    forall w, result_of (switch w) = inr tt) ->
   (forall w, result_of (decorated w) = inl (exhausted max_retries)) /\
   (emits no_sleep func ->
    (forall switch, switch_rpc_endpoint = Some switch -> emits no_sleep switch) ->
    forall w,
      observe sleeps [] (trace_of (decorated w))
      = backoffs initial_backoff backoff_factor (Z.to_nat max_retries))) /\
  (forall w e,
     0 < max_retries ->
     result_of (func w) = inl e ->
     retryable e = true ->
     response_status e = Some None ->
     decorated w
     = (inl (AttributeError "'NoneType' object has no attribute 'status_code'"),
        snd (fst (func w)), trace_of (func w))).
Proof.
  cbv zeta. unfold Volume.retry_with_backoff. split.
  - intros Hrefused Hreturns. split.
    + intros w. apply retry_loop_gives_up; assumption.
    + intros Hfunc Hswitch w.
      exact (proj2 (@retry_loop_exhausted W response_status A switch_rpc_endpoint func
                      Hfunc Hswitch Hrefused Hreturns (Z.to_nat max_retries)
                      max_retries initial_backoff backoff_factor [] w)).
  - intros w e Hpos Hres Hretry Hstatus.
    destruct (Z.to_nat max_retries) as [|rounds] eqn:Hn; [lia|].
    eapply retry_loop_without_response; [exact Hres | exact Hretry | exact Hstatus].
Qed.

(** X20. No [HTTPError] and no [TimeExhausted] leaves a decorated call,
    whatever the wrapped function does, as long as the switch of endpoint
    raises neither.  A decorated function called inside another decorated
    function is therefore never retried by the outer decorator for its own
    failure. *)
Theorem retry_with_backoff_raises_nothing_retryable (W A : Type)
    (response_status : Exn -> option (option Z))
    (switch_rpc_endpoint : option (M W unit)) (func : M W A)
    (max_retries initial_backoff backoff_factor : Z) (w : W) (e : Exn) :
  (forall switch, switch_rpc_endpoint = Some switch ->
   forall w e, result_of (switch w) = inl e -> retryable e = false) ->
  result_of (Volume.retry_with_backoff response_status max_retries initial_backoff
               backoff_factor switch_rpc_endpoint func w) = inl e ->
  retryable e = false.
Proof.
  intros Hswitch. unfold Volume.retry_with_backoff. apply retry_loop_absorbs.
  exact Hswitch.
Qed.

End RetrySpec.

(* ===================================================================== *)
(** * The router the trader talks to                                      *)
(* ===================================================================== *)

Module RouterSpec.
Import Py Chain Trader Router.
Local Open Scope py_scope.

Lemma has_u_append (a b : string) :
  has_u (String.append a b) = (has_u a || has_u b)%bool.
Proof.
  induction a as [|c a IH]; [reflexivity|]. cbn. rewrite IH. apply orb_assoc.
Qed.

Lemma has_u_prefix (needle hay : string) :
  String.prefix needle hay = true -> has_u needle = true -> has_u hay = true.
Proof.
  revert hay. induction needle as [|c needle IH]; intros hay Hp Hu; [cbn in Hu; discriminate|].
  destruct hay as [|d hay]; [cbn in Hp; discriminate|]. cbn in Hp, Hu |- *.
  destruct (Ascii.ascii_dec c d) as [<-|]; [|discriminate].
  apply orb_true_iff in Hu as [Hc|Hrest].
  - rewrite Hc. reflexivity.
  - rewrite (IH hay Hp Hrest). apply orb_true_r.
Qed.

Lemma has_u_contains (needle hay : string) :
  contains needle hay = true -> has_u needle = true -> has_u hay = true.
Proof.
  intros Hc Hu. induction hay as [|d hay IH].
  - destruct needle; cbn in Hc, Hu; discriminate.
  - cbn [contains] in Hc. destruct (String.prefix needle (String d hay)) eqn:Hp.
    + exact (has_u_prefix _ _ Hp Hu).
    + cbn. rewrite (IH Hc). apply orb_true_r.
Qed.

Lemma has_u_hex_byte (b : Byte.byte) : has_u (hex_byte b) = false.
Proof. destruct b; vm_compute; reflexivity. Qed.

Lemma has_u_hex (code : list Byte.byte) : has_u (hex code) = false.
Proof.
  induction code as [|b code IH]; [reflexivity|].
  cbn [hex]. rewrite has_u_append, has_u_hex_byte, IH. reflexivity.
Qed.

Lemma execute_not_in_hex (hex_prefix : bool) (code : list Byte.byte) :
  contains "execute" (HexBytes_hex hex_prefix code) = false.
Proof.
  destruct (contains "execute" (HexBytes_hex hex_prefix code)) eqn:Hc; [|reflexivity].
  apply has_u_contains in Hc; [|reflexivity].
  unfold HexBytes_hex in Hc. destruct hex_prefix.
  - rewrite has_u_append, has_u_hex in Hc. discriminate.
  - rewrite has_u_hex in Hc. discriminate.
Qed.

Lemma detect_router_version_run (W : Type)
    (get_code : Address -> W -> (Exn + list Byte.byte) * W) (hex_prefix : bool)
    (self : Trader) (w : W) :
  exists w' t,
    _detect_router_version get_code hex_prefix self w = (inr 3, w', t) /\
    (t = [EvLog INFO "Detected Uniswap V3 SwapRouter02 at {self.router_address}"] \/
     t = [EvLog WARNING "Error detecting router version: {e}. Defaulting to V3"] \/
     t = []).
Proof.
  unfold _detect_router_version, try_.
  destruct (Trader.router_address self =? SWAP_ROUTER_02).
  - eexists. eexists. split; [reflexivity|]. left. reflexivity.
  - unfold bind at 1, unwatched.
    destruct (get_code (Trader.router_address self) w) as [[e|code] w1].
    + eexists. eexists. split; [reflexivity|]. right. left. reflexivity.
    + rewrite execute_not_in_hex. eexists. eexists. split; [reflexivity|].
      right. right. reflexivity.
Qed.

Lemma Trader_init_run (W : Type)
    (get_code : Address -> W -> (Exn + list Byte.byte) * W) (hex_prefix : bool)
    (wallet_address router_address : Address) (w : W) :
  exists w' t,
    Trader_init get_code hex_prefix wallet_address router_address w
    = (inr {| Trader.wallet_address := wallet_address;
              Trader.router_address := router_address |}, w',
       t ++ [EvLog INFO "Detected Uniswap V3 router at {self.router_address}";
             EvLog INFO "Initialized trader with router address: {self.router_address}"]) /\
    (t = [EvLog INFO "Detected Uniswap V3 SwapRouter02 at {self.router_address}"] \/
     t = [EvLog WARNING "Error detecting router version: {e}. Defaulting to V3"] \/
     t = []).
Proof.
  destruct (detect_router_version_run get_code hex_prefix
              {| Trader.wallet_address := wallet_address;
                 Trader.router_address := router_address |} w)
    as (w' & t & Hrun & Ht).
  exists w', t. split; [|exact Ht].
  unfold Trader_init, bind at 1. rewrite Hrun. reflexivity.
Qed.

(** X21. The router is always taken for a V3 router.
    [_detect_router_version] returns 3 for every router address, whatever
    code the node reports for it and whether or not the request fails: the
    word [execute] it looks for cannot occur in a string of hex digits.
    The constructor of [Trader] therefore never raises and always binds
    the router with the V3 ABI, not with the [router_abi] it is given. *)
Theorem router_is_always_taken_for_v3 (W : Type)
    (get_code : Address -> W -> (Exn + list Byte.byte) * W) (hex_prefix : bool)
    (wallet_address router_address : Address) (w : W) :
  let self := {| Trader.wallet_address := wallet_address;
                 Trader.router_address := router_address |} in
  result_of (_detect_router_version get_code hex_prefix self w) = inr 3 /\
  result_of (Trader_init get_code hex_prefix wallet_address router_address w)
    = inr self /\
  In (EvLog INFO "Detected Uniswap V3 router at {self.router_address}")
     (trace_of (Trader_init get_code hex_prefix wallet_address router_address w)).
Proof.
  cbv zeta.
  destruct (detect_router_version_run get_code hex_prefix
              {| Trader.wallet_address := wallet_address;
                 Trader.router_address := router_address |} w)
    as (w1 & t1 & Hrun & _).
  split; [rewrite Hrun; reflexivity|].
  destruct (Trader_init_run get_code hex_prefix wallet_address router_address w)
    as (w' & t & Hinit & _).
  rewrite Hinit. split; [reflexivity|].
  apply in_or_app. right. left. reflexivity.
Qed.

End RouterSpec.

(* ===================================================================== *)
(** * A round of continuous trading                                       *)
(* ===================================================================== *)

Module TradeSpec.
Import Py Chain Watch Logic Trader Volume.
Local Open Scope py_scope.

Lemma executed_unannounced s ev : unannounced ev = true -> executed s ev = s.
Proof.
  destruct ev as [X c r|lvl text|secs|f]; try reflexivity.
  cbn. intros H. apply negb_true_iff in H. rewrite H. reflexivity.
Qed.

Lemma executed_chatter s ev : chatter ev = true -> executed s ev = s.
Proof.
  destruct ev as [X c r|lvl text|secs|f]; try discriminate.
  apply (executed_unannounced s (EvLog lvl text)).
Qed.

Lemma see_chatter s ev : chatter ev = true -> see s ev = s.
Proof. destruct ev as [X c r|lvl text|secs|f]; try discriminate. reflexivity. Qed.

Lemma desk_chatter owner s ev : chatter ev = true -> desk owner s ev = s.
Proof.
  destruct ev as [X c r|lvl text|secs|f]; try discriminate.
  intros _. unfold desk. destruct (covered s); reflexivity.
Qed.

Lemma desk_log owner s lvl text : desk owner s (EvLog lvl text) = s.
Proof. unfold desk. destruct (covered s); reflexivity. Qed.

(** Once a swap has been entered the desk is closed. *)
Lemma desk_closed owner s t : covered s <> None -> observe (desk owner) s t = s.
Proof.
  intros Hs. induction t as [|ev t IH]; [reflexivity|].
  cbn. replace (desk owner s ev) with s; [exact IH|].
  unfold desk. destruct (covered s); [reflexivity | contradiction].
Qed.

Section Round.

Variable W : Type.
Variable respond : forall X, Call X -> W -> (Exn + X) * W.
Variable get_code : Address -> W -> (Exn + list Byte.byte) * W.
Variable hex_prefix : bool.
Variable address_of_key : string -> string.
Variable address_value : string -> Address.
Variable cfg : Config.
Variable depth : nat.

Abbreviation Trader_for :=
  (Volume.Trader_for get_code hex_prefix address_of_key address_value cfg).
Abbreviation trade :=
  (Volume.trade respond get_code hex_prefix address_of_key address_value cfg depth).
Abbreviation trade_or_wait :=
  (Volume.trade_or_wait respond get_code hex_prefix address_of_key address_value cfg
     depth).
Abbreviation owner_of wallet :=
  (address_value (Wallets.get_address address_of_key wallet)).

(** The constructor returns the trader of the wallet and only chats. *)
Lemma Trader_for_wp {S} (step : S -> Event -> S) (wallet : Wallets.Wallet) (s : S)
    (Q : Exn + Trader.Trader -> S -> Prop) :
  (forall s ev, chatter ev = true -> step s ev = s) ->
  Q (inr {| Trader.wallet_address := owner_of wallet;
            Trader.router_address := Volume.router_address cfg |}) s ->
  wp step (Trader_for wallet) s Q.
Proof.
  intros Hign HQ w. unfold Volume.Trader_for.
  destruct (RouterSpec.Trader_init_run get_code hex_prefix (owner_of wallet)
              (Volume.router_address cfg) w) as (w' & t & Hrun & Ht).
  rewrite Hrun. cbn [result_of trace_of fst snd].
  rewrite (observe_ignored step chatter Hign); [exact HQ|].
  destruct Ht as [ Ht | [ Ht | Ht ] ]; rewrite Ht; reflexivity.
Qed.

(** ** The swap never writes the line of the round *)

Section Swap.

Variable trader : Trader.Trader.

Lemma swap_usdc_for_eth_unannounced d retry_count :
  emits unannounced (Trader.swap_usdc_for_eth respond trader d retry_count).
Proof.
  revert retry_count. induction d as [|d IH]; intros retry_count;
    cbn [Trader.swap_usdc_for_eth].
  - apply emits_raise.
  - unfold Trader.swap_usdc_for_eth_attempt, Trader.get_token_balance,
      Trader.get_token_allowance, Trader.unwrap_weth.
    emits_auto ltac:(apply IH).
Qed.

Lemma approve_token_unannounced d token spender amount retry :
  emits unannounced (Trader.approve_token respond trader d token spender amount retry).
Proof.
  revert retry. induction d as [|d IH]; intros retry; cbn [Trader.approve_token].
  - apply emits_raise.
  - unfold Trader.approve_on_send_error, Trader.get_token_balance,
      Trader.get_token_allowance, Trader.get_token_symbol.
    emits_auto ltac:(first [ apply swap_usdc_for_eth_unannounced | apply IH ]).
Qed.

Lemma swap_unannounced d token_in token_out amount_in pool_key retry :
  emits unannounced
    (Trader.swap_tokens_for_tokens respond trader d token_in token_out amount_in
       pool_key retry).
Proof.
  revert retry. induction d as [|d IH]; intros retry;
    cbn [Trader.swap_tokens_for_tokens].
  - apply emits_raise.
  - unfold Trader.swap_prepare, Trader.swap_build, Trader.min_amount_out,
      Trader.swap_submit, Trader.swap_on_submit_error, Trader.check_pool_exists,
      Trader.get_token_balance, Trader.get_token_allowance, Trader.get_token_symbol.
    emits_auto ltac:(first [ apply swap_usdc_for_eth_unannounced
                           | apply approve_token_unannounced
                           | apply IH ]).
Qed.

(** The first entry of a swap closes the desk with the verdict on its
    input. *)
Lemma desk_swap_wp owner d token_in token_out amount_in pool_key s :
  covered s = None ->
  existsb (covers token_in amount_in) (holdings s) = true ->
  wp (desk owner)
     (Trader.swap_tokens_for_tokens respond trader d token_in token_out amount_in
        pool_key false)
     s (fun _ s' => covered s' <> Some false).
Proof.
  intros Hopen Hcov. destruct d as [|d]; cbn [Trader.swap_tokens_for_tokens].
  - apply wp_raise. rewrite Hopen. discriminate.
  - assert (Hstep :
      desk owner s
        (EvEnter (enter_swap_tokens_for_tokens token_in token_out amount_in false))
      = {| holdings := holdings s; covered := Some true |})
      by (unfold desk; rewrite Hopen, Hcov; reflexivity).
    apply wp_bind, wp_emit. rewrite Hstep.
    intros w. rewrite desk_closed; cbn; discriminate.
Qed.

End Swap.

Ltac eval_eqb :=
  repeat match goal with
         | |- context [String.eqb ?a ?b] =>
             let v := eval vm_compute in (String.eqb a b) in
             change (String.eqb a b) with v
         end.

(** ** What a round books *)

Ltac norm := cbn [executed]; eval_eqb; cbv iota.
Ltac known :=
  first [ apply Trader_for_wp; [ exact executed_chatter | ]
        | eapply wp_ignored;
          [ apply swap_unannounced | exact executed_unannounced | intros [?e|?v] ]
        | progress unfold Trader.get_token_balance ].

Lemma booked_trade_or_wait_wp usdc_decimals wallet trade_size operation
    myso_trade_size m :
  wp executed
     (trade_or_wait usdc_decimals wallet trade_size operation myso_trade_size m)
     false
     (booked_post address_of_key (Wallets.get_address address_of_key wallet)
        trade_size m).
Proof.
  unfold Volume.trade_or_wait, Volume.trade.
  wp_run norm known.
  all: unfold booked_post; eexists; split; [reflexivity|];
    split; intros Hs; try discriminate; try reflexivity;
    repeat match goal with
           | H : Wallets.update_wallet_stats _ _ _ _ = _ |- _ => rewrite H
           end; reflexivity.
Qed.

(** ** What a round swaps *)

Ltac norm_desk :=
  rewrite ?desk_log; cbn [desk covered holdings opening]; rewrite ?Z.eqb_refl;
  cbv iota; cbn [covered holdings].
Ltac known_desk :=
  first [ apply Trader_for_wp; [ exact (desk_chatter _) | ]
        | eapply wp_conseq;
          [ apply desk_swap_wp;
            [ reflexivity
            | unfold covers; cbn [existsb holdings fst snd]; rewrite ?Z.eqb_refl;
              repeat match goal with
                     | H : (?b <? ?a) = false |- _ =>
                         apply Z.ltb_ge in H; apply Z.leb_le in H; rewrite H
                     end;
              cbn [andb orb]; rewrite ?orb_true_r; reflexivity ]
          | intros [?e|?v] ?s ?Hs ]
        | progress unfold Trader.get_token_balance ].

Lemma desk_trade_wp usdc_decimals wallet trade_size operation myso_trade_size m :
  wp (desk (owner_of wallet))
     (trade usdc_decimals wallet trade_size operation myso_trade_size m)
     opening
     (fun _ s => covered s <> Some false).
Proof.
  unfold Volume.trade.
  wp_run norm_desk known_desk.
  all: try discriminate; try assumption.
Qed.

(** ** A swap that reverted *)

Ltac norm_see :=
  cbn [see reverted probes nothing_seen negb andb Z.eqb Pos.eqb].
Ltac known_see :=
  first [ apply Trader_for_wp; [ exact see_chatter | ]
        | wp_aside Revert.see_aside
        | eapply wp_conseq;
          [ apply Revert.revert_swap_first_wp | intros [?e|?v] ?s ?Hswap ] ].

Lemma see_trade_or_wait_wp usdc_decimals wallet trade_size operation myso_trade_size m :
  wp see
     (trade_or_wait usdc_decimals wallet trade_size operation myso_trade_size m)
     nothing_seen
     (fun r s =>
        reverted s <> None ->
        r = inr match Wallets.update_wallet_stats address_of_key
                        (Wallets.get_address address_of_key wallet)
                        (PFloat trade_size) m with
                | inr booked => booked
                | inl _ => m
                end).
Proof.
  unfold Volume.trade_or_wait, Volume.trade.
  wp_run norm_see known_see.
  all: try (intros Hseen; contradiction).
  all: intros Hseen;
    repeat match goal with
           | H : Wallets.update_wallet_stats _ _ _ _ = _ |- _ => rewrite H
           end; try reflexivity.
  all: unfold revert_post in *;
    destruct (reverted s) as [h|] eqn:Hrev; [|contradiction];
    match goal with
    | H : forall h, Some _ = Some h -> _ |- _ =>
        destruct (H h eq_refl) as [Himpossible _]; discriminate
    end.
Qed.

(** X22. What a round of continuous trading books.  The trade of a round
    never raises: it returns the wallet file.  The file is the one it
    started with unless the round logged [Trade executed with tx hash],
    and then it is the file [update_wallet_stats] gives for the selected
    wallet and the volume [trade_size], the USDC amount drawn for the
    round: also when the round sold MYSO instead, for an amount drawn
    separately.  If the update raises, the file stays as it was. *)
Theorem round_books_the_usdc_draw (usdc_decimals : N) (wallet : Wallets.Wallet)
    (trade_size : float) (operation : Operation) (myso_trade_size : float)
    (m : Wallets.Manager) (w : W) :
  let out := trade_or_wait usdc_decimals wallet trade_size operation
               myso_trade_size m w in
  exists m',
    result_of out = inr m' /\
    (observe executed false (trace_of out) = false -> m' = m) /\
    (observe executed false (trace_of out) = true ->
     match Wallets.update_wallet_stats address_of_key
             (Wallets.get_address address_of_key wallet) (PFloat trade_size) m with
     | inr booked => m' = booked
     | inl _ => m' = m
     end).
Proof.
  cbv zeta.
  exact (booked_trade_or_wait_wp usdc_decimals wallet trade_size operation
           myso_trade_size m w).
Qed.

(** X23. A round swaps only what it saw in the wallet.  When the trade
    of a round enters [swap_tokens_for_tokens], the input amount is at
    most a balance of the input token that the round has read for the
    selected wallet before: the USDC balance for a buy, also for the buy
    it falls back to, and the MYSO balance for a sale. *)
Theorem round_swaps_within_balance_read (usdc_decimals : N) (wallet : Wallets.Wallet)
    (trade_size : float) (operation : Operation) (myso_trade_size : float)
    (m : Wallets.Manager) (w : W) :
  covered (observe (desk (owner_of wallet)) opening
             (trace_of (trade usdc_decimals wallet trade_size operation
                          myso_trade_size m w)))
  <> Some false.
Proof.
  exact (desk_trade_wp usdc_decimals wallet trade_size operation myso_trade_size m w).
Qed.

(** X24. A swap that reverted on-chain is booked as volume.  If, during
    the trade of a round, the receipt of the swap comes back with a
    status other than 1, the round still returns the wallet file with the
    trade counted and [trade_size] added to the volume of the wallet
    (the old file if the update itself raises): the round never looks at
    the receipt. *)
Theorem reverted_trade_is_booked (usdc_decimals : N) (wallet : Wallets.Wallet)
    (trade_size : float) (operation : Operation) (myso_trade_size : float)
    (m : Wallets.Manager) (w : W) :
  let out := trade_or_wait usdc_decimals wallet trade_size operation
               myso_trade_size m w in
  reverted (observe see nothing_seen (trace_of out)) <> None ->
  result_of out
  = inr match Wallets.update_wallet_stats address_of_key
                (Wallets.get_address address_of_key wallet) (PFloat trade_size) m with
        | inr booked => booked
        | inl _ => m
        end.
Proof.
  cbv zeta.
  exact (see_trade_or_wait_wp usdc_decimals wallet trade_size operation
           myso_trade_size m w).
Qed.

End Round.

End TradeSpec.

(* ===================================================================== *)
(** * The test trade                                                      *)
(* ===================================================================== *)

Module TestTradeSpec.
Import Py Chain Watch Logic Trader Volume.
Local Open Scope py_scope.

Lemma started_no_first_entry n ev : no_first_entry ev = true -> started n ev = n.
Proof. intros H. unfold started. rewrite H. reflexivity. Qed.

Lemma prelude_no_first_entry ev : prelude ev = true -> no_first_entry ev = true.
Proof.
  destruct ev as [X c r|lvl text|secs|f]; try reflexivity.
  destruct f; try reflexivity. discriminate.
Qed.

Lemma started_prelude n ev : prelude ev = true -> started n ev = n.
Proof. intros H. apply started_no_first_entry, prelude_no_first_entry, H. Qed.

Lemma started_aside n ev : aside ev = true -> started n ev = n.
Proof. intros H. apply started_prelude, TraderFacts.aside_prelude, H. Qed.

Lemma started_chatter n ev : chatter ev = true -> started n ev = n.
Proof. destruct ev as [X c r|lvl text|secs|f]; try discriminate. reflexivity. Qed.

Section Run.

Variable W : Type.
Variable respond : forall X, Call X -> W -> (Exn + X) * W.
Variable get_code : Address -> W -> (Exn + list Byte.byte) * W.
Variable get_transaction : TxHash -> W -> (Exn + unit) * W.
Variable hex_prefix : bool.
Variable response_status : Exn -> option (option Z).
Variable switch_rpc_endpoint : M W unit.
Variable address_of_key : string -> string.
Variable address_value : string -> Address.
Variable cfg : Config.
Variable depth : nat.

Abbreviation _check_wallet_balances_wrapped :=
  (Volume._check_wallet_balances_wrapped respond address_of_key address_value cfg).
Abbreviation _check_wallet_balances :=
  (Volume._check_wallet_balances respond response_status switch_rpc_endpoint
     address_of_key address_value cfg).
Abbreviation run_test_trade_wrapped :=
  (Volume.run_test_trade_wrapped respond get_code get_transaction hex_prefix
     response_status switch_rpc_endpoint address_of_key address_value cfg depth).
Abbreviation run_test_trade :=
  (Volume.run_test_trade respond get_code get_transaction hex_prefix
     response_status switch_rpc_endpoint address_of_key address_value cfg depth).

Lemma wp_unwatched {S X} (step : S -> Event -> S) (answer : W -> (Exn + X) * W) s
    (Q : Exn + X -> S -> Prop) :
  (forall r, Q r s) -> wp step (Router.unwatched answer) s Q.
Proof.
  intros HQ w. unfold Router.unwatched, result_of, trace_of.
  destruct (answer w) as [r w']. apply HQ.
Qed.

(** ** A failed balance check *)

Lemma run_test_trade_wrapped_check_failed choice m (w w1 : W) (e : Exn) (t : Trace) :
  Wallets.get_all_wallets m <> [] ->
  _check_wallet_balances choice w = (inl e, w1, t) ->
  run_test_trade_wrapped choice m w
  = (inl e, w1,
     ([EvLog INFO "Executing test trade";
       EvLog INFO "Selected wallet {wallet.get_address()} for trading"] ++ t)
     ++ [EvLog ERROR "Error executing test trade: {str(e)}"]).
Proof.
  intros Hwallets Hcheck. unfold Volume.run_test_trade_wrapped.
  destruct (Wallets.get_all_wallets m) as [|first rest]; [contradiction|].
  unfold log.
  match goal with
  | |- context [bind (_check_wallet_balances choice) ?k] =>
      assert (Hseq : bind (_check_wallet_balances choice) k w = (inl e, w1, t))
        by (unfold bind; rewrite Hcheck; reflexivity)
  end.
  unfold try_ at 1.
  unfold bind at 1. unfold emit at 1. cbv beta iota.
  unfold bind at 1. unfold emit at 1. cbv beta iota.
  rewrite Hseq. reflexivity.
Qed.

(** ** The swaps a test trade starts *)

Section Swap.

Variable trader : Trader.Trader.

Ltac norm := cbn [started no_first_entry].
Ltac known :=
  first [ wp_prelude started_prelude | wp_aside started_aside | wp_unfold ].

Lemma started_swap_retry_wp d token_in token_out amount_in pool_key n :
  wp started
     (Trader.swap_tokens_for_tokens respond trader d token_in token_out amount_in
        pool_key true)
     n (fun _ n' => n' = n).
Proof.
  destruct d as [|d]; cbn [Trader.swap_tokens_for_tokens].
  - apply wp_raise. reflexivity.
  - wp_run norm known. all: reflexivity.
Qed.

Lemma started_swap_first_wp d token_in token_out amount_in pool_key n :
  wp started
     (Trader.swap_tokens_for_tokens respond trader d token_in token_out amount_in
        pool_key false)
     n (fun _ n' => (n' <= S n)%nat).
Proof.
  destruct d as [|d]; cbn [Trader.swap_tokens_for_tokens].
  - apply wp_raise. lia.
  - wp_run norm
      ltac:(first [ known
                  | eapply wp_conseq;
                    [ apply started_swap_retry_wp | intros [?e|?v] ?n' ?Hn; subst ] ]).
    all: lia.
Qed.

End Swap.

Hypothesis switch_starts_no_swap : emits no_first_entry switch_rpc_endpoint.

Lemma check_wallet_balances_no_first_entry wallet :
  emits no_first_entry (_check_wallet_balances wallet).
Proof.
  unfold Volume._check_wallet_balances, Volume.retry_with_backoff.
  apply RetrySpec.retry_loop_emits; try reflexivity; [exact switch_starts_no_swap|].
  unfold Volume._check_wallet_balances_wrapped.
  emits_auto fail.
Qed.

Ltac norm := cbn [started no_first_entry].
Ltac known :=
  first [ eapply wp_ignored;
          [ apply check_wallet_balances_no_first_entry
          | exact started_no_first_entry | intros [?e|?v] ]
        | apply TradeSpec.Trader_for_wp; [ exact started_chatter | ]
        | apply wp_unwatched; intros [?e|?v]
        | eapply wp_conseq;
          [ apply started_swap_first_wp | intros [?e|?v] ?n' ?Hn ]
        | progress unfold Trader.get_token_balance ].

Lemma started_run_test_trade_wrapped_wp choice m n :
  wp started (run_test_trade_wrapped choice m) n (fun _ n' => (n' <= S n)%nat).
Proof.
  unfold Volume.run_test_trade_wrapped.
  wp_run norm known. all: lia.
Qed.

Lemma started_run_test_trade_wp choice m :
  wp started (run_test_trade choice m) 0%nat (fun _ n => (n <= 5)%nat).
Proof.
  unfold Volume.run_test_trade, Volume.retry_with_backoff.
  eapply wp_conseq.
  - apply RetrySpec.retry_loop_started; [exact switch_starts_no_swap|].
    intros n. apply started_run_test_trade_wrapped_wp.
  - cbv beta. intros _ n Hn. change (Z.to_nat 5) with 5%nat in Hn. lia.
Qed.

End Run.

(** X25. A failed balance check ends the test trade.  When the first
    balance check of [run_test_trade] raises, after its own retries, the
    test trade raises the same exception at its first attempt: it builds
    no trader and starts no swap, and its decorator does not retry,
    because a decorated call raises neither [HTTPError] nor
    [TimeExhausted] (the switch of endpoint is assumed to raise
    neither).  All the run leaves behind are two log lines, what the
    check did, and the error line. *)
Theorem failed_balance_check_ends_test_trade (W : Type)
    (respond : forall X, Call X -> W -> (Exn + X) * W)
    (get_code : Address -> W -> (Exn + list Byte.byte) * W)
    (get_transaction : TxHash -> W -> (Exn + unit) * W) (hex_prefix : bool)
    (response_status : Exn -> option (option Z)) (switch_rpc_endpoint : M W unit)
    (address_of_key : string -> string) (address_value : string -> Address)
    (cfg : Config) (depth : nat)
    (choice : Wallets.Wallet) (m : Wallets.Manager) (w : W) (e : Exn) :
  let check := Volume._check_wallet_balances respond response_status
                 switch_rpc_endpoint address_of_key address_value cfg choice w in
  Wallets.get_all_wallets m <> [] ->
  (forall w e, result_of (switch_rpc_endpoint w) = inl e -> retryable e = false) ->
  result_of check = inl e ->
  Volume.run_test_trade respond get_code get_transaction hex_prefix response_status
    switch_rpc_endpoint address_of_key address_value cfg depth choice m w
  = (inl e, snd (fst check),
     ([EvLog INFO "Executing test trade";
       EvLog INFO "Selected wallet {wallet.get_address()} for trading"]
      ++ trace_of check)
     ++ [EvLog ERROR "Error executing test trade: {str(e)}"]).
Proof.
  cbv zeta. intros Hwallets Hswitch Hcheck.
  assert (Hretry : retryable e = false).
  { eapply RetrySpec.retry_loop_absorbs; [|exact Hcheck].
    intros switch [= <-]. exact Hswitch. }
  destruct (Volume._check_wallet_balances respond response_status
              switch_rpc_endpoint address_of_key address_value cfg choice w)
    as [[r w1] t] eqn:Hrun.
  cbn in Hcheck. subst r. cbn [fst snd trace_of].
  unfold Volume.run_test_trade, Volume.retry_with_backoff.
  change (Z.to_nat 5) with 5%nat. cbn [Volume.retry_loop]. unfold try_ at 1.
  erewrite run_test_trade_wrapped_check_failed; [|exact Hwallets|exact Hrun].
  rewrite Hretry. cbn. rewrite app_nil_r. reflexivity.
Qed.

(** X26. A test trade starts at most five swaps.  Over all the attempts
    its decorator makes, [run_test_trade] enters
    [swap_tokens_for_tokens] from outside at most five times, once per
    attempt (the switch of endpoint is assumed to start none).  An
    attempt whose swap was submitted and then failed with a
    [TimeExhausted] or an [HTTPError] is made again from the start, swap
    included. *)
Theorem test_trade_starts_at_most_five_swaps (W : Type)
    (respond : forall X, Call X -> W -> (Exn + X) * W)
    (get_code : Address -> W -> (Exn + list Byte.byte) * W)
    (get_transaction : TxHash -> W -> (Exn + unit) * W) (hex_prefix : bool)
    (response_status : Exn -> option (option Z)) (switch_rpc_endpoint : M W unit)
    (address_of_key : string -> string) (address_value : string -> Address)
    (cfg : Config) (depth : nat)
    (choice : Wallets.Wallet) (m : Wallets.Manager) (w : W) :
  emits no_first_entry switch_rpc_endpoint ->
  (observe started 0%nat
     (trace_of (Volume.run_test_trade respond get_code get_transaction hex_prefix
                  response_status switch_rpc_endpoint address_of_key address_value
                  cfg depth choice m w)) <= 5)%nat.
Proof.
  intros Hswitch.
  exact (@started_run_test_trade_wp W respond get_code get_transaction hex_prefix
           response_status switch_rpc_endpoint address_of_key address_value cfg depth
           Hswitch choice m w).
Qed.

End TestTradeSpec.

(* ===================================================================== *)
(** * Concrete runs of the volume generator                               *)
(* ===================================================================== *)

Module VolumeCases.
Import Py Chain Watch Logic Trader Scenario Safety Volume.
Local Open Scope py_scope.

(** The balance check against the calm node of [Sim], and against a node
    that refuses every request. *)
Lemma reconnect_no_sleep (W : Type) (switch : M W unit) :
  Some reconnect = Some switch -> emits no_sleep switch.
Proof. intros [= <-] w. reflexivity. Qed.

Lemma reconnect_returns (W : Type) (switch : M W unit) :
  Some reconnect = Some switch -> forall w, result_of (switch w) = inr tt.
Proof. intros [= <-] w. reflexivity. Qed.

Lemma reconnect_raises_nothing (W : Type) (w : W) (e : Exn) :
  result_of (reconnect w) = inl e -> retryable e = false.
Proof. discriminate. Qed.

(** A balance check that succeeds is not disturbed by its decorator, and
    with no retry allowed nothing is asked at all. *)
Lemma retry_with_backoff_is_transparent_witness :
  let func := _check_wallet_balances_wrapped Sim.respond Wallets.demo_address
                address_of_me base_cfg first_wallet in
  retry_with_backoff status_of 3 1 2 (Some reconnect) func Sim.calm = func Sim.calm /\
  retry_with_backoff status_of 0 1 2 (Some reconnect) func Sim.calm
  = (inl (exhausted 0), Sim.calm, []).
Proof.
  cbv zeta. split.
  - apply (RetrySpec.retry_with_backoff_is_transparent status_of (Some reconnect)
             (_check_wallet_balances_wrapped Sim.respond Wallets.demo_address
                address_of_me base_cfg first_wallet) 3 1 2 Sim.calm).
    + lia.
    + vm_compute. exact I.
  - apply (RetrySpec.retry_with_backoff_is_transparent status_of (Some reconnect)
             (_check_wallet_balances_wrapped Sim.respond Wallets.demo_address
                address_of_me base_cfg first_wallet) 0 1 2 Sim.calm).
    lia.
Defined.

(** A call that is always refused waits 1, 2 and 4 seconds. *)
Lemma retry_with_backoff_waits_grow_witness :
  exists k,
    (k <= Z.to_nat 3)%nat /\
    observe sleeps []
      (trace_of (retry_with_backoff status_of 3 1 2 (Some reconnect)
                   (always_refused (A:=unit)) tt))
    = backoffs 1 2 k.
Proof.
  apply (@RetrySpec.retry_with_backoff_waits_grow unit unit status_of (Some reconnect)
           always_refused 3 1 2).
  - intros w. reflexivity.
  - apply reconnect_no_sleep.
Defined.

(** Against a node that refuses every request, the balance check makes
    three attempts, waits 1, 2 and 4 seconds, and fails with the message
    of the decorator; an [HTTPError] without a response ends a decorated
    call at its first attempt. *)
Lemma retry_with_backoff_gives_up_witness :
  let check := _check_wallet_balances rate_limited status_of reconnect
                 Wallets.demo_address address_of_me base_cfg first_wallet tt in
  let bare := retry_with_backoff (fun _ => Some None) 3 1 2 (Some reconnect)
                (always_refused (A:=unit)) tt in
  result_of check = inl (mkExn "Exception" "Failed after 3 retries") /\
  observe sleeps [] (trace_of check) = [1; 2; 4] /\
  bare = (inl (AttributeError "'NoneType' object has no attribute 'status_code'"),
          tt, []).
Proof.
  cbv zeta.
  destruct (@RetrySpec.retry_with_backoff_gives_up unit unit status_of (Some reconnect)
              (_check_wallet_balances_wrapped rate_limited Wallets.demo_address
                 address_of_me base_cfg first_wallet) 3 1 2) as [Hgive _].
  destruct (@RetrySpec.retry_with_backoff_gives_up unit unit (fun _ => Some None)
              (Some reconnect) always_refused 3 1 2) as [_ Hbare].
  destruct Hgive as [Hresult Hwaits].
  - intros []. exists too_many_requests.
    split; [vm_compute; reflexivity|]. split; [reflexivity | discriminate].
  - apply reconnect_returns.
  - split; [apply Hresult|]. split.
    + apply Hwaits; [intros []; vm_compute; reflexivity | apply reconnect_no_sleep].
    + apply (Hbare tt too_many_requests); [lia | reflexivity | reflexivity | reflexivity].
Defined.

(** What that check raises is not an exception the decorator of the
    caller would retry. *)
Lemma retry_with_backoff_raises_nothing_retryable_witness :
  let check := _check_wallet_balances rate_limited status_of reconnect
                 Wallets.demo_address address_of_me base_cfg first_wallet tt in
  result_of check = inl (exhausted 3) /\ retryable (exhausted 3) = false.
Proof.
  cbv zeta. split; [vm_compute; reflexivity|].
  apply (@RetrySpec.retry_with_backoff_raises_nothing_retryable unit unit status_of
           (Some reconnect)
           (_check_wallet_balances_wrapped rate_limited Wallets.demo_address
              address_of_me base_cfg first_wallet) 3 1 2 tt (exhausted 3)).
  - intros switch [= <-]. apply reconnect_raises_nothing.
  - vm_compute. reflexivity.
Defined.

(** A buy of 0.5 USDC that is mined with status 0: the round returns the
    file with one trade and a volume of 0.5 for the wallet. *)
Lemma reverted_trade_is_booked_witness :
  let out := trade_or_wait Sim.respond Router.no_code false Wallets.demo_address
               address_of_me base_cfg 10 6 first_wallet f0_5 buy f10
               Wallets.one_wallet reverting in
  reverted (observe see nothing_seen (trace_of out)) = Some 77 /\
  result_of out
  = inr {| Wallets.wallets := Wallets.wallets Wallets.one_wallet;
           Wallets.file :=
             Wallets.FileData
               [{| Wallets.wd_address := "addr:key";
                   Wallets.wd_private_key := "key";
                   Wallets.wd_active := true;
                   Wallets.wd_stats :=
                     Some [("trades", PInt 1); ("volume", PFloat f0_5)] |}];
           Wallets.drawn := Wallets.drawn Wallets.one_wallet |}.
Proof.
  cbv zeta. split; [vm_compute; reflexivity|].
  rewrite (@TradeSpec.reverted_trade_is_booked _ Sim.respond Router.no_code false
             Wallets.demo_address address_of_me base_cfg 10 6 first_wallet f0_5 buy f10
             Wallets.one_wallet reverting).
  - vm_compute. reflexivity.
  - vm_compute. discriminate.
Defined.

(** Against a node that refuses every request the test trade fails at its
    first attempt, with the exception of the balance check. *)
Lemma failed_balance_check_ends_test_trade_witness :
  let check := _check_wallet_balances rate_limited status_of reconnect
                 Wallets.demo_address address_of_me base_cfg first_wallet tt in
  let out := run_test_trade rate_limited Router.no_code no_details false status_of
               reconnect Wallets.demo_address address_of_me base_cfg 10 first_wallet
               Wallets.one_wallet tt in
  result_of check = inl (exhausted 3) /\
  result_of out = inl (exhausted 3) /\
  trace_of out
  = ([EvLog INFO "Executing test trade";
      EvLog INFO "Selected wallet {wallet.get_address()} for trading"]
     ++ trace_of check)
    ++ [EvLog ERROR "Error executing test trade: {str(e)}"].
Proof.
  cbv zeta. split; [vm_compute; reflexivity|].
  rewrite (@TestTradeSpec.failed_balance_check_ends_test_trade unit rate_limited
             Router.no_code no_details false status_of reconnect Wallets.demo_address
             address_of_me base_cfg 10 first_wallet Wallets.one_wallet tt (exhausted 3)).
  - split; reflexivity.
  - vm_compute. discriminate.
  - apply reconnect_raises_nothing.
  - vm_compute. reflexivity.
Defined.

(** When no receipt is seen in time, each of the five attempts submits a
    swap of its own: five swaps are started, and the fifth submission
    accepted carries the fifth hash. *)
Lemma test_trade_starts_at_most_five_swaps_witness :
  let out := run_test_trade slow Router.no_code no_details false status_of
               reconnect Wallets.demo_address address_of_me base_cfg 10 first_wallet
               Wallets.one_wallet Sim.calm in
  (observe started 0%nat (trace_of out) <= 5)%nat /\
  observe started 0%nat (trace_of out) = 5%nat /\
  observe last_accepted None (trace_of out) = Some 5 /\
  result_of out = inl (exhausted 5).
Proof.
  cbv zeta. split; [|split; [|split]; vm_compute; reflexivity].
  apply (@TestTradeSpec.test_trade_starts_at_most_five_swaps _ slow Router.no_code
           no_details false status_of reconnect Wallets.demo_address address_of_me
           base_cfg 10 first_wallet Wallets.one_wallet Sim.calm).
  intros w. reflexivity.
Defined.

(** A round that draws 10 USDC, finds 5, and sells half a MYSO instead
    books a volume of 10. *)
Example sale_books_the_usdc_draw :
  let out := trade_or_wait Sim.respond Router.no_code false Wallets.demo_address
               address_of_me base_cfg 10 6 first_wallet f10 buy f0_5
               Wallets.one_wallet stocked in
  observe executed false (trace_of out) = true /\
  observe floors [] (trace_of out) = [(500000000000000000, 1000)] /\
  exists m', result_of out = inr m' /\
             Wallets.update_wallet_stats Wallets.demo_address "addr:key" (PFloat f10)
               Wallets.one_wallet = inr m'.
Proof.
  cbv zeta. split; [vm_compute; reflexivity|]. split; [vm_compute; reflexivity|].
  eexists. split; vm_compute; reflexivity.
Qed.

End VolumeCases.
